(** * Accessibility-aware routing: weighting, route computation and benchmark

    A shallow embedding of [graph_weighting.py], [route_calculator.py] and
    [benchmark_algoritmos.py].  Python floats are IEEE binary64 numbers and
    are embedded as Rocq's primitive floats, so arithmetic and comparisons
    round exactly as they do in CPython.  Dictionaries are finite maps,
    sets are finite sets, exceptions are values of an error type and in-place
    mutation is explicit state passing. *)

From Stdlib Require Import Floats ZArith Lia Ascii.
From Stdlib Require Uint63.
From stdpp Require Import gmap strings list fin_maps.

Set Warnings "-inexact-float".

(** ** Exceptions and the state-and-error monad *)

Inductive classe_excecao :=
| TypeError | ValueError | KeyError | AttributeError | ImportError
| StatisticsError | NetworkXNoPath | NetworkXError | NodeNotFound
| NodeResolutionError | OutraExcecao.

Record excecao := Excecao { classe : classe_excecao; mensagem : string }.

Inductive result (A : Type) :=
| Ok (a : A)
| Raise (e : excecao).
Arguments Ok {A} a.
Arguments Raise {A} e.

Definition classe_eqb (c1 c2 : classe_excecao) : bool :=
  match c1, c2 with
  | TypeError, TypeError | ValueError, ValueError | KeyError, KeyError
  | AttributeError, AttributeError | ImportError, ImportError
  | StatisticsError, StatisticsError | NetworkXNoPath, NetworkXNoPath
  | NetworkXError, NetworkXError | NodeNotFound, NodeNotFound
  | NodeResolutionError, NodeResolutionError
  | OutraExcecao, OutraExcecao => true
  | _, _ => false
  end.

(** A computation over a mutable store [S]: it returns a value or raises,
    and in both cases leaves a store behind (a Python exception does not
    undo the writes made before it). *)
Definition M (S A : Type) : Type := S -> result A * S.

Definition ret {S A} (a : A) : M S A := fun s => (Ok a, s).
Definition raise {S A} (e : excecao) : M S A := fun s => (Raise e, s).
Definition bind {S A B} (m : M S A) (k : A -> M S B) : M S B :=
  fun s => match m s with
           | (Ok a, s') => k a s'
           | (Raise e, s') => (Raise e, s')
           end.
Definition lift {S A} (r : result A) : M S A := fun s => (r, s).
Definition ler {S} : M S S := fun s => (Ok s, s).

(** [try: m except cs: h] runs [h] when [m] raises an exception whose class
    is listed in [cs]; any other exception propagates. *)
Definition try_except {S A} (m : M S A) (cs : list classe_excecao)
    (h : excecao -> M S A) : M S A :=
  fun s => match m s with
           | (Ok a, s') => (Ok a, s')
           | (Raise e, s') =>
               if existsb (classe_eqb (classe e)) cs then h e s'
               else (Raise e, s')
           end.

(** [except Exception as e]: every exception is caught. *)
Definition try_except_Exception {S A} (m : M S A) (h : excecao -> M S A)
    : M S A :=
  fun s => match m s with
           | (Ok a, s') => (Ok a, s')
           | (Raise e, s') => h e s'
           end.

Declare Scope py_scope.
Delimit Scope py_scope with py.
Notation "'let*' x ':=' m 'in' k" := (bind m (fun x => k))
  (at level 10, x name, m at level 200, k at level 200, only parsing)
  : py_scope.

(** The same for code that raises but touches no store. *)
Definition rbind {A B} (r : result A) (k : A -> result B) : result B :=
  match r with Ok a => k a | Raise e => Raise e end.
Notation "'let?' x ':=' r 'in' k" := (rbind r (fun x => k))
  (at level 10, x name, r at level 200, k at level 200, only parsing)
  : py_scope.

Definition rtry {A} (r : result A) (cs : list classe_excecao) (h : result A)
    : result A :=
  match r with
  | Ok a => Ok a
  | Raise e => if existsb (classe_eqb (classe e)) cs then h else Raise e
  end.

(** [for x in l: corpo], threading an accumulator through the iterations. *)
Fixpoint for_acc {S A B} (l : list A) (acc : B) (corpo : B -> A -> M S B)
    : M S B :=
  match l with
  | [] => ret acc
  | x :: l' => bind (corpo acc x) (fun acc' => for_acc l' acc' corpo)
  end.

Fixpoint rfor_acc {A B} (l : list A) (acc : B) (corpo : B -> A -> result B)
    : result B :=
  match l with
  | [] => Ok acc
  | x :: l' => rbind (corpo acc x) (fun acc' => rfor_acc l' acc' corpo)
  end.

(** ** Python values found in node and edge attribute dictionaries

    OSM tags are strings, or lists of strings where several ways were merged
    into one edge; ['length'] and the node coordinates are floats;
    ['geometry'] is a line given by its (lon, lat) coordinates. *)

Inductive pyval :=
| PyStr (s : string)
| PyFloat (x : float)
| PyList (l : list string)
| PyGeom (coords : list (float * float)).

Abbreviation attrs := (gmap string pyval).

(** [d.get(k, padrao)] *)
Definition dict_get (d : attrs) (k : string) (padrao : pyval) : pyval :=
  default padrao (d !! k).

(** [x == s] for a string literal [s]; [None] (an absent key read with
    [.get]) and values of other types compare unequal. *)
Definition pyval_eq_str (x : pyval) (s : string) : bool :=
  match x with PyStr t => String.eqb t s | _ => false end.

Definition py_eq_str (x : option pyval) (s : string) : bool :=
  match x with Some v => pyval_eq_str v s | None => false end.

(** Truth value of [x] in [if x:]. *)
Definition truthy (x : option pyval) : bool :=
  match x with
  | None => false
  | Some (PyStr s) => negb (String.eqb s "")
  | Some (PyFloat f) => negb (PrimFloat.eqb f 0)
  | Some (PyList l) => match l with [] => false | _ => true end
  | Some (PyGeom c) => match c with [] => false | _ => true end
  end.

(** [s.replace(c, '')] for a one-character [c]: every occurrence goes. *)
Fixpoint replace_vazio (c : ascii) (s : string) : string :=
  match s with
  | EmptyString => EmptyString
  | String a s' =>
      if Ascii.eqb a c then replace_vazio c s'
      else String a (replace_vazio c s')
  end.

Definition is_space (a : ascii) : bool :=
  let n := nat_of_ascii a in
  ((9 <=? n)%nat && (n <=? 13)%nat) || ((28 <=? n)%nat && (n <=? 32)%nat).

Fixpoint lstrip (s : string) : string :=
  match s with
  | EmptyString => EmptyString
  | String a s' => if is_space a then lstrip s' else s
  end.

Fixpoint rstrip (s : string) : string :=
  match s with
  | EmptyString => EmptyString
  | String a s' =>
      match rstrip s' with
      | EmptyString => if is_space a then EmptyString else String a EmptyString
      | r => String a r
      end
  end.

(** [s.strip()] *)
Definition strip (s : string) : string := rstrip (lstrip s).

(** [agulha in texto] on strings: substring test. *)
Fixpoint str_contains (agulha texto : string) : bool :=
  String.prefix agulha texto ||
  match texto with
  | EmptyString => false
  | String _ t => str_contains agulha t
  end.

Definition erro_tipo (m : string) : excecao := Excecao TypeError m.

(** [s in x]: substring of a string, member of a list; other values are
    not containers. *)
Definition py_in (s : string) (x : pyval) : result bool :=
  match x with
  | PyStr t => Ok (str_contains s t)
  | PyList l => Ok (existsb (String.eqb s) l)
  | PyFloat _ => Raise (erro_tipo "argument of type 'float' is not iterable")
  | PyGeom _ =>
      Raise (erro_tipo "argument of type 'LineString' is not iterable")
  end.

(** [x in [s1, ..., sn]] for a list of string literals. *)
Definition py_in_lista (x : pyval) (l : list string) : bool :=
  existsb (pyval_eq_str x) l.

(** [x * f] for a float [f]. *)
Definition py_mul_float (x : pyval) (f : float) : result float :=
  match x with
  | PyFloat b => Ok (b * f)%float
  | PyStr _ | PyList _ =>
      Raise (erro_tipo "can't multiply sequence by non-int of type 'float'")
  | PyGeom _ =>
      Raise (erro_tipo "unsupported operand type(s) for *: 'LineString' and 'float'")
  end.

(** [x < f] for a float [f]. *)
Definition py_lt_float (x : pyval) (f : float) : result bool :=
  match x with
  | PyFloat b => Ok (b <? f)%float
  | _ => Raise (erro_tipo "'<' not supported between these instances")
  end.

(** ** The graph: a NetworkX [MultiDiGraph]

    Node identifiers and edge keys are integers, as OSMnx produces them.
    [nos G !! n] is the attribute dictionary [G.nodes[n]] and
    [arestas G !! (u, v, key)] is the attribute dictionary [G[u][v][key]]
    of the edge from [u] to [v] with that key.  NetworkX enumerates nodes
    and edges in insertion order; here the order is that of the finite map,
    and nothing proved below depends on it. *)

Record grafo := Grafo {
  nos : gmap Z attrs;
  arestas : gmap (Z * Z * Z) attrs
}.

(** [G.nodes(data=True)] *)
Definition G_nodes_data (G : grafo) : list (Z * attrs) := map_to_list (nos G).

(** [G.edges(keys=True)] *)
Definition G_edges_keys (G : grafo) : list (Z * Z * Z) :=
  (map_to_list (arestas G)).*1.

(** A [KeyError].  Its class is what the code tests; the text names the
    key that was missing and is not the text [str] gives (the key's
    [repr], in quotes for a string). *)
Definition erro_chave (m : string) : excecao := Excecao KeyError m.

(** [G[u][v][key]]: the edge's attribute dictionary. *)
Definition G_getitem (u v key : Z) : M grafo attrs :=
  fun G => match arestas G !! (u, v, key) with
           | Some d => (Ok d, G)
           | None => (Raise (erro_chave "edge"), G)
           end.

(** [G[u][v][key][k] = x]: the one write the weighting code performs. *)
Definition G_setattr (u v key : Z) (k : string) (x : pyval) : M grafo unit :=
  fun G => match arestas G !! (u, v, key) with
           | Some d =>
               (Ok tt, {| nos := nos G;
                          arestas := <[(u, v, key) := <[k := x]> d]> (arestas G) |})
           | None => (Raise (erro_chave "edge"), G)
           end.

(** [G[u][v][key][k]] *)
Definition G_getattr (u v key : Z) (k : string) : M grafo pyval :=
  fun G => match arestas G !! (u, v, key) with
           | Some d =>
               match d !! k with
               | Some x => (Ok x, G)
               | None => (Raise (erro_chave k), G)
               end
           | None => (Raise (erro_chave "edge"), G)
           end.

(** Modelled from the spec: [mobility_profiles.py] is not among the sources;
    the record has the fields the weighting code reads from a profile, the
    penalties being floats and the two preferences booleans. *)
Record MobilityProfile := {
  nome : string;
  requer_acessibilidade : bool;
  prefere_faixas : bool;
  penalizacao_sem_rampa : float;
  penalizacao_escadas : float;
  penalizacao_inclinacao : float;
  penalizacao_sem_faixa : float
}.

(** ** graph_weighting.py *)

Definition opt_in_lista (x : option pyval) (l : list string) : bool :=
  match x with Some v => py_in_lista v l | None => false end.

Definition identificar_faixas_pedestres (G : grafo) : gset Z :=
  foldl (fun (faixas : gset Z) '(node_id, data) =>
           if opt_in_lista (data !! "crossing")
                ["yes"; "marked"; "zebra"; "traffic_signals"]
           then {[node_id]} ∪ faixas
           else if py_eq_str (data !! "highway") "crossing"
           then {[node_id]} ∪ faixas
           else faixas)
        ∅ (G_nodes_data G).

Section Ponderacao.

(** Python's built-in [float(s)] on a string, [None] standing for the
    [ValueError] it raises on text that is not a number. *)
Variable float_de_str : string -> option float.

Definition erro_valor (m : string) : excecao := Excecao ValueError m.

(** [float(x)] *)
Definition py_float (x : pyval) : result float :=
  match x with
  | PyStr s =>
      match float_de_str s with
      | Some f => Ok f
      | None => Raise (erro_valor "could not convert string to float")
      end
  | PyFloat f => Ok f
  | PyList _ =>
      Raise (erro_tipo "float() argument must be a string or a real number, not 'list'")
  | PyGeom _ =>
      Raise (erro_tipo "float() argument must be a string or a real number, not 'LineString'")
  end.

(** The numeric value read from a tag: a string loses every occurrence of
    the unit character and its surrounding blanks before [float]. *)
Definition valor_numerico (unidade : ascii) (x : pyval) : result float :=
  match x with
  | PyStr s => py_float (PyStr (strip (replace_vazio unidade s)))
  | _ => py_float x
  end.

Local Open Scope py_scope.

Definition calcular_peso_aresta (u v key : Z) (perfil : MobilityProfile)
    (faixas_pedestres : gset Z) : M grafo float :=
  let* edge_data := G_getitem u v key in
  let peso_base := dict_get edge_data "length" (PyFloat 1.0) in
  let fator_penalizacao := 1.0%float in
  (* 1. wheelchair *)
  let wheelchair_tag := edge_data !! "wheelchair" in
  let fator_penalizacao :=
    if py_eq_str wheelchair_tag "no" && requer_acessibilidade perfil
    then (fator_penalizacao * penalizacao_sem_rampa perfil)%float
    else if py_eq_str wheelchair_tag "limited"
    then (fator_penalizacao * (penalizacao_sem_rampa perfil * 0.5))%float
    else fator_penalizacao in
  (* 2. stairs *)
  let highway_type := dict_get edge_data "highway" (PyStr "") in
  let fator_penalizacao :=
    if pyval_eq_str highway_type "steps"
    then (fator_penalizacao * penalizacao_escadas perfil)%float
    else fator_penalizacao in
  (* 3. incline *)
  let incline := edge_data !! "incline" in
  let* fator_penalizacao :=
    lift
      (if truthy incline then
         rtry (let? incline_valor :=
                 (let? x := valor_numerico "%" (default (PyStr "") incline) in
                  Ok (abs x)) in
               Ok (if (5.0 <? incline_valor)%float
                   then (fator_penalizacao * penalizacao_inclinacao perfil)%float
                   else fator_penalizacao))
              [ValueError; TypeError]
              (Ok fator_penalizacao)
       else Ok fator_penalizacao) in
  (* 4. ramp *)
  let* tem_rampa :=
    lift (let? b := py_in "ramp" highway_type in
          Ok (b || py_eq_str (edge_data !! "ramp") "yes")) in
  let fator_penalizacao :=
    if tem_rampa && requer_acessibilidade perfil
    then (fator_penalizacao * 0.7)%float
    else fator_penalizacao in
  (* 5. marked crossings *)
  let fator_penalizacao :=
    if prefere_faixas perfil then
      let tem_faixa_inicio := bool_decide (u ∈ faixas_pedestres) in
      let tem_faixa_fim := bool_decide (v ∈ faixas_pedestres) in
      if negb tem_faixa_inicio && negb tem_faixa_fim
      then (fator_penalizacao * penalizacao_sem_faixa perfil)%float
      else (fator_penalizacao * 0.8)%float
    else fator_penalizacao in
  (* 6. surface *)
  let surface := dict_get edge_data "surface" (PyStr "") in
  let fator_penalizacao :=
    if requer_acessibilidade perfil then
      if py_in_lista surface ["unpaved"; "gravel"; "dirt"; "grass"; "sand"]
      then (fator_penalizacao * 2.0)%float
      else if py_in_lista surface ["paved"; "asphalt"; "concrete"]
      then (fator_penalizacao * 0.9)%float
      else fator_penalizacao
    else fator_penalizacao in
  (* 7. width *)
  let width := edge_data !! "width" in
  let* fator_penalizacao :=
    lift
      (if truthy width && requer_acessibilidade perfil then
         rtry (let? width_valor :=
                 valor_numerico "m" (default (PyStr "") width) in
               Ok (if (width_valor <? 1.5)%float
                   then (fator_penalizacao * 1.5)%float
                   else fator_penalizacao))
              [ValueError; TypeError]
              (Ok fator_penalizacao)
       else Ok fator_penalizacao) in
  let* peso_final := lift (py_mul_float peso_base fator_penalizacao) in
  ret peso_final.

(** The body of the loop of [ponderar_grafo] for one edge; the accumulator
    is the counter [arestas_penalizadas]. *)
Definition ponderar_aresta (perfil : MobilityProfile) (faixas_pedestres : gset Z)
    (arestas_penalizadas : nat) (e : Z * Z * Z) : M grafo nat :=
  let '(u, v, key) := e in
  let* peso_customizado :=
    calcular_peso_aresta u v key perfil faixas_pedestres in
  let* edge_data := G_getitem u v key in
  let* _ :=
    if bool_decide (is_Some (edge_data !! "length_original")) then ret tt
    else G_setattr u v key "length_original"
           (dict_get edge_data "length" (PyFloat 1.0)) in
  let* _ := G_setattr u v key "length" (PyFloat peso_customizado) in
  let* length_original := G_getattr u v key "length_original" in
  let* limite := lift (py_mul_float length_original 1.5) in
  ret (if (limite <? peso_customizado)%float
       then S arestas_penalizadas else arestas_penalizadas).

(** [ponderar_grafo] mutates [G] in place; the store left behind is the
    weighted graph the Python function returns.  The value returned here is
    the counter that the function only reports in debug mode. *)
Definition ponderar_grafo (perfil : MobilityProfile) : M grafo nat :=
  let* G := ler in
  let faixas_pedestres := identificar_faixas_pedestres G in
  for_acc (G_edges_keys G) 0%nat (ponderar_aresta perfil faixas_pedestres).

End Ponderacao.

Definition restaurar_aresta (_ : unit) (e : Z * Z * Z) : M grafo unit :=
  let '(u, v, key) := e in
  (let* edge_data := G_getitem u v key in
   if bool_decide (is_Some (edge_data !! "length_original")) then
     (let* length_original := G_getattr u v key "length_original" in
      G_setattr u v key "length" length_original)
   else ret tt)%py.

Definition restaurar_pesos_originais : M grafo unit :=
  (let* G := ler in for_acc (G_edges_keys G) tt restaurar_aresta)%py.

(** The current cost of an edge, as every reader of the graph takes it:
    [edge_data.get('length', 1.0)]. *)
Definition custo_atual (d : attrs) : pyval := dict_get d "length" (PyFloat 1.0).

(** ** The world outside the graph

    [tique] counts the readings taken from the monotonic clock, [sorteios]
    the draws taken from the seeded random source, and [tela] holds the
    messages shown to the user through streamlit. *)

Record mundo := Mundo {
  tique : nat;
  sorteios : nat;
  tela : list string
}.

Definition st_error (msg : string) : M mundo unit :=
  fun w => (Ok tt, {| tique := tique w; sorteios := sorteios w;
                      tela := tela w ++ [msg] |}).

Definition st_info (msg : string) : M mundo unit :=
  fun w => (Ok tt, {| tique := tique w; sorteios := sorteios w;
                      tela := tela w ++ [msg] |}).

(** [with st.spinner(msg): corpo]: the message is shown while the body
    runs. *)
Definition st_spinner {A} (msg : string) (corpo : M mundo A) : M mundo A :=
  fun w => corpo {| tique := tique w; sorteios := sorteios w;
                    tela := tela w ++ [msg] |}.

(** A geographic position [(lat, lon)]. *)
Abbreviation coord := (float * float)%type.

(** ** Python call binding and imports *)

(** Binding the keyword arguments of a call against the parameter names of
    a function defined with [def f(p1, ..., pn)]. *)
Definition vincular_nomeados (funcao : string) (parametros nomeados : list string)
    : result unit :=
  match filter (fun k => negb (existsb (String.eqb k) parametros)) nomeados with
  | k :: _ =>
      Raise (erro_tipo
               (funcao +:+ "() got an unexpected keyword argument '" +:+ k +:+ "'"))
  | [] => Ok tt
  end.

(** [from modulo import nome] against the names a module defines. *)
Definition from_import (modulo : string) (definidos : list string) (nome : string)
    : result unit :=
  if existsb (String.eqb nome) definidos then Ok tt
  else Raise (Excecao ImportError
                ("cannot import name '" +:+ nome +:+ "' from '" +:+ modulo +:+ "'")).

(** ** route_calculator.py *)

(** The names bound at the top level of [route_calculator.py]. *)
Definition route_calculator_nomes : list string :=
  ["st"; "ox"; "nx"; "extrair_geometria_rota"; "calcular_rota";
   "calcular_rota_completa"; "gerar_gpx"].

(** The parameters of [def calcular_rota(G, origem, destino)]. *)
Definition calcular_rota_parametros : list string := ["G"; "origem"; "destino"].

(** [G.get_edge_data(u, v)]: the parallel edges from [u] to [v], each with
    its key; the empty list stands for [None].  The edges come in the key
    order of the finite map, where NetworkX keeps the order in which they
    were added: the two agree when there is one edge from [u] to [v], and
    nothing below relies on which of several comes first. *)
Definition G_get_edge_data (G : grafo) (u v : Z) : list (Z * attrs) :=
  omap (fun '((a, b, key), d) =>
          if bool_decide (a = u ∧ b = v) then Some (key, d) else None)
       (map_to_list (arestas G)).

(** [G.nodes[n][k]] *)
Definition G_node_attr (G : grafo) (n : Z) (k : string) : result pyval :=
  match nos G !! n with
  | Some d => match d !! k with
              | Some x => Ok x
              | None => Raise (erro_chave k)
              end
  | None => Raise (erro_chave "node")
  end.

(** [geom.coords] *)
Definition py_coords (geom : pyval) : result (list (float * float)) :=
  match geom with
  | PyGeom c => Ok c
  | _ => Raise (Excecao AttributeError "object has no attribute 'coords'")
  end.

(** [zip(l[:-1], l[1:])] *)
Fixpoint pares_consecutivos {A} (l : list A) : list (A * A) :=
  match l with
  | x :: (y :: _) as l' => (x, y) :: pares_consecutivos l'
  | _ => []
  end.

Definition extrair_geometria_rota (G : grafo) (rota_nodes : list Z)
    : result (list (pyval * pyval)) :=
  rfor_acc (pares_consecutivos rota_nodes) []
    (fun pontos_rota '(u, v) =>
       match G_get_edge_data G u v with
       | [] => Ok pontos_rota
       | (_, attrs) :: _ =>
           let geom := attrs !! "geometry" in
           if truthy geom then
             (let? cs := py_coords (default (PyStr "") geom) in
              Ok (pontos_rota ++
                    map (fun '(lng, lat) => (PyFloat lat, PyFloat lng)) cs))%py
           else
             (let? yu := G_node_attr G u "y" in
              let? xu := G_node_attr G u "x" in
              let? yv := G_node_attr G v "y" in
              let? xv := G_node_attr G v "x" in
              Ok (pontos_rota ++ [(yu, xu); (yv, xv)]))%py
       end).

Abbreviation rota := (list (pyval * pyval) * float)%type.

Section RouteCalculator.

(** The library calls: [ox.distance.nearest_nodes(G, X, Y)],
    [nx.shortest_path(G, s, t, weight="length")] and
    [nx.shortest_path_length(G, s, t, weight="length")]. *)
Variable nearest_nodes : grafo -> float -> float -> result Z.
Variable shortest_path : grafo -> Z -> Z -> result (list Z).
Variable shortest_path_length : grafo -> Z -> Z -> result float.

Local Open Scope py_scope.

(** The value is [Some (pontos_rota, distancia)], or [None] for the pair
    [(None, None)]. *)
Definition calcular_rota (G : grafo) (origem destino : coord)
    : M mundo (option rota) :=
  try_except_Exception
    (try_except
       (let* no_origem := lift (nearest_nodes G (snd origem) (fst origem)) in
        let* no_destino := lift (nearest_nodes G (snd destino) (fst destino)) in
        let* rota_nodes := lift (shortest_path G no_origem no_destino) in
        let* distancia := lift (shortest_path_length G no_origem no_destino) in
        let* pontos_rota := lift (extrair_geometria_rota G rota_nodes) in
        ret (Some (pontos_rota, distancia)))
       [NetworkXNoPath]
       (fun _ => ret None))
    (fun e =>
       let* _ := st_error ("⚠️ Erro ao calcular rota: " +:+ mensagem e) in
       ret None).

Definition calcular_rota_completa (G : grafo) (origem destino : coord)
    : M mundo (option rota) :=
  st_spinner "🔍 Calculando melhor rota..."
    (let* r := calcular_rota G origem destino in
     match r with
     | None =>
         let* _ := st_error "❌ Não existe rota caminhável entre esses pontos." in
         let* _ := st_info
           "💡 Tente selecionar pontos mais próximos ou em áreas diferentes do campus." in
         ret None
     | Some (pontos_rota, distancia) => ret (Some (pontos_rota, distancia))
     end).

(** The call [calcular_rota(G, origem, destino, algoritmo=algoritmo)] that
    the benchmark makes, bound against the function above. *)
Definition calcular_rota_com_algoritmo (G : grafo) (origem destino : coord)
    (algoritmo : string) : M mundo (option rota) :=
  let* _ := lift (vincular_nomeados "calcular_rota" calcular_rota_parametros
                    ["algoritmo"]) in
  calcular_rota G origem destino.

End RouteCalculator.

(** The double quote and the line feed, as one-character strings. *)
Definition aspas : string := String "034"%char EmptyString.
Definition nl : string := String "010"%char EmptyString.

Section GerarGpx.

(** The text that an f-string puts in place of [{x}]: [format(x, '')]. *)
Variable py_format : pyval -> string.

Definition gpx_header : string :=
  "<?xml version=" +:+ aspas +:+ "1.0" +:+ aspas
    +:+ " encoding=" +:+ aspas +:+ "UTF-8" +:+ aspas +:+ "?>" +:+ nl +:+
  "<gpx version=" +:+ aspas +:+ "1.1" +:+ aspas
    +:+ " creator=" +:+ aspas +:+ "Unifor Route Planner" +:+ aspas +:+ nl +:+
  "  xmlns=" +:+ aspas +:+ "http://www.topografix.com/GPX/1/1" +:+ aspas
    +:+ nl +:+
  "  xmlns:xsi=" +:+ aspas +:+ "http://www.w3.org/2001/XMLSchema-instance"
    +:+ aspas +:+ nl +:+
  "  xsi:schemaLocation=" +:+ aspas +:+ "http://www.topografix.com/GPX/1/1 "
    +:+ nl +:+
  "  http://www.topografix.com/GPX/1/1/gpx.xsd" +:+ aspas +:+ ">" +:+ nl.

Definition gerar_gpx (rota : list (pyval * pyval)) (nome_rota : string)
    : string :=
  let gpx_track :=
    "  <trk>" +:+ nl +:+ "    <name>" +:+ nome_rota +:+ "</name>" +:+ nl
      +:+ "    <trkseg>" +:+ nl in
  let gpx_track :=
    foldl (fun gpx_track '(lat, lon) =>
             gpx_track +:+
             ("      <trkpt lat=" +:+ aspas +:+ py_format lat +:+ aspas
                +:+ " lon=" +:+ aspas +:+ py_format lon +:+ aspas
                +:+ "></trkpt>" +:+ nl))
          gpx_track rota in
  let gpx_track := gpx_track +:+ ("    </trkseg>" +:+ nl +:+ "  </trk>" +:+ nl) in
  let gpx_footer := "</gpx>" in
  gpx_header +:+ gpx_track +:+ gpx_footer.

End GerarGpx.

(** [from route_calculator import heuristica_astar], for a heuristic [h]
    that the module would have to define. *)
Definition importar_heuristica {H} (h : H) : result H :=
  match from_import "route_calculator" route_calculator_nomes "heuristica_astar" with
  | Ok _ => Ok h
  | Raise e => Raise e
  end.

(** ** benchmark_algoritmos.py *)

Definition categorizar_distancia (dist_metros : float) : string :=
  if (dist_metros <? 200)%float then "curta"
  else if (dist_metros <? 500)%float then "média"
  else "longa".

(** *** Counting the nodes a search explores *)

(** An entry [(prioridade, no)] of the priority queue. *)
Abbreviation entrada := (float * Z)%type.

(** [a < b] on tuples: the first components decide unless they are equal. *)
Definition tupla_lt (a b : entrada) : bool :=
  if (fst a =? fst b)%float then (snd a <? snd b)%Z
  else (fst a <? fst b)%float.

(** [heapq.heappush] and [heapq.heappop], modelled by their contract: the
    queue is a bag of entries and [heappop] removes a smallest one. *)
Definition heappush (heap : list entrada) (x : entrada) : list entrada :=
  heap ++ [x].

Fixpoint heappop (heap : list entrada) : option (entrada * list entrada) :=
  match heap with
  | [] => None
  | x :: heap' =>
      match heappop heap' with
      | None => Some (x, [])
      | Some (m, resto) =>
          if tupla_lt m x then Some (m, x :: resto) else Some (x, heap')
      end
  end.

Fixpoint sem_repetidos (l : list Z) : list Z :=
  match l with
  | [] => []
  | x :: l' => if bool_decide (x ∈ l') then sem_repetidos l'
               else x :: sem_repetidos l'
  end.

(** [G.neighbors(u)]: the successors of [u], each once. *)
Definition G_neighbors (G : grafo) (u : Z) : result (list Z) :=
  if bool_decide (is_Some (nos G !! u)) then
    Ok (sem_repetidos
          (omap (fun '((a, b, _), _) =>
                   if bool_decide (a = u) then Some b else None)
                (map_to_list (arestas G))))
  else Raise (Excecao NetworkXError "The node is not in the graph.").

(** The inner loop [for key in G[u][v]]: the least ['length'] among the
    parallel edges from [u] to [v], starting from [float('inf')]. *)
Definition peso_minimo_paralelas (G : grafo) (u v : Z) : result float :=
  rfor_acc (G_get_edge_data G u v) infinity
    (fun peso_minimo '(_, d) =>
       let peso := dict_get d "length" (PyFloat 1.0) in
       match peso with
       | PyFloat x => Ok (if (x <? peso_minimo)%float then x else peso_minimo)
       | _ => Raise (erro_tipo "'<' not supported between these instances")
       end).

Record estado_busca := EstadoBusca {
  dist : gmap Z float;
  visitados : gset Z;
  explorados : gset Z;
  heap : list entrada
}.

Section Busca.

Variable G : grafo.
Variable destino_id : Z.

(** The two places where the searches differ.  [distancia_base d u dist] is
    the cost of [u] that the new distance extends: the popped priority [d]
    for Dijkstra, [dist[u]] for A*.  [prioridade nova_dist v] is the
    priority pushed for [v]: [nova_dist] for Dijkstra, [nova_dist + h] for
    A*, where computing [h] can raise. *)
Variable distancia_base : float -> Z -> gmap Z float -> result float.
Variable prioridade : float -> Z -> result float.

Local Open Scope py_scope.

(** The body of [for v in G.neighbors(u)]. *)
Definition explorar_vizinho (d : float) (u : Z) (st : estado_busca) (v : Z)
    : result estado_busca :=
  if bool_decide (v ∈ visitados st) then Ok st
  else
    let? peso_minimo := peso_minimo_paralelas G u v in
    let? base := distancia_base d u (dist st) in
    let nova_dist := (base + peso_minimo)%float in
    if match dist st !! v with
       | None => true
       | Some dv => (nova_dist <? dv)%float
       end
    then
      let? f := prioridade nova_dist v in
      Ok {| dist := <[v := nova_dist]> (dist st);
            visitados := visitados st;
            explorados := explorados st;
            heap := heappush (heap st) (f, v) |}
    else Ok st.

(** The loop [while heap:].  [None] means that the fuel ran out before the
    loop ended; [combustivel] below is always enough. *)
Fixpoint laco_busca (fuel : nat) (st : estado_busca)
    : option (result estado_busca) :=
  match fuel with
  | O => None
  | S fuel' =>
      match heappop (heap st) with
      | None => Some (Ok st)
      | Some ((d, u), heap') =>
          if bool_decide (u ∈ visitados st) then
            laco_busca fuel' {| dist := dist st; visitados := visitados st;
                                explorados := explorados st; heap := heap' |}
          else
            let st1 := {| dist := dist st;
                          visitados := {[u]} ∪ visitados st;
                          explorados := {[u]} ∪ explorados st;
                          heap := heap' |} in
            if bool_decide (u = destino_id) then Some (Ok st1)
            else
              match (let? vs := G_neighbors G u in
                     rfor_acc vs st1 (explorar_vizinho d u)) with
              | Ok st2 => laco_busca fuel' st2
              | Raise e => Some (Raise e)
              end
      end
  end.

End Busca.

(** The state before the loop: [dist = {origem_id: 0}], nothing visited,
    [heap = [(0, origem_id)]].  The integer [0] of the source only ever
    meets floats (it is added to edge lengths and compared with them), so
    it is written here as the float zero. *)
Definition estado_inicial (origem_id : Z) : estado_busca :=
  {| dist := {[origem_id := 0%float]}; visitados := ∅; explorados := ∅;
     heap := [(0%float, origem_id)] |}.

Definition grau (G : grafo) (u : Z) : nat :=
  match G_neighbors G u with Ok vs => length vs | Raise _ => 0 end.

(** One more than the number of entries that can ever be pushed. *)
Definition combustivel (G : grafo) : nat :=
  S (S (sum_list (map (grau G) (map fst (map_to_list (nos G)))))).

(** [len(explorados)] at the end of the [try] block, [0] from the
    [except Exception] branch. *)
Definition contagem (r : option (result estado_busca)) : nat :=
  match r with
  | Some (Ok st) => size (explorados st)
  | _ => 0%nat
  end.

Definition busca_dijkstra (G : grafo) (origem_id destino_id : Z)
    : option (result estado_busca) :=
  laco_busca G destino_id
    (fun d _ _ => Ok d) (fun nova_dist _ => Ok nova_dist)
    (combustivel G) (estado_inicial origem_id).

Definition contar_nos_dijkstra (G : grafo) (origem_id destino_id : Z) : nat :=
  contagem (busca_dijkstra G origem_id destino_id).

Abbreviation heuristica := (grafo -> Z -> Z -> result float).

Definition busca_astar (h : heuristica) (G : grafo) (origem_id destino_id : Z)
    : option (result estado_busca) :=
  laco_busca G destino_id
    (fun _ u dist =>
       match dist !! u with
       | Some x => Ok x
       | None => Raise (erro_chave "dist")
       end)
    (fun nova_dist v =>
       match h G v destino_id with
       | Ok hv => Ok (nova_dist + hv)%float
       | Raise e => Raise e
       end)
    (combustivel G) (estado_inicial origem_id).

(** [heuristica_astar] is the outcome of the import statement that opens
    the [try] block of [contar_nos_astar]. *)
Definition contar_nos_astar (heuristica_astar : result heuristica)
    (G : grafo) (origem_id destino_id : Z) : nat :=
  match heuristica_astar with
  | Ok h => contagem (busca_astar h G origem_id destino_id)
  | Raise _ => 0%nat
  end.

(** *** Statistics of a timing sample *)

(** A small Python [int] as a float (exact below [2^53]). *)
Definition float_de_int (z : Z) : float :=
  if (z <? 0)%Z then (- of_uint63 (Uint63.of_Z (- z)))%float
  else of_uint63 (Uint63.of_Z z).

Fixpoint insere_ordenado (x : float) (l : list float) : list float :=
  match l with
  | [] => [x]
  | y :: l' => if (x <? y)%float then x :: l else y :: insere_ordenado x l'
  end.

(** [sorted(data)]: a stable sort that compares with [<].  It returns
    what Python's [sorted] returns on every list that holds no NaN (a
    timing sample never does); the place where a NaN ends up is not
    modelled. *)
Definition sorted (data : list float) : list float :=
  foldl (fun acc x => insere_ordenado x acc) [] data.

(** [max(l)] and [min(l)]: the first greatest and the first least item. *)
Definition py_max (l : list float) : result float :=
  match l with
  | [] => Raise (erro_valor "max() arg is an empty sequence")
  | x :: l' => Ok (foldl (fun m y => if (m <? y)%float then y else m) x l')
  end.

Definition py_min (l : list float) : result float :=
  match l with
  | [] => Raise (erro_valor "min() arg is an empty sequence")
  | x :: l' => Ok (foldl (fun m y => if (y <? m)%float then y else m) x l')
  end.

Definition erro_estatistica (m : string) : excecao := Excecao StatisticsError m.

(** The cut point number [i] of [statistics.quantiles(data, n=n)] with the
    default method, ['exclusive'], on the sorted sample [data]. *)
Definition ponto_de_corte (data : list float) (n i : Z) : float :=
  let ld := Z.of_nat (length data) in
  let m := (ld + 1)%Z in
  let j := (i * m / n)%Z in
  let j := if (j <? 1)%Z then 1%Z
           else if (ld - 1 <? j)%Z then (ld - 1)%Z else j in
  let delta := (i * m - j * n)%Z in
  ((nth (Z.to_nat (j - 1)) data 0 * float_de_int (n - delta)
    + nth (Z.to_nat j) data 0 * float_de_int delta)
   / float_de_int n)%float.

(** [statistics.quantiles(data, n=n)] as CPython 3.8 to 3.12 define it;
    later versions differ only on samples of one element. *)
Definition quantiles (data : list float) (n : nat) : result (list float) :=
  if (n <? 1)%nat then Raise (erro_estatistica "n must be at least 1")
  else
    let data := sorted data in
    if (length data <? 2)%nat
    then Raise (erro_estatistica "must have at least two data points")
    else Ok (map (fun i => ponto_de_corte data (Z.of_nat n) (Z.of_nat i))
                 (seq 1 (n - 1))).

(** [l[i]] *)
Definition py_index (l : list float) (i : nat) : result float :=
  match l !! i with
  | Some x => Ok x
  | None => Raise (Excecao OutraExcecao "list index out of range")
  end.

(** [statistics.quantiles(tempos, n=20)[18] if len(tempos) >= 20
     else max(tempos)] *)
Definition percentil_95 (tempos : list float) : result float :=
  if (20 <=? length tempos)%nat
  then (let? q := quantiles tempos 20 in py_index q 18)%py
  else py_max tempos.

(** [statistics.quantiles(tempos, n=100)[98] if len(tempos) >= 100
     else max(tempos)] *)
Definition percentil_99 (tempos : list float) : result float :=
  if (100 <=? length tempos)%nat
  then (let? q := quantiles tempos 100 in py_index q 98)%py
  else py_max tempos.

(** *** Measurements *)

Record MedicaoAlgoritmo := {
  algoritmo : string;
  sucesso : bool;
  tempos_ms : list float;
  tempo_medio_ms : float;
  tempo_mediano_ms : float;
  tempo_min_ms : float;
  tempo_max_ms : float;
  desvio_padrao_ms : float;
  percentil_95_ms : float;
  percentil_99_ms : float;
  distancia : float;
  num_pontos : nat;
  nos_explorados : nat;
  erro : option string
}.

Record ResultadoComparacao := {
  origem : string;
  destino : string;
  distancia_euclidiana : float;
  categoria_distancia : string;
  dijkstra : MedicaoAlgoritmo;
  astar : MedicaoAlgoritmo;
  speedup_medio : float;
  speedup_mediano : float;
  economia_nos_pct : float
}.

(** The record built by both failure branches of
    [medir_algoritmo_completo]: unsuccessful, no timings, every figure 0. *)
Definition medicao_falha (alg : string) (motivo : string) : MedicaoAlgoritmo :=
  {| algoritmo := alg; sucesso := false; tempos_ms := [];
     tempo_medio_ms := 0; tempo_mediano_ms := 0; tempo_min_ms := 0;
     tempo_max_ms := 0; desvio_padrao_ms := 0; percentil_95_ms := 0;
     percentil_99_ms := 0; distancia := 0; num_pontos := 0;
     nos_explorados := 0; erro := Some motivo |}.

(** The counters and the list that the loop of [executar] updates. *)
Record estado_benchmark := {
  resultados : list ResultadoComparacao;
  pares_testados : nat;
  pares_invalidos : nat
}.

Section Benchmark.

(** What the benchmark takes from outside this module. *)
Variable relogio : nat -> float.
Variable nearest_nodes : grafo -> float -> float -> result Z.
Variable has_path : grafo -> Z -> Z -> result bool.
Variable calcular_rota_alg :
  grafo -> coord -> coord -> string -> M mundo (option rota).
Variable heuristica_astar : result heuristica.
Variable statistics_mean : list float -> result float.
Variable statistics_median : list float -> result float.
Variable statistics_stdev : list float -> result float.
Variable random_sample : nat -> list string -> result (string * string).
Variable math_cos : float -> float.
Variable math_pow : float -> float -> float.

Local Open Scope py_scope.

(** [time.perf_counter()] *)
Definition perf_counter : M mundo float :=
  fun w => (Ok (relogio (tique w)),
            {| tique := S (tique w); sorteios := sorteios w; tela := tela w |}).

(** [random.sample(nomes, 2)] *)
Definition sortear_par (nomes : list string) : M mundo (string * string) :=
  fun w => (random_sample (sorteios w) nomes,
            {| tique := tique w; sorteios := S (sorteios w); tela := tela w |}).

(** [math.radians(x)] *)
Definition math_radians (x : float) : float :=
  (x * (0x1.921fb54442d18p+1 / 180))%float.

Definition calcular_distancia_euclidiana (p1 p2 : coord) : float :=
  let '(lat1, lon1) := p1 in
  let '(lat2, lon2) := p2 in
  let metros_por_grau_lat := 111000%float in
  let metros_por_grau_lon := (111000 * math_cos (math_radians lat1))%float in
  let delta_lat := ((lat2 - lat1) * metros_por_grau_lat)%float in
  let delta_lon := ((lon2 - lon1) * metros_por_grau_lon)%float in
  sqrt (math_pow delta_lat 2 + math_pow delta_lon 2)%float.

Definition verificar_conectividade (G : grafo) (origem destino : coord) : bool :=
  match (let? no_origem := nearest_nodes G (snd origem) (fst origem) in
         let? no_destino := nearest_nodes G (snd destino) (fst destino) in
         has_path G no_origem no_destino) with
  | Ok b => b
  | Raise _ => false
  end.

(** One timed invocation: the route, and the elapsed time in ms. *)
Definition invocacao_cronometrada (G : grafo) (origem destino : coord)
    (alg : string) : M mundo (option rota * float) :=
  let* inicio := perf_counter in
  let* r := calcular_rota_alg G origem destino alg in
  let* fim := perf_counter in
  ret (r, ((fim - inicio) * 1000)%float).

(** The loop [for _ in range(repeticoes)] with its three variables.  The
    value [None] is the early [return] taken when an invocation finds no
    path. *)
Fixpoint medicoes (G : grafo) (origem destino : coord) (alg : string)
    (repeticoes : nat) (tempos : list float) (final : option rota)
    : M mundo (option (list float * option rota)) :=
  match repeticoes with
  | O => ret (Some (tempos, final))
  | S repeticoes' =>
      let* rt := invocacao_cronometrada G origem destino alg in
      match fst rt with
      | None => ret None
      | Some (pontos, distancia) =>
          medicoes G origem destino alg repeticoes'
            (tempos ++ [snd rt]) (Some (pontos, distancia))
      end
  end.

(** The successful record, its arguments evaluated in the order written. *)
Definition medicao_sucesso (alg : string) (tempos : list float)
    (final : option rota) (nos_explorados : nat) : result MedicaoAlgoritmo :=
  let? media := statistics_mean tempos in
  let? mediana := statistics_median tempos in
  let? minimo := py_min tempos in
  let? maximo := py_max tempos in
  let? desvio := (if (1 <? length tempos)%nat then statistics_stdev tempos
                  else Ok 0%float) in
  let? p95 := percentil_95 tempos in
  let? p99 := percentil_99 tempos in
  match final with
  | None => Raise (erro_tipo "object of type 'NoneType' has no len()")
  | Some (pontos_final, distancia_final) =>
      Ok {| algoritmo := alg; sucesso := true; tempos_ms := tempos;
            tempo_medio_ms := media; tempo_mediano_ms := mediana;
            tempo_min_ms := minimo; tempo_max_ms := maximo;
            desvio_padrao_ms := desvio; percentil_95_ms := p95;
            percentil_99_ms := p99; distancia := distancia_final;
            num_pontos := length pontos_final;
            nos_explorados := nos_explorados; erro := None |}
  end.

Definition medir_algoritmo_completo (G : grafo) (origem destino : coord)
    (alg : string) (repeticoes warmup : nat) : M mundo MedicaoAlgoritmo :=
  try_except_Exception
    (let* no_origem := lift (nearest_nodes G (snd origem) (fst origem)) in
     let* no_destino := lift (nearest_nodes G (snd destino) (fst destino)) in
     let* _ := for_acc (seq 0 warmup) tt
                 (fun _ _ => let* _ := calcular_rota_alg G origem destino alg in
                             ret tt) in
     let* m := medicoes G origem destino alg repeticoes [] None in
     match m with
     | None => ret (medicao_falha alg "Sem caminho")
     | Some (tempos, final) =>
         let nos_explorados :=
           if String.eqb alg "dijkstra"
           then contar_nos_dijkstra G no_origem no_destino
           else contar_nos_astar heuristica_astar G no_origem no_destino in
         lift (medicao_sucesso alg tempos final nos_explorados)
     end)
    (fun e => ret (medicao_falha alg (mensagem e))).

(** The body of [while pares_testados < num_testes] in [executar]. *)
Definition executar_passo (G : grafo) (pois : gmap string coord)
    (repeticoes_por_teste : nat) (st : estado_benchmark)
    : M mundo estado_benchmark :=
  let nomes := (map_to_list pois).*1 in
  let* par := sortear_par nomes in
  let origem_nome := fst par in
  let destino_nome := snd par in
  let* origem := lift (match pois !! origem_nome with
                       | Some c => Ok c
                       | None => Raise (erro_chave origem_nome)
                       end) in
  let* destino := lift (match pois !! destino_nome with
                        | Some c => Ok c
                        | None => Raise (erro_chave destino_nome)
                        end) in
  if negb (verificar_conectividade G origem destino) then
    ret {| resultados := resultados st; pares_testados := pares_testados st;
           pares_invalidos := S (pares_invalidos st) |}
  else
    let dist_euclidiana := calcular_distancia_euclidiana origem destino in
    let categoria := categorizar_distancia dist_euclidiana in
    let* dijkstra :=
      medir_algoritmo_completo G origem destino "dijkstra"
        repeticoes_por_teste 3 in
    let* astar :=
      medir_algoritmo_completo G origem destino "astar"
        repeticoes_por_teste 3 in
    if negb (sucesso dijkstra && sucesso astar) then
      ret {| resultados := resultados st; pares_testados := pares_testados st;
             pares_invalidos := S (pares_invalidos st) |}
    else
      let speedup_medio :=
        if (0 <? tempo_medio_ms astar)%float
        then (tempo_medio_ms dijkstra / tempo_medio_ms astar)%float
        else 0%float in
      let speedup_mediano :=
        if (0 <? tempo_mediano_ms astar)%float
        then (tempo_mediano_ms dijkstra / tempo_mediano_ms astar)%float
        else 0%float in
      let economia_nos :=
        if (0 <? nos_explorados dijkstra)%nat
        then (100 * (1 - float_de_int (Z.of_nat (nos_explorados astar))
                         / float_de_int (Z.of_nat (nos_explorados dijkstra))))%float
        else 0%float in
      let resultado :=
        {| origem := origem_nome; destino := destino_nome;
           distancia_euclidiana := dist_euclidiana;
           categoria_distancia := categoria;
           dijkstra := dijkstra; astar := astar;
           speedup_medio := speedup_medio;
           speedup_mediano := speedup_mediano;
           economia_nos_pct := economia_nos |} in
      ret {| resultados := resultados st ++ [resultado];
             pares_testados := S (pares_testados st);
             pares_invalidos := pares_invalidos st |}.

(** The loop of [executar].  It ends only once [num_testes] pairs have been
    accepted; [None] means that [fuel] iterations were not enough. *)
Fixpoint executar (fuel : nat) (G : grafo) (pois : gmap string coord)
    (num_testes repeticoes_por_teste : nat) (st : estado_benchmark)
    : M mundo (option estado_benchmark) :=
  if (pares_testados st <? num_testes)%nat then
    match fuel with
    | O => ret None
    | S fuel' =>
        let* st' := executar_passo G pois repeticoes_por_teste st in
        executar fuel' G pois num_testes repeticoes_por_teste st'
    end
  else ret (Some st).

End Benchmark.

(** * Vocabulary of the properties

    The definitions below belong to the statements proved afterwards, not
    to the program: predicates, the specification-side reading of a
    computation, and the data of the examples. *)

(** ** Numbers and samples *)

(** [x] is a number: it compares with itself. *)
Definition nao_nan (x : float) : Prop := (x <=? x)%float = true.

Definition amostra_1_a_20 : list float :=
  [1; 2; 3; 4; 5; 6; 7; 8; 9; 10; 11; 12; 13; 14; 15; 16; 17; 18; 19; 20]%float.

(** ** The cost of one edge, step by step *)

(** One step of the cost computation either multiplies the running factor
    by a number or leaves it alone. *)
Definition aplicar (fator : float) (m : option float) : float :=
  match m with Some x => (fator * x)%float | None => fator end.

Section EspecificacaoDoPeso.

Variable float_de_str : string -> option float.
Variable perfil : MobilityProfile.
Variable faixas_pedestres : gset Z.

(** The number a tag holds: absent when the tag is missing or falsy, and
    when it does not parse. *)
Definition numero_da_etiqueta (unidade : ascii) (x : option pyval) : option float :=
  if truthy x then
    match valor_numerico float_de_str unidade (default (PyStr "") x) with
    | Ok f => Some f
    | Raise _ => None
    end
  else None.

Definition passo_cadeira_de_rodas (d : attrs) : option float :=
  if py_eq_str (d !! "wheelchair") "no" && requer_acessibilidade perfil
  then Some (penalizacao_sem_rampa perfil)
  else if py_eq_str (d !! "wheelchair") "limited"
  then Some (penalizacao_sem_rampa perfil * 0.5)%float
  else None.

Definition passo_escadas (d : attrs) : option float :=
  if pyval_eq_str (dict_get d "highway" (PyStr "")) "steps"
  then Some (penalizacao_escadas perfil) else None.

Definition passo_inclinacao (d : attrs) : option float :=
  match numero_da_etiqueta "%" (d !! "incline") with
  | Some x => if (5.0 <? abs x)%float
              then Some (penalizacao_inclinacao perfil) else None
  | None => None
  end.

(** The edge is tagged as a ramp: by a token of its highway type or by
    its ramp flag. *)
Definition marcada_como_rampa (d : attrs) : bool :=
  match py_in "ramp" (dict_get d "highway" (PyStr "")) with
  | Ok b => b || py_eq_str (d !! "ramp") "yes"
  | Raise _ => false
  end.

Definition passo_rampa (d : attrs) : option float :=
  if marcada_como_rampa d && requer_acessibilidade perfil
  then Some 0.7%float else None.

(** Neither endpoint is a marked crossing. *)
Definition sem_faixa_nos_extremos (u v : Z) : bool :=
  negb (bool_decide (u ∈ faixas_pedestres))
  && negb (bool_decide (v ∈ faixas_pedestres)).

Definition passo_faixa (u v : Z) : option float :=
  if prefere_faixas perfil then
    if sem_faixa_nos_extremos u v
    then Some (penalizacao_sem_faixa perfil)
    else Some 0.8%float
  else None.

Definition passo_superficie (d : attrs) : option float :=
  if requer_acessibilidade perfil then
    if py_in_lista (dict_get d "surface" (PyStr ""))
         ["unpaved"; "gravel"; "dirt"; "grass"; "sand"]
    then Some 2.0%float
    else if py_in_lista (dict_get d "surface" (PyStr ""))
              ["paved"; "asphalt"; "concrete"]
    then Some 0.9%float
    else None
  else None.

Definition passo_largura (d : attrs) : option float :=
  if requer_acessibilidade perfil then
    match numero_da_etiqueta "m" (d !! "width") with
    | Some x => if (x <? 1.5)%float then Some 1.5%float else None
    | None => None
    end
  else None.

(** The penalty factor: 1.0 multiplied, in this order, by the seven steps. *)
Definition fator_penalizacao (d : attrs) (u v : Z) : float :=
  foldl aplicar 1.0%float
    [passo_cadeira_de_rodas d; passo_escadas d; passo_inclinacao d;
     passo_rampa d; passo_faixa u v; passo_superficie d; passo_largura d].

(** The cost the function computes from the attributes of the edge. *)
Definition peso_esperado (d : attrs) (u v : Z) : result float :=
  match py_in "ramp" (dict_get d "highway" (PyStr "")) with
  | Ok _ => py_mul_float (custo_atual d) (fator_penalizacao d u v)
  | Raise e => Raise e
  end.

End EspecificacaoDoPeso.

(** ** The attributes of an edge before and after the transform *)

Definition atualizar_aresta (G : grafo) (e : Z * Z * Z) (d : attrs) : grafo :=
  {| nos := nos G; arestas := <[e := d]> (arestas G) |}.

(** The attributes of an edge once its original cost is recorded: an
    existing record is kept. *)
Definition com_snapshot (d : attrs) : attrs :=
  if bool_decide (is_Some (d !! "length_original")) then d
  else <["length_original" := custo_atual d]> d.

(** The attributes of an edge after [ponderar_grafo] gave it weight [w]. *)
Definition dados_ponderados (d : attrs) (w : float) : attrs :=
  <["length" := PyFloat w]> (com_snapshot d).

(** The attributes of an edge after [restaurar_pesos_originais]. *)
Definition dados_restaurados (d : attrs) : attrs :=
  match d !! "length_original" with
  | Some x => <["length" := x]> d
  | None => d
  end.

(** The threshold compared with the new weight to count penalised edges. *)
Definition limite_penalizada (d : attrs) : result float :=
  py_mul_float (default (custo_atual d) (d !! "length_original")) 1.5.

Section EspecificacaoDaPonderacao.

Variable float_de_str : string -> option float.
Variable perfil : MobilityProfile.
Variable faixas_pedestres : gset Z.

Definition ponderar_dados (e : Z * Z * Z) (d : attrs) : option attrs :=
  match peso_esperado float_de_str perfil faixas_pedestres d e.1.1 e.1.2,
        limite_penalizada d with
  | Ok w, Ok _ => Some (dados_ponderados d w)
  | _, _ => None
  end.

End EspecificacaoDaPonderacao.

Definition no_e_faixa (data : attrs) : bool :=
  opt_in_lista (data !! "crossing") ["yes"; "marked"; "zebra"; "traffic_signals"]
  || py_eq_str (data !! "highway") "crossing".

(** A tag that holds text: a string or a list of strings. *)
Definition etiqueta_textual (x : pyval) : Prop :=
  match x with PyStr _ | PyList _ => True | _ => False end.

(** [G'] has the nodes and the edges of [G], and every edge attribute other
    than ['length'] and ['length_original'] as [G] has it. *)
Definition mesmo_quadro (G G' : grafo) : Prop :=
  nos G' = nos G ∧
  ∀ e, match arestas G !! e, arestas G' !! e with
       | Some d, Some d' =>
           ∀ k, k ≠ "length" → k ≠ "length_original" → d' !! k = d !! k
       | None, None => True
       | _, _ => False
       end.

(** A computation that only ever moves the graph within its frame. *)
Definition preserva_quadro {A} (m : M grafo A) : Prop :=
  ∀ G, mesmo_quadro G (m G).2.

(** ** Example data for the weight transform *)

(** The values of [float] on the texts that the examples below use. *)
Definition float_de_str_exemplo (s : string) : option float :=
  if String.eqb s "8" then Some 8%float
  else if String.eqb s "1.2" then Some 1.2%float
  else None.

Definition perfil_cadeirante : MobilityProfile :=
  {| nome := "cadeirante"; requer_acessibilidade := true;
     prefere_faixas := false; penalizacao_sem_rampa := 10;
     penalizacao_escadas := 1000; penalizacao_inclinacao := 3;
     penalizacao_sem_faixa := 2 |}.

Definition aresta_cascalho : attrs :=
  <["length" := PyFloat 10]> (<["surface" := PyStr "gravel"]> ∅).

Definition grafo_cascalho : grafo :=
  {| nos := <[1%Z := ∅]> (<[2%Z := ∅]> ∅);
     arestas := <[(1, 2, 0)%Z := aresta_cascalho]> ∅ |}.

(** An edge weighted before: it costs 20 and its recorded original is 10. *)
Definition aresta_ja_ponderada : attrs :=
  <["length" := PyFloat 20]> (<["length_original" := PyFloat 10]> ∅).

Definition grafo_ja_ponderado : grafo :=
  {| nos := <[1%Z := ∅]> (<[2%Z := ∅]> ∅);
     arestas := <[(1, 2, 0)%Z := aresta_ja_ponderada]> ∅ |}.

(** ** Route computation and measurements *)

Definition mostrar (w : mundo) (msg : string) : mundo :=
  {| tique := tique w; sorteios := sorteios w; tela := tela w ++ [msg] |}.

Definition aviso_de_erro (e : excecao) : string :=
  "⚠️ Erro ao calcular rota: " +:+ mensagem e.

Section EspecificacaoDaRota.

Variable nearest_nodes : grafo → float → float → result Z.
Variable shortest_path : grafo → Z → Z → result (list Z).
Variable shortest_path_length : grafo → Z → Z → result float.

(** The [try] block of [calcular_rota]. *)
Definition rota_tentada (G : grafo) (origem destino : coord) : result rota :=
  (let? no_origem := nearest_nodes G (snd origem) (fst origem) in
   let? no_destino := nearest_nodes G (snd destino) (fst destino) in
   let? rota_nodes := shortest_path G no_origem no_destino in
   let? distancia := shortest_path_length G no_origem no_destino in
   let? pontos_rota := extrair_geometria_rota G rota_nodes in
   Ok (pontos_rota, distancia))%py.

End EspecificacaoDaRota.

(** A graph with no node, on which no coordinate resolves to a node. *)
Definition grafo_vazio : grafo := {| nos := ∅; arestas := ∅ |}.

Definition nearest_nodes_vazio (G : grafo) (x y : float) : result Z :=
  Raise (erro_valor "Found array with 0 sample(s)").

Definition mundo_inicial : mundo := {| tique := 0; sorteios := 0; tela := [] |}.

Section EspecificacaoDaMedicao.

Variable relogio : nat → float.
Variable calcular_rota_alg :
  grafo → coord → coord → string → M mundo (option rota).
Variable G : grafo.
Variable origem_p destino_p : coord.
Variable alg : string.

(** Some timed invocation among the next [n], started in the world [w], is
    reached and finds no path. *)
Inductive alguma_sem_caminho : nat → mundo → Prop :=
| sem_caminho_agora (n : nat) (w w' : mundo) (t : float) :
    invocacao_cronometrada relogio calcular_rota_alg G origem_p destino_p alg w
    = (Ok (None, t), w') →
    alguma_sem_caminho (S n) w
| sem_caminho_depois (n : nat) (w w' : mundo) (r : rota) (t : float) :
    invocacao_cronometrada relogio calcular_rota_alg G origem_p destino_p alg w
    = (Ok (Some r, t), w') →
    alguma_sem_caminho n w' →
    alguma_sem_caminho (S n) w.

(** The warm-up loop. *)
Definition aquecimento (warmup : nat) : M mundo unit :=
  for_acc (seq 0 warmup) tt
    (λ _ _, bind (calcular_rota_alg G origem_p destino_p alg) (λ _, ret tt)).

End EspecificacaoDaMedicao.

(** A route computation that never finds a path. *)
Definition calcular_rota_sem_caminho (G : grafo) (o d : coord) (alg : string)
    : M mundo (option rota) :=
  ret None.

(** ** The counting searches *)

(** [v] is a successor of [u]. *)
Definition adjacente (G : grafo) (u v : Z) : Prop :=
  ∃ vs, G_neighbors G u = Ok vs ∧ v ∈ vs.

(** [caminho G o v p]: [p] lists the nodes of a walk of [G] from [o] to [v]. *)
Inductive caminho (G : grafo) (o : Z) : Z → list Z → Prop :=
| caminho_origem : caminho G o o [o]
| caminho_passo (u v : Z) (p : list Z) :
    caminho G o u p → adjacente G u v → caminho G o v (p ++ [v]).

(** Every edge joins two nodes of the graph and has a float for cost. *)
Definition grafo_bem_formado (G : grafo) : Prop :=
  ∀ u v key d, arestas G !! (u, v, key) = Some d →
    is_Some (nos G !! u) ∧ is_Some (nos G !! v) ∧
    ∃ x, custo_atual d = PyFloat x.

(** A decision procedure for well-formed graphs. *)
Definition grafo_bem_formado_b (G : grafo) : bool :=
  forallb (λ '((u, v, _), d),
             bool_decide (is_Some (nos G !! u))
             && bool_decide (is_Some (nos G !! v))
             && match custo_atual d with PyFloat _ => true | _ => false end)
          (map_to_list (arestas G)).

(** The nodes of the graph, and the out-degrees still to be spent. *)
Definition lista_nos (G : grafo) : list Z := (map_to_list (nos G)).*1.

Definition graus_pendentes (G : grafo) (vis : gset Z) : nat :=
  sum_list (grau G <$> filter (λ x, x ∉ vis) (lista_nos G)).

Section EspecificacaoDaBusca.

Variable G : grafo.
Variable origem_id destino_id : Z.

Definition medida (st : estado_busca) : nat :=
  length (heap st) + graus_pendentes G (visitados st).

(** [v] is reached through settled nodes: a walk from the origin to [v]
    whose nodes before [v] are pairwise distinct and all in [S]. *)
Definition alcancado (S : gset Z) (v : Z) : Prop :=
  ∃ q, caminho G origem_id v (q ++ [v]) ∧ NoDup q ∧ ∀ x, x ∈ q → x ∈ S.

Definition invariante (st : estado_busca) : Prop :=
  explorados st = visitados st ∧
  (∀ x, x ∈ heap st → alcancado (visitados st) x.2) ∧
  (origem_id ∈ visitados st ∨ ∀ x, x ∈ heap st → x.2 = origem_id).

Definition final_da_busca (st st' : estado_busca) : Prop :=
  explorados st' = visitados st' ∧
  visitados st ⊆ visitados st' ∧
  (heap st ≠ [] → origem_id ∈ visitados st') ∧
  (destino_id ∈ visitados st' →
     ∃ p, caminho G origem_id destino_id p ∧ NoDup p ∧
          ∀ x, x ∈ p → x ∈ visitados st') ∧
  (destino_id ∉ visitados st' → heap st' = []).

Definition nos_conhecidos (st : estado_busca) : Prop :=
  ∀ x, x ∈ heap st → is_Some (nos G !! x.2) ∧ is_Some (dist st !! x.2).

End EspecificacaoDaBusca.

(** What the count [n] returned for the final state [st] of a search from
    [o] to [d] stands for. *)
Definition contagem_correta (G : grafo) (o d : Z) (st : estado_busca) (n : nat)
    : Prop :=
  n = size (visitados st) ∧
  explorados st = visitados st ∧
  o ∈ visitados st ∧
  1 ≤ n ∧
  (d ∈ visitados st →
     ∃ p, caminho G o d p ∧ NoDup p ∧ (∀ x, x ∈ p → x ∈ visitados st)
          ∧ length p ≤ n) ∧
  (d ∉ visitados st → heap st = []).

Definition resultado_da_contagem (G : grafo) (o d : Z)
    (r : result estado_busca) (n : nat) : Prop :=
  match r with
  | Ok st => contagem_correta G o d st n
  | Raise _ => n = 0
  end.

(** The line A-B-C-D of the specification, each edge 10 m long, the nodes
    numbered 1 to 4. *)
Definition aresta_10m : attrs := {["length" := PyFloat 10]}.

Definition grafo_linha : grafo :=
  {| nos := list_to_map [(1, ∅); (2, ∅); (3, ∅); (4, ∅)]%Z;
     arestas := list_to_map
       [((1, 2, 0), aresta_10m); ((2, 1, 0), aresta_10m);
        ((2, 3, 0), aresta_10m); ((3, 2, 0), aresta_10m);
        ((3, 4, 0), aresta_10m); ((4, 3, 0), aresta_10m)]%Z |}.

(** A heuristic that estimates 0 for every node. *)
Definition heuristica_nula : heuristica := λ _ _ _, Ok 0%float.

(** ** Edges that can be weighted, graphs never weighted *)

(** An edge that [ponderar_grafo] can weight: its highway type, if any, is
    text, and its cost and its recorded original, if any, are floats. *)
Definition aresta_ponderavel (d : attrs) : Prop :=
  etiqueta_textual (dict_get d "highway" (PyStr "")) ∧
  (∃ x, custo_atual d = PyFloat x) ∧
  (∀ y, d !! "length_original" = Some y → ∃ x, y = PyFloat x).

(** A graph that was never weighted: no edge carries ['length_original']. *)
Definition nunca_ponderado (G : grafo) : Prop :=
  ∀ e d, arestas G !! e = Some d → d !! "length_original" = None.

Definition nunca_ponderado_b (G : grafo) : bool :=
  forallb (λ '(_, d), negb (bool_decide (is_Some (d !! "length_original"))))
          (map_to_list (arestas G)).

(** The tags that the cost computation reads besides the cost itself. *)
Definition etiquetas_lidas : list string :=
  ["wheelchair"; "highway"; "incline"; "ramp"; "surface"; "width"].

Definition no_com_faixa : attrs := {["crossing" := PyStr "zebra"]}.

Definition grafo_com_faixa : grafo :=
  {| nos := list_to_map [(1, no_com_faixa); (2, ∅)]%Z;
     arestas := list_to_map [((1, 2, 0)%Z, aresta_10m)] |}.

Definition aresta_inclinacao_ilegivel : attrs :=
  list_to_map [("length", PyFloat 10); ("incline", PyStr "up")].

Definition grafo_inclinacao_ilegivel : grafo :=
  {| nos := list_to_map [(1, ∅); (2, ∅)]%Z;
     arestas := list_to_map [((1, 2, 0)%Z, aresta_inclinacao_ilegivel)] |}.

(** ** Drawing a route *)

(** The points that one pair of consecutive route nodes contributes. *)
Definition pontos_do_trecho (G : grafo) (u v : Z)
    : result (list (pyval * pyval)) :=
  match G_get_edge_data G u v with
  | [] => Ok []
  | (_, attrs) :: _ =>
      if truthy (attrs !! "geometry") then
        rbind (py_coords (default (PyStr "") (attrs !! "geometry")))
              (λ cs, Ok (map (λ '(lng, lat), (PyFloat lat, PyFloat lng)) cs))
      else
        rbind (G_node_attr G u "y") (λ yu,
        rbind (G_node_attr G u "x") (λ xu,
        rbind (G_node_attr G v "y") (λ yv,
        rbind (G_node_attr G v "x") (λ xv,
        Ok [(yu, xu); (yv, xv)]))))
  end.

(** The node has a position. *)
Definition no_posicionado (G : grafo) (n : Z) : Prop :=
  ∃ dn, nos G !! n = Some dn ∧ is_Some (dn !! "x") ∧ is_Some (dn !! "y").

(** A graph as OSMnx builds it, as far as drawing a route goes: every edge
    joins two positioned nodes, and a geometry, where an edge has one, is a
    line. *)
Definition grafo_desenhavel (G : grafo) : Prop :=
  ∀ u v key d, arestas G !! (u, v, key) = Some d →
    no_posicionado G u ∧ no_posicionado G v ∧
    ∀ g, d !! "geometry" = Some g → ∃ c, g = PyGeom c.

Definition grafo_desenhavel_b (G : grafo) : bool :=
  let posicionado n :=
    match nos G !! n with
    | Some dn => bool_decide (is_Some (dn !! "x"))
                 && bool_decide (is_Some (dn !! "y"))
    | None => false
    end in
  forallb (λ '((u, v, _), d),
             posicionado u && posicionado v &&
             match d !! "geometry" with
             | Some (PyGeom _) | None => true
             | _ => false
             end)
          (map_to_list (arestas G)).

(** No edge of the graph carries a geometry. *)
Definition sem_geometria (G : grafo) : Prop :=
  ∀ e d, arestas G !! e = Some d → d !! "geometry" = None.

(** [(G.nodes[n]["y"], G.nodes[n]["x"])] where both are present. *)
Definition posicao (G : grafo) (n : Z) : option (pyval * pyval) :=
  match nos G !! n with
  | Some dn => match dn !! "y", dn !! "x" with
               | Some y, Some x => Some (y, x)
               | _, _ => None
               end
  | None => None
  end.

(** The pairs of consecutive route nodes that an edge joins. *)
Definition trechos_ligados (G : grafo) (rota_nodes : list Z) : list (Z * Z) :=
  filter (λ '(u, v), G_get_edge_data G u v ≠ []) (pares_consecutivos rota_nodes).

(** Three positioned nodes in a row, 1 to 2 by a straight edge and 2 to 3
    by an edge drawn through an intermediate point; no edge back. *)
Definition no_em (lat lon : float) : attrs :=
  list_to_map [("y", PyFloat lat); ("x", PyFloat lon)].

Definition grafo_tres_nos : grafo :=
  {| nos := list_to_map [(1, no_em 0 0); (2, no_em 0 1); (3, no_em 1 1)]%Z;
     arestas := list_to_map
       [((1, 2, 0)%Z, aresta_10m);
        ((2, 3, 0)%Z,
          list_to_map
            [("length", PyFloat 10);
             ("geometry", PyGeom [(1, 0); (1.5, 0.5); (1, 1)]%float)])] |}.

Definition mensagem_spinner : string := "🔍 Calculando melhor rota...".
Definition mensagem_sem_rota : string :=
  "❌ Não existe rota caminhável entre esses pontos.".
Definition mensagem_dica : string :=
  "💡 Tente selecionar pontos mais próximos ou em áreas diferentes do campus.".

(** The messages on the screen of [w], followed by [msgs]. *)
Definition mostrar_todas (w : mundo) (msgs : list string) : mundo :=
  {| tique := tique w; sorteios := sorteios w; tela := tela w ++ msgs |}.

(** ** Reading a GPX document *)

(** [c] occurs in [s]. *)
Fixpoint contem (c : ascii) (s : string) : bool :=
  match s with
  | EmptyString => false
  | String x s' => Ascii.eqb x c || contem c s'
  end.

(** [s.split('\n')] *)
Fixpoint linhas (s : string) : list string :=
  match s with
  | EmptyString => [EmptyString]
  | String c s' =>
      if Ascii.eqb c "010" then EmptyString :: linhas s'
      else match linhas s' with
           | l :: ls => String c l :: ls
           | [] => [String c EmptyString]
           end
  end.

(** [s] without its prefix [p], if it starts with [p]. *)
Fixpoint tirar_prefixo (p s : string) : option string :=
  match p with
  | EmptyString => Some s
  | String a p' =>
      match s with
      | String b s' => if Ascii.eqb a b then tirar_prefixo p' s' else None
      | EmptyString => None
      end
  end.

(** The text of [s] before its first [c], and the text after it. *)
Fixpoint ler_ate (c : ascii) (s : string) : option (string * string) :=
  match s with
  | EmptyString => None
  | String x s' =>
      if Ascii.eqb x c then Some (EmptyString, s')
      else match ler_ate c s' with
           | Some (a, r) => Some (String x a, r)
           | None => None
           end
  end.

(** The latitude and the longitude, as written, of a line that holds a
    track point. *)
Definition ler_ponto (linha : string) : option (string * string) :=
  match tirar_prefixo ("      <trkpt lat=" +:+ aspas) linha with
  | Some r =>
      match ler_ate "034" r with
      | Some (lat, r) =>
          match tirar_prefixo (" lon=" +:+ aspas) r with
          | Some r =>
              match ler_ate "034" r with
              | Some (lon, _) => Some (lat, lon)
              | None => None
              end
          | None => None
          end
      | None => None
      end
  | None => None
  end.

(** The track points that a reader of the document finds, line by line. *)
Definition pontos_do_gpx (documento : string) : list (string * string) :=
  omap ler_ponto (linhas documento).

(** Lines written one after the other, each ended by a line feed. *)
Definition juntar_linhas (ls : list string) : string :=
  foldr (λ l resto, l +:+ nl +:+ resto) "" ls.

(** The six lines of the header. *)
Definition linhas_do_cabecalho : list string :=
  ["<?xml version=" +:+ aspas +:+ "1.0" +:+ aspas
     +:+ " encoding=" +:+ aspas +:+ "UTF-8" +:+ aspas +:+ "?>";
   "<gpx version=" +:+ aspas +:+ "1.1" +:+ aspas
     +:+ " creator=" +:+ aspas +:+ "Unifor Route Planner" +:+ aspas;
   "  xmlns=" +:+ aspas +:+ "http://www.topografix.com/GPX/1/1" +:+ aspas;
   "  xmlns:xsi=" +:+ aspas +:+ "http://www.w3.org/2001/XMLSchema-instance"
     +:+ aspas;
   "  xsi:schemaLocation=" +:+ aspas +:+ "http://www.topografix.com/GPX/1/1 ";
   "  http://www.topografix.com/GPX/1/1/gpx.xsd" +:+ aspas +:+ ">"].

(** The line written for one point, without its line feed. *)
Definition linha_do_ponto (py_format : pyval → string) (p : pyval * pyval)
    : string :=
  "      <trkpt lat=" +:+ aspas +:+ py_format p.1 +:+ aspas
    +:+ " lon=" +:+ aspas +:+ py_format p.2 +:+ aspas +:+ "></trkpt>".

(** A formatter for the example: it writes 1.5 and 2.5 as Python does. *)
Definition py_format_exemplo (x : pyval) : string :=
  match x with
  | PyFloat f => if (f =? 1.5)%float then "1.5"
                 else if (f =? 2.5)%float then "2.5" else "0.0"
  | _ => "0.0"
  end.

(** ** What a search reaches *)

(** [v] can be reached from [o] along edges of the graph. *)
Definition alcancavel (G : grafo) (o v : Z) : Prop := ∃ p, caminho G o v p.

(** What holds of the state of a search each time the loop condition is
    evaluated: queued and settled nodes can be reached from the origin;
    the settled ones are nodes of the graph; every successor of a settled
    node, and every node with a tentative distance, is settled or queued. *)
Definition invariante_de_alcance (G : grafo) (o : Z) (st : estado_busca) : Prop :=
  (∀ x, x ∈ heap st → alcancavel G o x.2) ∧
  (∀ u, u ∈ visitados st → alcancavel G o u ∧ is_Some (nos G !! u)) ∧
  (∀ u v, u ∈ visitados st → adjacente G u v →
     v ∈ visitados st ∨ ∃ f, (f, v) ∈ heap st) ∧
  (∀ v, is_Some (dist st !! v) → v ∈ visitados st ∨ ∃ f, (f, v) ∈ heap st).

(** What the final state [st] of a search from [o] to [d] has explored. *)
Definition explorou_o_alcancavel (G : grafo) (o d : Z) (st : estado_busca)
    : Prop :=
  (∀ u, u ∈ explorados st → alcancavel G o u) ∧
  (d ∈ explorados st ↔ alcancavel G o d) ∧
  (¬ alcancavel G o d → ∀ u, u ∈ explorados st ↔ alcancavel G o u).

(** Nodes 1 and 2 joined both ways, and a node 3 that no edge reaches. *)
Definition grafo_com_ilha : grafo :=
  {| nos := list_to_map [(1, ∅); (2, ∅); (3, ∅)]%Z;
     arestas := list_to_map
       [((1, 2, 0), aresta_10m); ((2, 1, 0), aresta_10m)]%Z |}.

(** Every edge joins two nodes of the graph. *)
Definition arestas_entre_nos (G : grafo) : Prop :=
  ∀ u v key d, arestas G !! (u, v, key) = Some d →
    is_Some (nos G !! u) ∧ is_Some (nos G !! v).

Definition arestas_entre_nos_b (G : grafo) : bool :=
  forallb (λ '((u, v, _), _),
             bool_decide (is_Some (nos G !! u))
             && bool_decide (is_Some (nos G !! v)))
          (map_to_list (arestas G)).

(** ** The records of a benchmark run *)

(** A record of [executar] as the loop builds it from its two
    measurements. *)
Definition registro_coerente (pois : gmap string coord)
    (r : ResultadoComparacao) : Prop :=
  sucesso (dijkstra r) = true ∧ sucesso (astar r) = true ∧
  algoritmo (dijkstra r) = "dijkstra" ∧ algoritmo (astar r) = "astar" ∧
  is_Some (pois !! origem r) ∧ is_Some (pois !! destino r) ∧
  categoria_distancia r = categorizar_distancia (distancia_euclidiana r) ∧
  speedup_medio r
    = (if (0 <? tempo_medio_ms (astar r))%float
       then (tempo_medio_ms (dijkstra r) / tempo_medio_ms (astar r))%float
       else 0%float) ∧
  speedup_mediano r
    = (if (0 <? tempo_mediano_ms (astar r))%float
       then (tempo_mediano_ms (dijkstra r) / tempo_mediano_ms (astar r))%float
       else 0%float) ∧
  economia_nos_pct r
    = (if (0 <? nos_explorados (dijkstra r))%nat
       then (100 * (1 - float_de_int (Z.of_nat (nos_explorados (astar r)))
                        / float_de_int (Z.of_nat (nos_explorados (dijkstra r)))))%float
       else 0%float).

(** The record is that of a pair of points of interest that passed the
    connectivity check, with the distance between them. *)
Definition registro_de_par_conexo
    (nearest_nodes : grafo → float → float → result Z)
    (has_path : grafo → Z → Z → result bool)
    (math_cos : float → float) (math_pow : float → float → float)
    (G : grafo) (pois : gmap string coord) (r : ResultadoComparacao) : Prop :=
  ∃ o d, pois !! origem r = Some o ∧ pois !! destino r = Some d ∧
         verificar_conectividade nearest_nodes has_path G o d = true ∧
         distancia_euclidiana r
         = calcular_distancia_euclidiana math_cos math_pow o d.

(** The state of the loop of [executar] when a call starts on a benchmark
    that holds the results [anteriores]. *)
Definition estado_de_partida (anteriores : list ResultadoComparacao)
    : estado_benchmark :=
  {| resultados := anteriores; pares_testados := 0; pares_invalidos := 0 |}.

(** A route computation that always finds the same two-point route. *)
Definition calcular_rota_fixa (G : grafo) (o d : coord) (alg : string)
    : M mundo (option rota) :=
  ret (Some ([(PyFloat 0, PyFloat 0); (PyFloat 1, PyFloat 1)], 10%float)).

Definition dois_pois : gmap string coord :=
  list_to_map [("a", (0, 0)%float); ("b", (1, 1)%float)].

(** Two timed runs of Dijkstra on the line graph, with a clock that stands
    still and a route computation that always succeeds. *)
Definition medicao_exemplo : result MedicaoAlgoritmo * mundo :=
  medir_algoritmo_completo (λ _, 0%float) (λ _ _ _, Ok 1%Z)
    calcular_rota_fixa (Raise (erro_chave "h"))
    (λ _, Ok 0%float) (λ _, Ok 0%float) (λ _, Ok 0%float)
    grafo_linha (0, 0)%float (1, 1)%float "dijkstra" 2 3 mundo_inicial.

(** One accepted pair, under the same conditions and a heuristic that is
    zero everywhere. *)
Definition execucao_exemplo : result (option estado_benchmark) * mundo :=
  executar (λ _, 0%float) (λ _ _ _, Ok 1%Z) (λ _ _ _, Ok true)
    calcular_rota_fixa (Ok (λ _ _ _, Ok 0%float))
    (λ _, Ok 0%float) (λ _, Ok 0%float) (λ _, Ok 0%float)
    (λ _ _, Ok ("a", "b")) (λ x, x) (λ x _, x)
    5 grafo_linha dois_pois 1 2 (estado_de_partida []) mundo_inicial.

(** * Properties *)

(** ** Order facts on binary64 numbers *)

Lemma Pos_compare_cont_Eq_antisym (p q : positive) :
  PosDef.Pos.compare_cont Eq q p = CompOpp (PosDef.Pos.compare_cont Eq p q).
Proof.
  change PosDef.Pos.compare_cont with Pos.compare_cont.
  rewrite (Pos.compare_cont_antisym p q Eq). reflexivity.
Qed.

Lemma SFcompare_antisym (x y : spec_float) (c : comparison) :
  SFcompare x y = Some c → SFcompare y x = Some (CompOpp c).
Proof.
  destruct x as [sx|sx| |sx mx ex], y as [sy|sy| |sy my ey]; simpl;
    intros H; try discriminate; injection H as <-;
    try (destruct sx); try (destruct sy); try reflexivity.
  all: rewrite (Z.compare_antisym ex ey);
    destruct (ex ?= ey)%Z; simpl; try reflexivity;
    rewrite (Pos_compare_cont_Eq_antisym mx my); reflexivity.
Qed.

Lemma leb_nao_nan_l (x y : float) : (x <=? y)%float = true → nao_nan x.
Proof.
  unfold nao_nan. rewrite !FloatAxioms.leb_spec. unfold SFleb.
  destruct (Prim2SF x) as [sx|sx| |sx mx ex], (Prim2SF y) as [sy|sy| |sy my ey];
    simpl; try discriminate; try reflexivity; try (destruct sx; reflexivity).
  all: intros _; rewrite Z.compare_refl;
    change PosDef.Pos.compare_cont with Pos.compare_cont;
    rewrite Pos.compare_cont_refl; destruct sx; reflexivity.
Qed.

Lemma leb_nao_nan_r (x y : float) : (x <=? y)%float = true → nao_nan y.
Proof.
  unfold nao_nan. rewrite !FloatAxioms.leb_spec. unfold SFleb.
  destruct (Prim2SF x) as [sx|sx| |sx mx ex], (Prim2SF y) as [sy|sy| |sy my ey];
    simpl; try discriminate; try reflexivity; try (destruct sy; reflexivity).
  all: intros _; rewrite Z.compare_refl;
    change PosDef.Pos.compare_cont with Pos.compare_cont;
    rewrite Pos.compare_cont_refl; destruct sy; reflexivity.
Qed.

Lemma SFcompare_total (x y : spec_float) :
  is_Some (SFcompare x x) → is_Some (SFcompare y y) → is_Some (SFcompare x y).
Proof.
  destruct x as [sx|sx| |sx mx ex], y as [sy|sy| |sy my ey]; simpl;
    intros [? H1] [? H2]; try discriminate; eauto.
Qed.

(** Among numbers, [not (x < y)] is [y <= x]. *)
Lemma ltb_false_leb (x y : float) :
  nao_nan x → nao_nan y → (x <? y)%float = false → (y <=? x)%float = true.
Proof.
  unfold nao_nan. rewrite FloatAxioms.ltb_spec, !FloatAxioms.leb_spec.
  unfold SFltb, SFleb. intros Hx Hy.
  destruct (SFcompare_total (Prim2SF x) (Prim2SF y)) as [c Hc].
  { destruct (SFcompare (Prim2SF x) (Prim2SF x)); [eauto|discriminate]. }
  { destruct (SFcompare (Prim2SF y) (Prim2SF y)); [eauto|discriminate]. }
  rewrite Hc, (SFcompare_antisym _ _ _ Hc). destruct c; simpl; done.
Qed.

(** [y <= x] excludes [x < y]. *)
Lemma leb_ltb_false (x y : float) :
  (y <=? x)%float = true → (x <? y)%float = false.
Proof.
  rewrite FloatAxioms.ltb_spec, FloatAxioms.leb_spec. unfold SFltb, SFleb.
  destruct (SFcompare (Prim2SF y) (Prim2SF x)) as [c|] eqn:Hc; [|done].
  rewrite (SFcompare_antisym _ _ _ Hc). destruct c; simpl; done.
Qed.

Lemma ltb_200_500 (d : float) : (d <? 200)%float = true → (d <? 500)%float = true.
Proof.
  rewrite !FloatAxioms.ltb_spec. unfold SFltb.
  replace (Prim2SF 200) with (S754_finite false 7036874417766400 (-45))
    by (vm_compute; reflexivity).
  replace (Prim2SF 500) with (S754_finite false 8796093022208000 (-44))
    by (vm_compute; reflexivity).
  destruct (Prim2SF d) as [s|s| |s m e]; cbn [SFcompare].
  1-3: try destruct s; intros; congruence.
  destruct s; [intros; reflexivity|].
  destruct (Z.compare_spec e (-45)) as [->| |]; try discriminate.
  - intros _. reflexivity.
  - intros _. destruct (Z.compare_spec e (-44)); try reflexivity; lia.
Qed.

(** *** Distance categories

    Claim C9: for every non-negative distance [d], [categorizar_distancia]
    answers "curta" exactly when [d < 200], "média" exactly when
    [200 <= d < 500] and "longa" exactly when [500 <= d]; 200.0 is "média"
    and 500.0 is "longa". *)
Theorem categorizar_distancia_limites (d : float) :
  (0 <=? d)%float = true →
  (categorizar_distancia d = "curta" ↔ (d <? 200)%float = true) ∧
  (categorizar_distancia d = "média"
     ↔ (200 <=? d)%float = true ∧ (d <? 500)%float = true) ∧
  (categorizar_distancia d = "longa" ↔ (500 <=? d)%float = true) ∧
  categorizar_distancia 200 = "média" ∧
  categorizar_distancia 500 = "longa".
Proof.
  intros Hd. pose proof (leb_nao_nan_r _ _ Hd) as Hn.
  assert (H200 : nao_nan 200) by (vm_compute; reflexivity).
  assert (H500 : nao_nan 500) by (vm_compute; reflexivity).
  unfold categorizar_distancia.
  destruct (d <? 200)%float eqn:E2.
  - pose proof (ltb_200_500 _ E2) as E5.
    repeat split; try done.
    + intros [H _]. apply leb_ltb_false in H. congruence.
    + intros H. apply leb_ltb_false in H. congruence.
  - pose proof (ltb_false_leb _ _ Hn H200 E2) as L2.
    destruct (d <? 500)%float eqn:E5.
    + repeat split; try done.
      intros H. apply leb_ltb_false in H. congruence.
    + pose proof (ltb_false_leb _ _ Hn H500 E5) as L5.
      repeat split; try done. intros [_ H]. done.
Qed.

Lemma categorizar_distancia_limites_witness :
  (0 <=? 250)%float = true ∧
  (categorizar_distancia 250 = "média"
     ↔ (200 <=? 250)%float = true ∧ (250 <? 500)%float = true).
Proof.
  split; [reflexivity|].
  apply (categorizar_distancia_limites 250). reflexivity.
Defined.

(** *** Percentiles *)

Lemma length_insere_ordenado (x : float) (l : list float) :
  length (insere_ordenado x l) = S (length l).
Proof.
  induction l as [|y l IH]; simpl; [done|].
  destruct (x <? y)%float; simpl; congruence.
Qed.

Lemma length_sorted (l : list float) : length (sorted l) = length l.
Proof.
  unfold sorted.
  enough (H : ∀ acc, length (foldl (λ a x, insere_ordenado x a) acc l)
                     = (length acc + length l)%nat) by apply (H []).
  induction l as [|x l IH]; intros acc; simpl; [lia|].
  rewrite IH, length_insere_ordenado. lia.
Qed.

Lemma ltb_irrefl (x : float) : (x <? x)%float = false.
Proof.
  destruct (x <? x)%float eqn:E; [|done].
  assert (H : (x <=? x)%float = true).
  { revert E. rewrite FloatAxioms.ltb_spec, FloatAxioms.leb_spec.
    unfold SFltb, SFleb. destruct (SFcompare _ _) as [[]|]; done. }
  apply leb_ltb_false in H. congruence.
Qed.

Lemma insere_ordenado_repeat (v : float) (n : nat) :
  insere_ordenado v (repeat v n) = repeat v (S n).
Proof.
  induction n as [|n IH]; simpl; [done|].
  rewrite ltb_irrefl. f_equal. exact IH.
Qed.

Lemma sorted_repeat (v : float) (n : nat) : sorted (repeat v n) = repeat v n.
Proof.
  unfold sorted.
  enough (H : ∀ k, foldl (λ a x, insere_ordenado x a) (repeat v k) (repeat v n)
                   = repeat v (k + n)) by apply (H 0%nat).
  induction n as [|n IH]; intros k; simpl.
  - f_equal. lia.
  - rewrite insere_ordenado_repeat, IH. f_equal. lia.
Qed.

Lemma quantiles_lookup (data : list float) (n i : nat) :
  (1 ≤ n)%nat → (2 ≤ length data)%nat → (i < n - 1)%nat →
  (let? q := quantiles data n in py_index q i)%py
  = Ok (ponto_de_corte (sorted data) (Z.of_nat n) (Z.of_nat (S i))).
Proof.
  intros Hn Hl Hi. unfold quantiles.
  destruct (n <? 1)%nat eqn:E1; [apply Nat.ltb_lt in E1; lia|].
  rewrite length_sorted.
  destruct (length data <? 2)%nat eqn:E2; [apply Nat.ltb_lt in E2; lia|].
  simpl. unfold py_index.
  rewrite list_lookup_fmap, lookup_seq_lt by done. reflexivity.
Qed.

Lemma py_max_foldl_elem (x : float) (l : list float) :
  foldl (λ m y, if (m <? y)%float then y else m) x l ∈ x :: l.
Proof.
  revert x. induction l as [|y l IH]; intros x; simpl; [set_solver|].
  destruct (x <? y)%float.
  - rewrite elem_of_cons. right. apply IH.
  - pose proof (IH x) as Hx. rewrite !elem_of_cons in *. tauto.
Qed.

Lemma py_max_observado (l : list float) :
  l ≠ [] → ∃ m, py_max l = Ok m ∧ m ∈ l.
Proof.
  destruct l as [|x l]; [done|]. intros _. eexists. split; [reflexivity|].
  apply py_max_foldl_elem.
Qed.

(** Claim C8, as amended: for every non-empty timing sample, the 95th
    (99th) percentile is the greatest observed value when the sample has
    fewer than 20 (100) elements, and otherwise cut point 19 of 20 (99 of
    100) of [statistics.quantiles], which interpolates linearly between two
    neighbouring values of the sorted sample; for 20 copies of [v] it is
    [(v * 1 + v * 19) / 20] in binary64 arithmetic. *)
Theorem percentis_interpolados (tempos : list float) :
  tempos ≠ [] →
  (∃ m, py_max tempos = Ok m ∧ m ∈ tempos) ∧
  ((length tempos < 20)%nat → percentil_95 tempos = py_max tempos) ∧
  ((20 ≤ length tempos)%nat →
     percentil_95 tempos = Ok (ponto_de_corte (sorted tempos) 20 19)) ∧
  ((length tempos < 100)%nat → percentil_99 tempos = py_max tempos) ∧
  ((100 ≤ length tempos)%nat →
     percentil_99 tempos = Ok (ponto_de_corte (sorted tempos) 100 99)) ∧
  (∀ v, tempos = repeat v 20 →
     percentil_95 tempos = Ok ((v * 1 + v * 19) / 20)%float).
Proof.
  intros Hne. split; [by apply py_max_observado|].
  assert (H95 : (20 ≤ length tempos)%nat →
     percentil_95 tempos = Ok (ponto_de_corte (sorted tempos) 20 19)).
  { intros H. unfold percentil_95.
    destruct (20 <=? length tempos)%nat eqn:E; [|apply Nat.leb_gt in E; lia].
    apply (quantiles_lookup tempos 20 18); lia. }
  repeat split.
  - intros H. unfold percentil_95.
    destruct (20 <=? length tempos)%nat eqn:E; [apply Nat.leb_le in E; lia|done].
  - exact H95.
  - intros H. unfold percentil_99.
    destruct (100 <=? length tempos)%nat eqn:E; [apply Nat.leb_le in E; lia|done].
  - intros H. unfold percentil_99.
    destruct (100 <=? length tempos)%nat eqn:E; [|apply Nat.leb_gt in E; lia].
    apply (quantiles_lookup tempos 100 98); lia.
  - intros v ->. rewrite H95 by (rewrite repeat_length; lia).
    rewrite sorted_repeat. reflexivity.
Qed.

Lemma percentis_interpolados_witness :
  [3; 1; 2]%float ≠ [] ∧
  percentil_95 [3; 1; 2]%float = py_max [3; 1; 2]%float.
Proof.
  split; [discriminate|].
  refine (proj1 (proj2 (percentis_interpolados [3; 1; 2]%float _)) _);
    [discriminate | simpl; lia].
Defined.

(** Claim C8 as stated fails: twenty equal timings whose 95th percentile
    is another number, and a sample whose 95th percentile is none of its
    values, as a nearest-rank percentile would be. *)
Lemma percentil_95_nao_e_posto_mais_proximo :
  percentil_95 (repeat 0x1.f46c6424716c7p+0%float 20)
    = Ok 0x1.f46c6424716c6p+0%float ∧
  0x1.f46c6424716c6p+0%float ≠ 0x1.f46c6424716c7p+0%float ∧
  percentil_95 amostra_1_a_20 = Ok 19.95%float ∧
  19.95%float ∉ amostra_1_a_20.
Proof.
  split; [vm_compute; reflexivity|].
  split; [intros H; discriminate H|].
  split; [vm_compute; reflexivity|].
  unfold amostra_1_a_20. rewrite !elem_of_cons, elem_of_nil.
  intros H. repeat (destruct H as [H|H]; [discriminate H|]). exact H.
Qed.

(** ** The weight transform *)

(** *** The cost of one edge, step by step *)

Section PesoEspecificado.

Variable float_de_str : string -> option float.
Variable perfil : MobilityProfile.
Variable faixas_pedestres : gset Z.

Lemma valor_numerico_classe (unidade : ascii) (x : pyval) (e : excecao) :
  valor_numerico float_de_str unidade x = Raise e →
  existsb (classe_eqb (classe e)) [ValueError; TypeError] = true.
Proof.
  destruct x as [s|f|l|c]; simpl.
  - destruct (float_de_str _); intros H; [discriminate|].
    injection H as <-. reflexivity.
  - discriminate.
  - intros H. injection H as <-. reflexivity.
  - intros H. injection H as <-. reflexivity.
Qed.

(** The [try] around the incline never lets an exception out. *)
Lemma passo_inclinacao_correto (d : attrs) (fator : float) :
  (if truthy (d !! "incline") then
     rtry (let? incline_valor :=
             (let? x := valor_numerico float_de_str "%"
                          (default (PyStr "") (d !! "incline")) in
              Ok (abs x)) in
           Ok (if (5.0 <? incline_valor)%float
               then (fator * penalizacao_inclinacao perfil)%float
               else fator))
          [ValueError; TypeError] (Ok fator)
   else Ok fator)%py
  = Ok (aplicar fator (passo_inclinacao float_de_str perfil d)).
Proof.
  unfold passo_inclinacao, numero_da_etiqueta.
  destruct (truthy (d !! "incline")); [|reflexivity].
  destruct (valor_numerico _ _ _) as [x|e] eqn:E; unfold rbind, rtry.
  - destruct (5.0 <? abs x)%float; reflexivity.
  - rewrite (valor_numerico_classe _ _ _ E). reflexivity.
Qed.

Lemma passo_largura_correto (d : attrs) (fator : float) :
  (if truthy (d !! "width") && requer_acessibilidade perfil then
     rtry (let? width_valor :=
             valor_numerico float_de_str "m" (default (PyStr "") (d !! "width")) in
           Ok (if (width_valor <? 1.5)%float
               then (fator * 1.5)%float else fator))
          [ValueError; TypeError] (Ok fator)
   else Ok fator)%py
  = Ok (aplicar fator (passo_largura float_de_str perfil d)).
Proof.
  unfold passo_largura, numero_da_etiqueta.
  destruct (requer_acessibilidade perfil); rewrite ?andb_false_r; [|reflexivity].
  rewrite andb_true_r.
  destruct (truthy (d !! "width")); [|reflexivity].
  destruct (valor_numerico _ _ _) as [x|e] eqn:E; unfold rbind, rtry.
  - destruct (x <? 1.5)%float; reflexivity.
  - rewrite (valor_numerico_classe _ _ _ E). reflexivity.
Qed.

(** [calcular_peso_aresta] reads the edge and leaves the graph as it is. *)
Lemma calcular_peso_aresta_eq (G : grafo) (u v key : Z) :
  calcular_peso_aresta float_de_str u v key perfil faixas_pedestres G
  = (match arestas G !! (u, v, key) with
     | Some d => peso_esperado float_de_str perfil faixas_pedestres d u v
     | None => Raise (erro_chave "edge")
     end, G).
Proof.
  unfold calcular_peso_aresta, bind, G_getitem.
  destruct (arestas G !! (u, v, key)) as [d|]; [|reflexivity].
  rewrite passo_inclinacao_correto. unfold lift at 1. cbv beta iota.
  remember (peso_esperado float_de_str perfil faixas_pedestres d u v)
    as esperado eqn:Hesp.
  unfold lift at 1.
  destruct (py_in "ramp" (dict_get d "highway" (PyStr ""))) as [b|e] eqn:Eb.
  2: { subst esperado. unfold peso_esperado. rewrite Eb. reflexivity. }
  change (rbind (Ok b) ?k) with (k b). cbv beta iota.
  rewrite passo_largura_correto. unfold lift, ret. cbv beta iota.
  match goal with
  | |- context [py_mul_float _ ?X] =>
      assert (HX : X = fator_penalizacao float_de_str perfil faixas_pedestres d u v)
  end.
  { unfold fator_penalizacao, passo_cadeira_de_rodas, passo_escadas,
      passo_rampa, passo_faixa, passo_superficie, sem_faixa_nos_extremos,
      marcada_como_rampa.
    rewrite Eb. cbn [foldl].
    generalize (passo_inclinacao float_de_str perfil d)
               (passo_largura float_de_str perfil d).
    generalize (py_eq_str (d !! "wheelchair") "no")
               (py_eq_str (d !! "wheelchair") "limited")
               (pyval_eq_str (dict_get d "highway" (PyStr "")) "steps")
               (py_eq_str (d !! "ramp") "yes")
               (bool_decide (u ∈ faixas_pedestres))
               (bool_decide (v ∈ faixas_pedestres))
               (py_in_lista (dict_get d "surface" (PyStr ""))
                  ["unpaved"; "gravel"; "dirt"; "grass"; "sand"])
               (py_in_lista (dict_get d "surface" (PyStr ""))
                  ["paved"; "asphalt"; "concrete"])
               (requer_acessibilidade perfil) (prefere_faixas perfil).
    intros c1 c2 c3 c4 c5 c6 c7 c8 c9 c10 m3 m7.
    destruct c9, c10, c1, c2, c3, b, c4, c5, c6, c7, c8; reflexivity. }
  rewrite HX. subst esperado. unfold peso_esperado, custo_atual. rewrite Eb.
  destruct (py_mul_float _ _); reflexivity.
Qed.

End PesoEspecificado.

(** *** The loops over the edges *)

Lemma elem_of_G_edges_keys (G : grafo) (e : Z * Z * Z) :
  e ∈ G_edges_keys G ↔ is_Some (arestas G !! e).
Proof.
  unfold G_edges_keys. rewrite list_elem_of_fmap. split.
  - intros [[e' d] [-> H]]. apply elem_of_map_to_list in H. eauto.
  - intros [d H]. exists (e, d). split; [done|]. by apply elem_of_map_to_list.
Qed.

Lemma NoDup_G_edges_keys (G : grafo) : NoDup (G_edges_keys G).
Proof. apply NoDup_fst_map_to_list. Qed.

Section LacoArestas.

(** A loop body that, on an edge with attributes [d], either replaces them
    by [g e d] or raises. *)
Context {B : Type} (passo : B → Z * Z * Z → M grafo B).
Context (g : Z * Z * Z → attrs → option attrs).

Hypothesis passo_ok : ∀ acc e G d d',
  arestas G !! e = Some d → g e d = Some d' →
  ∃ acc', passo acc e G = (Ok acc', atualizar_aresta G e d').
Hypothesis passo_falha : ∀ acc e G d,
  arestas G !! e = Some d → g e d = None →
  ∃ ex G', passo acc e G = (Raise ex, G').
Hypothesis passo_ausente : ∀ acc e G,
  arestas G !! e = None → ∃ ex G', passo acc e G = (Raise ex, G').

Lemma for_acc_arestas_ok (l : list (Z * Z * Z)) (acc acc' : B) (G G' : grafo) :
  NoDup l → for_acc l acc passo G = (Ok acc', G') →
  nos G' = nos G ∧
  (∀ e, e ∈ l → ∃ d d', arestas G !! e = Some d ∧ g e d = Some d'
                        ∧ arestas G' !! e = Some d') ∧
  (∀ e, e ∉ l → arestas G' !! e = arestas G !! e).
Proof.
  intros Hnd. revert acc G.
  induction Hnd as [|e l Hel Hnd IH]; intros acc G; simpl.
  - unfold ret. intros [= <- <-]. split; [done|]. split; [|done].
    intros e He. by apply elem_of_nil in He.
  - unfold bind. destruct (arestas G !! e) as [d|] eqn:Hd.
    2: { destruct (passo_ausente acc e G Hd) as (ex & G1 & ->). discriminate. }
    destruct (g e d) as [d'|] eqn:Hg.
    2: { destruct (passo_falha acc e G d Hd Hg) as (ex & G1 & ->). discriminate. }
    destruct (passo_ok acc e G d d' Hd Hg) as (acc1 & ->).
    intros H. apply IH in H as (Hn & Hin & Hout). simpl in *.
    split; [done|]. split.
    + intros e0 [->|He0]%elem_of_cons.
      * exists d, d'. split_and!; [done..|].
        rewrite (Hout e Hel). apply lookup_insert_eq.
      * destruct (Hin e0 He0) as (d0 & d0' & H1 & H2 & H3).
        exists d0, d0'. split_and!; [|done..].
        rewrite lookup_insert_ne in H1; [done|]. intros ->. done.
    + intros e0 He0. apply not_elem_of_cons in He0 as [Hne He0].
      rewrite (Hout e0 He0). by apply lookup_insert_ne.
Qed.

Lemma for_acc_arestas_total (l : list (Z * Z * Z)) (acc : B) (G : grafo) :
  NoDup l →
  (∀ e, e ∈ l → ∃ d d', arestas G !! e = Some d ∧ g e d = Some d') →
  ∃ acc' G', for_acc l acc passo G = (Ok acc', G').
Proof.
  intros Hnd. revert acc G.
  induction Hnd as [|e l Hel Hnd IH]; intros acc G Hall; simpl.
  - by eexists _, _.
  - destruct (Hall e) as (d & d' & Hd & Hg); [by left|].
    unfold bind. destruct (passo_ok acc e G d d' Hd Hg) as (acc1 & ->).
    apply IH. intros e0 He0.
    destruct (Hall e0) as (d0 & d0' & H1 & H2); [by right|].
    exists d0, d0'. split; [|done]. simpl.
    rewrite lookup_insert_ne; [done|]. intros ->. done.
Qed.

End LacoArestas.

Lemma com_snapshot_original (d : attrs) :
  com_snapshot d !! "length_original"
  = Some (default (custo_atual d) (d !! "length_original")).
Proof.
  unfold com_snapshot. case_bool_decide as H.
  - destruct H as [x ->]. reflexivity.
  - rewrite lookup_insert_eq.
    destruct (d !! "length_original") eqn:E; [|done].
    exfalso. apply H. eauto.
Qed.

Lemma com_snapshot_outros (d : attrs) (k : string) :
  k ≠ "length_original" → com_snapshot d !! k = d !! k.
Proof.
  intros Hk. unfold com_snapshot. case_bool_decide; [done|].
  by rewrite lookup_insert_ne.
Qed.

Section PonderarGrafo.

Variable float_de_str : string -> option float.
Variable perfil : MobilityProfile.
Variable faixas_pedestres : gset Z.

Lemma ponderar_aresta_ok (acc : nat) (e : Z * Z * Z) (G : grafo) (d d' : attrs) :
  arestas G !! e = Some d →
  ponderar_dados float_de_str perfil faixas_pedestres e d = Some d' →
  ∃ acc', ponderar_aresta float_de_str perfil faixas_pedestres acc e G
          = (Ok acc', atualizar_aresta G e d').
Proof.
  destruct e as [[u v] key]. intros Hd. unfold ponderar_dados. simpl.
  destruct (peso_esperado _ _ _ d u v) as [w|] eqn:Hw; [|done].
  destruct (limite_penalizada d) as [lim|] eqn:Hl; [|done].
  intros [= <-]. unfold ponderar_aresta, bind.
  rewrite calcular_peso_aresta_eq, Hd, Hw.
  unfold G_getitem. rewrite Hd.
  unfold limite_penalizada in Hl.
  unfold dados_ponderados, com_snapshot, atualizar_aresta.
  case_bool_decide as Hs.
  - unfold ret, G_setattr, G_getattr, lift. rewrite Hd. simpl.
    rewrite lookup_insert_eq, lookup_insert_ne by done.
    destruct Hs as [x Hx]. rewrite Hx in Hl |- *. simpl in Hl. rewrite Hl.
    eauto.
  - unfold ret, G_setattr, G_getattr, lift. rewrite Hd. simpl.
    rewrite lookup_insert_eq. simpl. rewrite lookup_insert_eq.
    rewrite lookup_insert_ne, lookup_insert_eq by done.
    assert (Hn : d !! "length_original" = None).
    { destruct (d !! "length_original") eqn:E; [|done]. exfalso. eauto. }
    rewrite Hn in Hl. simpl in Hl. unfold custo_atual in Hl |- *. rewrite Hl.
    rewrite !insert_insert_eq. eauto.
Qed.

Lemma ponderar_aresta_falha (acc : nat) (e : Z * Z * Z) (G : grafo) (d : attrs) :
  arestas G !! e = Some d →
  ponderar_dados float_de_str perfil faixas_pedestres e d = None →
  ∃ ex G', ponderar_aresta float_de_str perfil faixas_pedestres acc e G
           = (Raise ex, G').
Proof.
  destruct e as [[u v] key]. intros Hd. unfold ponderar_dados. simpl.
  unfold ponderar_aresta, bind. rewrite calcular_peso_aresta_eq, Hd.
  destruct (peso_esperado _ _ _ d u v) as [w|ex] eqn:Hw; [|eauto].
  unfold limite_penalizada.
  destruct (py_mul_float _ _) as [lim|ex] eqn:Hl; [done|]. intros _.
  unfold G_getitem. rewrite Hd.
  case_bool_decide as Hs.
  - unfold ret, G_setattr, G_getattr, lift. rewrite Hd. simpl.
    rewrite lookup_insert_eq, lookup_insert_ne by done.
    destruct Hs as [x Hx]. rewrite Hx in Hl |- *. simpl in Hl. rewrite Hl.
    eauto.
  - unfold ret, G_setattr, G_getattr, lift. rewrite Hd. simpl.
    rewrite lookup_insert_eq. simpl. rewrite lookup_insert_eq.
    rewrite lookup_insert_ne, lookup_insert_eq by done.
    assert (Hn : d !! "length_original" = None).
    { destruct (d !! "length_original") eqn:E; [|done]. exfalso. eauto. }
    rewrite Hn in Hl. simpl in Hl. unfold custo_atual in Hl |- *. rewrite Hl.
    eauto.
Qed.

Lemma ponderar_aresta_ausente (acc : nat) (e : Z * Z * Z) (G : grafo) :
  arestas G !! e = None →
  ∃ ex G', ponderar_aresta float_de_str perfil faixas_pedestres acc e G
           = (Raise ex, G').
Proof.
  destruct e as [[u v] key]. intros Hd.
  unfold ponderar_aresta, bind. rewrite calcular_peso_aresta_eq, Hd. eauto.
Qed.

End PonderarGrafo.

(** What a successful [ponderar_grafo] leaves behind. *)
Lemma ponderar_grafo_ok (float_de_str : string → option float)
    (perfil : MobilityProfile) (G G' : grafo) (n : nat) :
  ponderar_grafo float_de_str perfil G = (Ok n, G') →
  nos G' = nos G ∧
  (∀ e d, arestas G !! e = Some d →
     ∃ d', ponderar_dados float_de_str perfil
             (identificar_faixas_pedestres G) e d = Some d'
           ∧ arestas G' !! e = Some d') ∧
  (∀ e, arestas G !! e = None → arestas G' !! e = None).
Proof.
  unfold ponderar_grafo, bind, ler. intros H.
  eapply for_acc_arestas_ok in H as (Hn & Hin & Hout);
    eauto using ponderar_aresta_ok, ponderar_aresta_falha,
      ponderar_aresta_ausente, NoDup_G_edges_keys.
  split; [done|]. split.
  - intros e d Hd. destruct (Hin e) as (d0 & d' & H1 & H2 & H3).
    { apply elem_of_G_edges_keys. eauto. }
    exists d'. rewrite Hd in H1. injection H1 as <-. done.
  - intros e He. rewrite Hout, He; [done|].
    rewrite elem_of_G_edges_keys, He. by intros [? ?].
Qed.

(** [ponderar_grafo] succeeds as soon as every edge can be weighted. *)
Lemma ponderar_grafo_total (float_de_str : string → option float)
    (perfil : MobilityProfile) (G : grafo) :
  (∀ e d, arestas G !! e = Some d →
     is_Some (ponderar_dados float_de_str perfil
                (identificar_faixas_pedestres G) e d)) →
  ∃ n G', ponderar_grafo float_de_str perfil G = (Ok n, G').
Proof.
  intros Hall. unfold ponderar_grafo, bind, ler.
  eapply for_acc_arestas_total;
    eauto using ponderar_aresta_ok, NoDup_G_edges_keys.
  intros e [d Hd]%elem_of_G_edges_keys.
  destruct (Hall e d Hd) as [d' Hd']. eauto.
Qed.

Lemma restaurar_aresta_ok (acc : unit) (e : Z * Z * Z) (G : grafo) (d d' : attrs) :
  arestas G !! e = Some d → Some (dados_restaurados d) = Some d' →
  ∃ acc', restaurar_aresta acc e G = (Ok acc', atualizar_aresta G e d').
Proof.
  destruct e as [[u v] key]. intros Hd [= <-].
  unfold restaurar_aresta, dados_restaurados, bind, G_getitem. rewrite Hd.
  case_bool_decide as Hs.
  - destruct Hs as [x Hx]. unfold G_getattr, G_setattr. rewrite Hd, Hx, Hd.
    eauto.
  - assert (Hn : d !! "length_original" = None).
    { destruct (d !! "length_original") eqn:E; [|done]. exfalso. eauto. }
    rewrite Hn. unfold ret, atualizar_aresta. exists tt.
    rewrite insert_id by done. by destruct G.
Qed.

Lemma restaurar_aresta_ausente (acc : unit) (e : Z * Z * Z) (G : grafo) :
  arestas G !! e = None →
  ∃ ex G', restaurar_aresta acc e G = (Raise ex, G').
Proof.
  destruct e as [[u v] key]. intros Hd.
  unfold restaurar_aresta, bind, G_getitem. rewrite Hd. eauto.
Qed.

(** [restaurar_pesos_originais] never raises, and what it leaves behind. *)
Lemma restaurar_pesos_originais_ok (G : grafo) :
  ∃ G', restaurar_pesos_originais G = (Ok tt, G') ∧
        nos G' = nos G ∧
        ∀ e, arestas G' !! e = dados_restaurados <$> arestas G !! e.
Proof.
  unfold restaurar_pesos_originais, bind, ler.
  destruct (for_acc_arestas_total restaurar_aresta
              (λ _ d, Some (dados_restaurados d)) restaurar_aresta_ok
              (G_edges_keys G) tt G (NoDup_G_edges_keys G))
    as ([] & G' & HG').
  { intros e [d Hd]%elem_of_G_edges_keys. eauto. }
  exists G'. split; [done|].
  apply (for_acc_arestas_ok restaurar_aresta
           (λ _ d, Some (dados_restaurados d)) restaurar_aresta_ok)
    in HG' as (Hn & Hin & Hout);
    [|intros; discriminate|apply restaurar_aresta_ausente
     |apply NoDup_G_edges_keys].
  split; [done|]. intros e.
  destruct (arestas G !! e) as [d|] eqn:Hd.
  - destruct (Hin e) as (d0 & d' & H1 & H2 & H3).
    { apply elem_of_G_edges_keys. eauto. }
    rewrite Hd in H1. injection H1 as <-. injection H2 as <-. done.
  - rewrite Hout, Hd; [done|].
    rewrite elem_of_G_edges_keys, Hd. by intros [? ?].
Qed.

(** *** Which nodes are marked crossings *)

Lemma elem_of_identificar_faixas_pedestres (G : grafo) (n : Z) :
  n ∈ identificar_faixas_pedestres G
  ↔ ∃ data, nos G !! n = Some data ∧ no_e_faixa data = true.
Proof.
  unfold identificar_faixas_pedestres, G_nodes_data.
  set (f := λ (faixas : gset Z) '(node_id, data), _).
  assert (H : ∀ l acc, n ∈ foldl f acc l
                ↔ n ∈ acc ∨ ∃ data, (n, data) ∈ l ∧ no_e_faixa data = true).
  { induction l as [|[m data] l IH]; intros acc; simpl.
    - split; [by left|]. intros [?|(data & H & _)]; [done|].
      by apply elem_of_nil in H.
    - rewrite IH. unfold f, no_e_faixa. setoid_rewrite elem_of_cons.
      destruct (opt_in_lista (data !! "crossing") _) eqn:E1;
        [|destruct (py_eq_str (data !! "highway") "crossing") eqn:E2].
      + rewrite elem_of_union, elem_of_singleton. split.
        * intros [[->|?]|(data' & ? & ?)]; eauto.
          right. exists data. rewrite E1. eauto.
        * intros [?|(data' & [[= -> ->]|?] & ?)]; eauto.
      + rewrite elem_of_union, elem_of_singleton. split.
        * intros [[->|?]|(data' & ? & ?)]; eauto.
          right. exists data. rewrite E1, E2. eauto.
        * intros [?|(data' & [[= -> ->]|?] & ?)]; eauto.
      + split.
        * intros [?|(data' & ? & ?)]; eauto.
        * intros [?|(data' & [[= -> ->]|?] & ?)]; eauto.
          rewrite E1, E2 in *. discriminate. }
  rewrite H. split.
  - intros [?|(data & Hd & ?)]; [set_solver|].
    apply elem_of_map_to_list in Hd. eauto.
  - intros (data & Hd & ?). right. exists data.
    split; [by apply elem_of_map_to_list|done].
Qed.

(** *** The cost of an edge *)


Lemma peso_esperado_Ok (float_de_str : string → option float)
    (perfil : MobilityProfile) (faixas : gset Z) (d : attrs) (u v : Z) (w : float) :
  peso_esperado float_de_str perfil faixas d u v = Ok w ↔
  (∃ b, py_in "ramp" (dict_get d "highway" (PyStr "")) = Ok b) ∧
  ∃ base, custo_atual d = PyFloat base ∧
          w = (base * fator_penalizacao float_de_str perfil faixas d u v)%float.
Proof.
  unfold peso_esperado. split.
  - destruct (py_in _ _) as [b|]; [|done].
    destruct (custo_atual d) as [|base| |]; simpl; try done.
    intros [= <-]. eauto.
  - intros [[b ->] (base & -> & ->)]. reflexivity.
Qed.





(** A gravel edge of 10 m costs 20 for a profile that requires
    accessibility: the surface step doubles it. *)
Example calcular_peso_aresta_cascalho :
  (calcular_peso_aresta float_de_str_exemplo 1 2 0 perfil_cadeirante
     (identificar_faixas_pedestres grafo_cascalho) grafo_cascalho).1
  = Ok 20%float.
Proof. vm_compute. reflexivity. Qed.

(** *** Weighting and restoring *)

Lemma dados_ponderados_length (d : attrs) (w : float) :
  dados_ponderados d w !! "length" = Some (PyFloat w).
Proof. apply lookup_insert_eq. Qed.

Lemma dados_ponderados_original (d : attrs) (w : float) :
  dados_ponderados d w !! "length_original"
  = Some (default (custo_atual d) (d !! "length_original")).
Proof.
  unfold dados_ponderados. rewrite lookup_insert_ne by done.
  apply com_snapshot_original.
Qed.

Lemma dados_ponderados_outros (d : attrs) (w : float) (k : string) :
  k ≠ "length" → k ≠ "length_original" → dados_ponderados d w !! k = d !! k.
Proof.
  intros H1 H2. unfold dados_ponderados. rewrite lookup_insert_ne by done.
  by apply com_snapshot_outros.
Qed.

Lemma ponderar_dados_Some (float_de_str : string → option float)
    (perfil : MobilityProfile) (faixas : gset Z) (e : Z * Z * Z) (d d' : attrs) :
  ponderar_dados float_de_str perfil faixas e d = Some d' ↔
  ∃ w lim, peso_esperado float_de_str perfil faixas d e.1.1 e.1.2 = Ok w ∧
           limite_penalizada d = Ok lim ∧ d' = dados_ponderados d w.
Proof.
  unfold ponderar_dados. split.
  - destruct (peso_esperado _ _ _ _ _ _) as [w|]; [|done].
    destruct (limite_penalizada d) as [lim|]; [|done].
    intros [= <-]. eauto.
  - intros (w & lim & -> & -> & ->). reflexivity.
Qed.

(** Claim C3, as amended: when [ponderar_grafo] returns, restoring
    afterwards sets the ['length'] of every edge to its recorded original:
    for an edge that carried no ['length_original'] before the transform
    this is exactly the cost it had then (the ['length'] it held, 1.0 if it
    held none), and for an edge that already carried one it is that older
    record.  On any graph, [restaurar_pesos_originais] returns and leaves
    the nodes and every edge without ['length_original'] untouched. *)
Theorem restaurar_apos_ponderar
    (float_de_str : string → option float) (perfil : MobilityProfile)
    (G G1 : grafo) (n : nat) :
  ponderar_grafo float_de_str perfil G = (Ok n, G1) →
  (∃ G2, restaurar_pesos_originais G1 = (Ok tt, G2) ∧
     ∀ e d, arestas G !! e = Some d →
       ∃ d2, arestas G2 !! e = Some d2 ∧
         d2 !! "length"
           = Some (default (custo_atual d) (d !! "length_original")) ∧
         (d !! "length_original" = None →
            custo_atual d2 = custo_atual d ∧
            ∀ x, d !! "length" = Some x → d2 !! "length" = Some x)) ∧
  (∀ G0, ∃ G', restaurar_pesos_originais G0 = (Ok tt, G') ∧
     nos G' = nos G0 ∧
     (∀ e, is_Some (arestas G' !! e) ↔ is_Some (arestas G0 !! e)) ∧
     ∀ e d, arestas G0 !! e = Some d → d !! "length_original" = None →
            arestas G' !! e = Some d).
Proof.
  intros Hp. split.
  - destruct (restaurar_pesos_originais_ok G1) as (G2 & Hr & _ & Hl).
    exists G2. split; [done|]. intros e d Hd.
    apply ponderar_grafo_ok in Hp as (_ & Hin & _).
    destruct (Hin e d Hd) as (d1 & Hd1 & HG1).
    apply ponderar_dados_Some in Hd1 as (w & lim & _ & _ & ->).
    rewrite Hl, HG1. simpl. eexists. split; [done|].
    unfold dados_restaurados. rewrite dados_ponderados_original.
    rewrite lookup_insert_eq. split; [done|].
    intros Hn. rewrite Hn. simpl. split.
    + unfold custo_atual at 1, dict_get. by rewrite lookup_insert_eq.
    + intros x Hx. unfold custo_atual, dict_get. by rewrite Hx.
  - intros G0. destruct (restaurar_pesos_originais_ok G0) as (G' & Hr & Hn & Hl).
    exists G'. split_and!; [done..| |].
    + intros e. rewrite Hl. by rewrite fmap_is_Some.
    + intros e d Hd Hnone. rewrite Hl, Hd. simpl.
      unfold dados_restaurados. by rewrite Hnone.
Qed.

Lemma restaurar_apos_ponderar_witness :
  ∃ G2, restaurar_pesos_originais
          (ponderar_grafo float_de_str_exemplo perfil_cadeirante grafo_cascalho).2
        = (Ok tt, G2) ∧
     ∀ e d, arestas grafo_cascalho !! e = Some d →
       ∃ d2, arestas G2 !! e = Some d2 ∧
         d2 !! "length"
           = Some (default (custo_atual d) (d !! "length_original")) ∧
         (d !! "length_original" = None →
            custo_atual d2 = custo_atual d ∧
            ∀ x, d !! "length" = Some x → d2 !! "length" = Some x).
Proof.
  refine (proj1 (restaurar_apos_ponderar float_de_str_exemplo perfil_cadeirante
                   grafo_cascalho _ 1 _)).
  vm_compute. reflexivity.
Defined.

(** Claim C3 as stated fails: on a graph weighted before, weighting again
    and restoring gives the edge the cost 10, not the 20 it had before
    this transform. *)
Lemma restaurar_apos_ponderar_nao_restaura :
  custo_atual <$> arestas grafo_ja_ponderado !! (1, 2, 0)%Z
  = Some (PyFloat 20) ∧
  (ponderar_grafo float_de_str_exemplo perfil_cadeirante grafo_ja_ponderado).1
  = Ok 1%nat ∧
  custo_atual <$>
    arestas (restaurar_pesos_originais
               (ponderar_grafo float_de_str_exemplo perfil_cadeirante
                  grafo_ja_ponderado).2).2 !! (1, 2, 0)%Z
  = Some (PyFloat 10) ∧
  PyFloat 10 ≠ PyFloat 20.
Proof.
  split; [vm_compute; reflexivity|].
  split; [vm_compute; reflexivity|].
  split; [vm_compute; reflexivity|].
  intros H. discriminate H.
Qed.

(** The highway type of an already weighted edge is that of the edge. *)
Lemma py_in_ramp_dados_ponderados (d : attrs) (w : float) :
  dict_get (dados_ponderados d w) "highway" (PyStr "")
  = dict_get d "highway" (PyStr "").
Proof. unfold dict_get. by rewrite dados_ponderados_outros. Qed.

(** Claim C4: after a first [ponderar_grafo] that returned, a second one
    with any profile returns too; it leaves the ['length_original'] of
    every edge as the first left it, which is the record the edge carried
    before the first transform or, if it carried none, the cost it had
    then; and the new ['length'] is the first transform's ['length']
    multiplied by the second profile's factor. *)
Theorem ponderar_duas_vezes
    (float_de_str : string → option float) (perfil1 perfil2 : MobilityProfile)
    (G G1 : grafo) (n1 : nat) :
  ponderar_grafo float_de_str perfil1 G = (Ok n1, G1) →
  ∃ n2 G2, ponderar_grafo float_de_str perfil2 G1 = (Ok n2, G2) ∧
    ∀ u v key d, arestas G !! (u, v, key) = Some d →
      ∃ d1 d2 w1,
        arestas G1 !! (u, v, key) = Some d1 ∧
        arestas G2 !! (u, v, key) = Some d2 ∧
        d1 !! "length" = Some (PyFloat w1) ∧
        d1 !! "length_original"
          = Some (default (custo_atual d) (d !! "length_original")) ∧
        d2 !! "length_original" = d1 !! "length_original" ∧
        d2 !! "length"
          = Some (PyFloat
                    (w1 * fator_penalizacao float_de_str perfil2
                            (identificar_faixas_pedestres G1) d1 u v)%float).
Proof.
  intros Hp1. pose proof Hp1 as (Hn1 & Hin1 & Hout1)%ponderar_grafo_ok.
  assert (Hall : ∀ e d1, arestas G1 !! e = Some d1 →
            ∃ d w1, arestas G !! e = Some d ∧ d1 = dados_ponderados d w1 ∧
              ponderar_dados float_de_str perfil2
                (identificar_faixas_pedestres G1) e d1
              = Some (dados_ponderados d1
                        (w1 * fator_penalizacao float_de_str perfil2
                                (identificar_faixas_pedestres G1) d1 e.1.1 e.1.2)%float)).
  { intros e d1 Hd1. destruct (arestas G !! e) as [d|] eqn:Hd.
    2: { rewrite (Hout1 e Hd) in Hd1. discriminate. }
    destruct (Hin1 e d Hd) as (d1' & Hp & HG1).
    rewrite Hd1 in HG1. injection HG1 as <-.
    apply ponderar_dados_Some in Hp as (w1 & lim & Hw1 & Hlim & ->).
    exists d, w1. split_and!; [done..|].
    apply ponderar_dados_Some. eexists _, lim. split_and!; [|  |done].
    - apply peso_esperado_Ok. apply peso_esperado_Ok in Hw1 as [Hb _].
      rewrite py_in_ramp_dados_ponderados. split; [done|].
      exists w1. split; [|done].
      unfold custo_atual, dict_get. by rewrite dados_ponderados_length.
    - unfold limite_penalizada in *.
      by rewrite dados_ponderados_original. }
  destruct (ponderar_grafo_total float_de_str perfil2 G1) as (n2 & G2 & Hp2).
  { intros e d1 Hd1. destruct (Hall e d1 Hd1) as (? & ? & _ & _ & ->). eauto. }
  exists n2, G2. split; [done|].
  apply ponderar_grafo_ok in Hp2 as (_ & Hin2 & _).
  intros u v key d Hd.
  destruct (Hin1 (u, v, key) d Hd) as (d1 & _ & HG1).
  destruct (Hall _ _ HG1) as (d' & w1 & Hd' & -> & Hp2).
  rewrite Hd in Hd'. injection Hd' as <-.
  destruct (Hin2 _ _ HG1) as (d2 & Hd2 & HG2).
  rewrite Hp2 in Hd2. injection Hd2 as <-.
  eexists _, _, w1. split_and!; [done..| | | |].
  - apply dados_ponderados_length.
  - apply dados_ponderados_original.
  - by rewrite !dados_ponderados_original.
  - apply dados_ponderados_length.
Qed.

Lemma ponderar_duas_vezes_witness :
  ∃ n2 G2,
    ponderar_grafo float_de_str_exemplo perfil_cadeirante
      (ponderar_grafo float_de_str_exemplo perfil_cadeirante grafo_cascalho).2
    = (Ok n2, G2).
Proof.
  destruct (ponderar_duas_vezes float_de_str_exemplo perfil_cadeirante
              perfil_cadeirante grafo_cascalho
              (ponderar_grafo float_de_str_exemplo perfil_cadeirante
                 grafo_cascalho).2 1)
    as (n2 & G2 & H & _).
  - vm_compute. reflexivity.
  - exists n2, G2. exact H.
Defined.

(** *** What the weight transform leaves alone *)

Lemma mesmo_quadro_refl (G : grafo) : mesmo_quadro G G.
Proof. split; [done|]. intros e. by destruct (arestas G !! e). Qed.

Lemma mesmo_quadro_trans (G1 G2 G3 : grafo) :
  mesmo_quadro G1 G2 → mesmo_quadro G2 G3 → mesmo_quadro G1 G3.
Proof.
  intros [Hn1 He1] [Hn2 He2]. split; [congruence|]. intros e.
  specialize (He1 e). specialize (He2 e).
  destruct (arestas G1 !! e), (arestas G2 !! e), (arestas G3 !! e); try done.
  intros k H1 H2. rewrite He2, He1; done.
Qed.

Lemma preserva_ret {A} (a : A) : preserva_quadro (ret a).
Proof. intros G. apply mesmo_quadro_refl. Qed.

Lemma preserva_lift {A} (r : result A) : preserva_quadro (lift r).
Proof. intros G. apply mesmo_quadro_refl. Qed.

Lemma preserva_ler : preserva_quadro ler.
Proof. intros G. apply mesmo_quadro_refl. Qed.

Lemma preserva_bind {A B} (m : M grafo A) (k : A → M grafo B) :
  preserva_quadro m → (∀ a, preserva_quadro (k a)) → preserva_quadro (bind m k).
Proof.
  intros Hm Hk G. unfold bind. specialize (Hm G).
  destruct (m G) as [[a|e] G1]; simpl in *; [|done].
  eapply mesmo_quadro_trans; [done|]. apply Hk.
Qed.

Lemma preserva_for_acc {A B} (l : list A) (acc : B) (corpo : B → A → M grafo B) :
  (∀ acc x, preserva_quadro (corpo acc x)) →
  preserva_quadro (for_acc l acc corpo).
Proof.
  intros Hc. revert acc. induction l as [|x l IH]; intros acc; simpl.
  - apply preserva_ret.
  - apply preserva_bind; [apply Hc|]. intros acc'. apply IH.
Qed.

Lemma preserva_G_getitem (u v key : Z) : preserva_quadro (G_getitem u v key).
Proof.
  intros G. unfold G_getitem.
  destruct (arestas G !! (u, v, key)); apply mesmo_quadro_refl.
Qed.

Lemma preserva_G_getattr (u v key : Z) (k : string) :
  preserva_quadro (G_getattr u v key k).
Proof.
  intros G. unfold G_getattr.
  destruct (arestas G !! (u, v, key)) as [d|]; [destruct (d !! k)|];
    apply mesmo_quadro_refl.
Qed.

Lemma preserva_G_setattr (u v key : Z) (k : string) (x : pyval) :
  k = "length" ∨ k = "length_original" →
  preserva_quadro (G_setattr u v key k x).
Proof.
  intros Hk G. unfold G_setattr.
  destruct (arestas G !! (u, v, key)) as [d|] eqn:Hd;
    [|apply mesmo_quadro_refl].
  split; [done|]. intros e. simpl.
  destruct (decide (e = (u, v, key))) as [->|Hne].
  - rewrite Hd, lookup_insert_eq. intros k' H1 H2.
    rewrite lookup_insert_ne; [done|]. destruct Hk; congruence.
  - rewrite lookup_insert_ne by done. by destruct (arestas G !! e).
Qed.

Lemma calcular_peso_aresta_nao_altera (float_de_str : string → option float)
    (u v key : Z) (perfil : MobilityProfile) (faixas : gset Z) (G : grafo) :
  (calcular_peso_aresta float_de_str u v key perfil faixas G).2 = G.
Proof. by rewrite calcular_peso_aresta_eq. Qed.

Lemma preserva_ponderar_aresta (float_de_str : string → option float)
    (perfil : MobilityProfile) (faixas : gset Z) (acc : nat) (e : Z * Z * Z) :
  preserva_quadro (ponderar_aresta float_de_str perfil faixas acc e).
Proof.
  destruct e as [[u v] key]. unfold ponderar_aresta.
  apply preserva_bind.
  { intros G. rewrite calcular_peso_aresta_nao_altera. apply mesmo_quadro_refl. }
  intros w. apply preserva_bind; [apply preserva_G_getitem|]. intros d.
  apply preserva_bind.
  { case_bool_decide; [apply preserva_ret|]. apply preserva_G_setattr. by right. }
  intros _. apply preserva_bind; [apply preserva_G_setattr; by left|].
  intros _. apply preserva_bind; [apply preserva_G_getattr|]. intros lo.
  apply preserva_bind; [apply preserva_lift|]. intros lim. apply preserva_ret.
Qed.

(** Claim C10: whatever [ponderar_grafo] does, returning or raising, the
    graph it leaves has the same nodes with the same attributes, the same
    edges with the same keys, and every edge attribute other than ['length']
    and ['length_original'] unchanged; and [calcular_peso_aresta] leaves
    the graph exactly as it found it. *)
Theorem ponderar_grafo_so_escreve_pesos
    (float_de_str : string → option float) (perfil : MobilityProfile)
    (G : grafo) :
  let G' := (ponderar_grafo float_de_str perfil G).2 in
  nos G' = nos G ∧
  dom (arestas G') = dom (arestas G) ∧
  (∀ e d d' k, arestas G !! e = Some d → arestas G' !! e = Some d' →
     k ≠ "length" → k ≠ "length_original" → d' !! k = d !! k) ∧
  (∀ u v key faixas G0,
     (calcular_peso_aresta float_de_str u v key perfil faixas G0).2 = G0).
Proof.
  assert (H : mesmo_quadro G (ponderar_grafo float_de_str perfil G).2).
  { unfold ponderar_grafo.
    apply (preserva_bind ler); [apply preserva_ler|]. intros G0.
    apply preserva_for_acc. intros acc e. apply preserva_ponderar_aresta. }
  destruct H as [Hn He]. simpl. split_and!.
  - done.
  - apply set_eq. intros e. rewrite !elem_of_dom. specialize (He e).
    destruct (arestas G !! e), (arestas _ !! e); try done;
      split; intros [? ?]; eauto; done.
  - intros e d d' k Hd Hd'. specialize (He e). rewrite Hd, Hd' in He. apply He.
  - intros. apply calcular_peso_aresta_nao_altera.
Qed.

(** ** Route computation *)

Section CalcularRota.

Variable nearest_nodes : grafo → float → float → result Z.
Variable shortest_path : grafo → Z → Z → result (list Z).
Variable shortest_path_length : grafo → Z → Z → result float.

Lemma calcular_rota_eq (G : grafo) (origem destino : coord) (w : mundo) :
  calcular_rota nearest_nodes shortest_path shortest_path_length
    G origem destino w
  = match rota_tentada nearest_nodes shortest_path shortest_path_length
          G origem destino with
    | Ok r => (Ok (Some r), w)
    | Raise e =>
        if classe_eqb (classe e) NetworkXNoPath then (Ok None, w)
        else (Ok None, mostrar w (aviso_de_erro e))
    end.
Proof.
  unfold calcular_rota, rota_tentada, try_except_Exception, try_except,
    bind, lift, ret, rbind, st_error.
  destruct (nearest_nodes G origem.2 origem.1) as [a|e]; simpl.
  2: { destruct (classe_eqb (classe e) NetworkXNoPath); reflexivity. }
  destruct (nearest_nodes G destino.2 destino.1) as [b|e]; simpl.
  2: { destruct (classe_eqb (classe e) NetworkXNoPath); reflexivity. }
  destruct (shortest_path G a b) as [p|e]; simpl.
  2: { destruct (classe_eqb (classe e) NetworkXNoPath); reflexivity. }
  destruct (shortest_path_length G a b) as [x|e]; simpl.
  2: { destruct (classe_eqb (classe e) NetworkXNoPath); reflexivity. }
  destruct (extrair_geometria_rota G p) as [pts|e]; simpl; [reflexivity|].
  destruct (classe_eqb (classe e) NetworkXNoPath); reflexivity.
Qed.

End CalcularRota.

(** Claim C6, as amended: [calcular_rota] never raises.  When the search
    between the resolved nodes raises [NetworkXNoPath] it returns
    [(None, None)] and shows nothing; when the origin or the destination
    cannot be resolved, or on any other fault, it returns [(None, None)]
    too, after showing an error message that carries the text of the
    exception; no [NodeResolutionError] is raised. *)
Theorem calcular_rota_nunca_levanta
    (nearest_nodes : grafo → float → float → result Z)
    (shortest_path : grafo → Z → Z → result (list Z))
    (shortest_path_length : grafo → Z → Z → result float)
    (G : grafo) (origem destino : coord) (w : mundo) :
  let calc := calcular_rota nearest_nodes shortest_path shortest_path_length
                G origem destino in
  (∃ r w', calc w = (Ok r, w')) ∧
  (∀ a b e, nearest_nodes G (snd origem) (fst origem) = Ok a →
            nearest_nodes G (snd destino) (fst destino) = Ok b →
            shortest_path G a b = Raise e → classe e = NetworkXNoPath →
            calc w = (Ok None, w)) ∧
  (∀ e, nearest_nodes G (snd origem) (fst origem) = Raise e →
        classe e ≠ NetworkXNoPath →
        calc w = (Ok None, mostrar w (aviso_de_erro e))) ∧
  (∀ a e, nearest_nodes G (snd origem) (fst origem) = Ok a →
          nearest_nodes G (snd destino) (fst destino) = Raise e →
          classe e ≠ NetworkXNoPath →
          calc w = (Ok None, mostrar w (aviso_de_erro e))) ∧
  (∀ e, rota_tentada nearest_nodes shortest_path shortest_path_length
          G origem destino = Raise e →
        classe e ≠ NetworkXNoPath →
        calc w = (Ok None, mostrar w (aviso_de_erro e))).
Proof.
  assert (Hc : ∀ c, c ≠ NetworkXNoPath → classe_eqb c NetworkXNoPath = false).
  { intros c Hc. destruct c; done. }
  simpl. split_and!.
  - rewrite calcular_rota_eq. destruct (rota_tentada _ _ _ _ _ _) as [r|e]; eauto.
    destruct (classe_eqb _ _); eauto.
  - intros a b e Ha Hb Hp He. rewrite calcular_rota_eq. unfold rota_tentada.
    rewrite Ha, Hb. simpl. rewrite Hp. simpl. by rewrite He.
  - intros e Ha He. rewrite calcular_rota_eq. unfold rota_tentada.
    rewrite Ha. simpl. by rewrite (Hc _ He).
  - intros a e Ha Hb He. rewrite calcular_rota_eq. unfold rota_tentada.
    rewrite Ha, Hb. simpl. by rewrite (Hc _ He).
  - intros e Hr He. rewrite calcular_rota_eq, Hr. by rewrite (Hc _ He).
Qed.

(** Claim C6 as stated fails: with an origin that cannot be resolved,
    [calcular_rota] returns [(None, None)] after showing a message, and
    raises nothing. *)
Lemma calcular_rota_sem_NodeResolutionError :
  calcular_rota nearest_nodes_vazio (λ _ _ _, Ok []) (λ _ _ _, Ok 0%float)
    grafo_vazio (0, 0)%float (1, 1)%float mundo_inicial
  = (Ok None,
     mostrar mundo_inicial
       "⚠️ Erro ao calcular rota: Found array with 0 sample(s)") ∧
  ¬ ∃ m w',
      calcular_rota nearest_nodes_vazio (λ _ _ _, Ok []) (λ _ _ _, Ok 0%float)
        grafo_vazio (0, 0)%float (1, 1)%float mundo_inicial
      = (Raise (Excecao NodeResolutionError m), w').
Proof.
  split; [reflexivity|]. intros (m & w' & H). discriminate H.
Qed.

(** ** Measurements *)

Section Medicao.

Variable relogio : nat → float.
Variable nearest_nodes : grafo → float → float → result Z.
Variable has_path : grafo → Z → Z → result bool.
Variable calcular_rota_alg :
  grafo → coord → coord → string → M mundo (option rota).
Variable heuristica_astar : result heuristica.
Variable statistics_mean : list float → result float.
Variable statistics_median : list float → result float.
Variable statistics_stdev : list float → result float.
Variable random_sample : nat → list string → result (string * string).
Variable math_cos : float → float.
Variable math_pow : float → float → float.

Variable G : grafo.
Variable origem_p destino_p : coord.
Variable alg : string.

Lemma medicoes_sem_caminho (n : nat) (w : mundo) :
  alguma_sem_caminho relogio calcular_rota_alg G origem_p destino_p alg n w →
  ∀ tempos final, ∃ w',
    medicoes relogio calcular_rota_alg G origem_p destino_p alg n tempos final w
    = (Ok None, w').
Proof.
  induction 1 as [n w w' t H|n w w' [pontos distancia] t H _ IH];
    intros tempos final; simpl; unfold bind; rewrite H; simpl.
  - by eexists.
  - apply IH.
Qed.

Lemma medir_algoritmo_completo_nunca_levanta (repeticoes warmup : nat) (w : mundo) :
  ∃ m w',
    medir_algoritmo_completo relogio nearest_nodes calcular_rota_alg
      heuristica_astar statistics_mean statistics_median statistics_stdev
      G origem_p destino_p alg repeticoes warmup w = (Ok m, w').
Proof.
  unfold medir_algoritmo_completo, try_except_Exception.
  destruct (bind _ _ w) as [[m|e] w']; unfold ret; eauto.
Qed.

Lemma medir_algoritmo_completo_sem_caminho
    (repeticoes warmup : nat) (a b : Z) (w w1 : mundo) :
  nearest_nodes G (snd origem_p) (fst origem_p) = Ok a →
  nearest_nodes G (snd destino_p) (fst destino_p) = Ok b →
  aquecimento calcular_rota_alg G origem_p destino_p alg warmup w = (Ok tt, w1) →
  alguma_sem_caminho relogio calcular_rota_alg G origem_p destino_p alg repeticoes w1 →
  ∃ w', medir_algoritmo_completo relogio nearest_nodes calcular_rota_alg
          heuristica_astar statistics_mean statistics_median statistics_stdev
          G origem_p destino_p alg repeticoes warmup w
        = (Ok (medicao_falha alg "Sem caminho"), w').
Proof.
  intros Ha Hb Hw Hs.
  destruct (medicoes_sem_caminho _ _ Hs [] None) as [w' Hm].
  exists w'. unfold aquecimento in Hw.
  unfold medir_algoritmo_completo, try_except_Exception, bind, lift in *.
  rewrite Ha, Hb, Hw, Hm. reflexivity.
Qed.

Lemma executar_passo_casos (pois : gmap string coord) (repeticoes : nat)
    (st st' : estado_benchmark) (w w' : mundo) :
  executar_passo relogio nearest_nodes has_path calcular_rota_alg
    heuristica_astar statistics_mean statistics_median statistics_stdev
    random_sample math_cos math_pow G pois repeticoes st w = (Ok st', w') →
  (resultados st' = resultados st ∧
   pares_testados st' = pares_testados st ∧
   pares_invalidos st' = S (pares_invalidos st)) ∨
  (∃ r, resultados st' = resultados st ++ [r] ∧
        sucesso (dijkstra r) = true ∧ sucesso (astar r) = true ∧
        pares_testados st' = S (pares_testados st) ∧
        pares_invalidos st' = pares_invalidos st).
Proof.
  unfold executar_passo, bind, lift, sortear_par.
  destruct (random_sample _ _) as [[on dn]|]; [|done]. simpl.
  destruct (pois !! on) as [o|]; [|done].
  destruct (pois !! dn) as [d|]; [|done].
  destruct (verificar_conectividade _ _ _ _ _); simpl.
  2: { unfold ret. intros [= <- <-]. left. done. }
  destruct (medir_algoritmo_completo _ _ _ _ _ _ _ _ o d "dijkstra" _ _ _)
    as [[md|] w1]; [|done].
  destruct (medir_algoritmo_completo _ _ _ _ _ _ _ _ o d "astar" _ _ _)
    as [[ma|] w2]; [|done].
  destruct (sucesso md) eqn:E1, (sucesso ma) eqn:E2; simpl; unfold ret;
    intros [= <- <-]; simpl; try (left; done).
  right. eexists. split; [reflexivity|]. simpl. done.
Qed.

Lemma executar_passo_invalido (pois : gmap string coord) (repeticoes : nat)
    (st : estado_benchmark) (w w1 w2 w3 : mundo)
    (origem_nome destino_nome : string) (o d : coord)
    (md ma : MedicaoAlgoritmo) :
  sortear_par random_sample (map_to_list pois).*1 w
    = (Ok (origem_nome, destino_nome), w1) →
  pois !! origem_nome = Some o → pois !! destino_nome = Some d →
  verificar_conectividade nearest_nodes has_path G o d = true →
  medir_algoritmo_completo relogio nearest_nodes calcular_rota_alg
    heuristica_astar statistics_mean statistics_median statistics_stdev
    G o d "dijkstra" repeticoes 3 w1 = (Ok md, w2) →
  medir_algoritmo_completo relogio nearest_nodes calcular_rota_alg
    heuristica_astar statistics_mean statistics_median statistics_stdev
    G o d "astar" repeticoes 3 w2 = (Ok ma, w3) →
  sucesso md = false ∨ sucesso ma = false →
  executar_passo relogio nearest_nodes has_path calcular_rota_alg
    heuristica_astar statistics_mean statistics_median statistics_stdev
    random_sample math_cos math_pow G pois repeticoes st w
  = (Ok {| resultados := resultados st;
           pares_testados := pares_testados st;
           pares_invalidos := S (pares_invalidos st) |}, w3).
Proof.
  intros Hs Ho Hd Hc Hmd Hma Hfail.
  unfold executar_passo, bind, lift. rewrite Hs. simpl. rewrite Ho, Hd, Hc.
  simpl. rewrite Hmd, Hma.
  destruct Hfail as [-> | ->]; simpl; rewrite ?andb_false_r; reflexivity.
Qed.

(** Claim C7: if a timed invocation finds no path, the measurement is
    unsuccessful with reason "Sem caminho", has no timings and every figure
    at zero; and in the loop of [executar] a pair with an unsuccessful
    Dijkstra or A* measurement is counted as invalid and not recorded, so
    that every accepted record holds two successful measurements. *)
Theorem medicao_sem_caminho_e_par_invalido :
  (∀ repeticoes warmup a b w w1,
     nearest_nodes G (snd origem_p) (fst origem_p) = Ok a →
     nearest_nodes G (snd destino_p) (fst destino_p) = Ok b →
     aquecimento calcular_rota_alg G origem_p destino_p alg warmup w = (Ok tt, w1) →
     alguma_sem_caminho relogio calcular_rota_alg G origem_p destino_p alg
       repeticoes w1 →
     ∃ m w',
       medir_algoritmo_completo relogio nearest_nodes calcular_rota_alg
         heuristica_astar statistics_mean statistics_median statistics_stdev
         G origem_p destino_p alg repeticoes warmup w = (Ok m, w') ∧
       sucesso m = false ∧ erro m = Some "Sem caminho" ∧ tempos_ms m = [] ∧
       tempo_medio_ms m = 0%float ∧ tempo_mediano_ms m = 0%float ∧
       tempo_min_ms m = 0%float ∧ tempo_max_ms m = 0%float ∧
       desvio_padrao_ms m = 0%float ∧ percentil_95_ms m = 0%float ∧
       percentil_99_ms m = 0%float ∧ distancia m = 0%float ∧
       num_pontos m = 0%nat ∧ nos_explorados m = 0%nat) ∧
  (∀ pois repeticoes st w w1 w2 w3 origem_nome destino_nome o d md ma,
     sortear_par random_sample (map_to_list pois).*1 w
       = (Ok (origem_nome, destino_nome), w1) →
     pois !! origem_nome = Some o → pois !! destino_nome = Some d →
     verificar_conectividade nearest_nodes has_path G o d = true →
     medir_algoritmo_completo relogio nearest_nodes calcular_rota_alg
       heuristica_astar statistics_mean statistics_median statistics_stdev
       G o d "dijkstra" repeticoes 3 w1 = (Ok md, w2) →
     medir_algoritmo_completo relogio nearest_nodes calcular_rota_alg
       heuristica_astar statistics_mean statistics_median statistics_stdev
       G o d "astar" repeticoes 3 w2 = (Ok ma, w3) →
     sucesso md = false ∨ sucesso ma = false →
     executar_passo relogio nearest_nodes has_path calcular_rota_alg
       heuristica_astar statistics_mean statistics_median statistics_stdev
       random_sample math_cos math_pow G pois repeticoes st w
     = (Ok {| resultados := resultados st;
              pares_testados := pares_testados st;
              pares_invalidos := S (pares_invalidos st) |}, w3)) ∧
  (∀ pois repeticoes st st' w w',
     executar_passo relogio nearest_nodes has_path calcular_rota_alg
       heuristica_astar statistics_mean statistics_median statistics_stdev
       random_sample math_cos math_pow G pois repeticoes st w = (Ok st', w') →
     (resultados st' = resultados st ∧
      pares_testados st' = pares_testados st ∧
      pares_invalidos st' = S (pares_invalidos st)) ∨
     (∃ r, resultados st' = resultados st ++ [r] ∧
           sucesso (dijkstra r) = true ∧ sucesso (astar r) = true ∧
           pares_testados st' = S (pares_testados st) ∧
           pares_invalidos st' = pares_invalidos st)).
Proof.
  split_and!.
  - intros repeticoes warmup a b w w1 Ha Hb Hw Hs.
    destruct (medir_algoritmo_completo_sem_caminho repeticoes warmup a b w w1
                Ha Hb Hw Hs) as [w' Hm].
    exists (medicao_falha alg "Sem caminho"), w'. by split_and!.
  - intros. by eapply executar_passo_invalido.
  - intros. by eapply executar_passo_casos.
Qed.

End Medicao.

Lemma medicao_sem_caminho_e_par_invalido_witness :
  ∃ m w',
    medir_algoritmo_completo (λ _, 0%float) (λ _ _ _, Ok 1%Z)
      calcular_rota_sem_caminho (Raise (erro_chave "h"))
      (λ _, Ok 0%float) (λ _, Ok 0%float) (λ _, Ok 0%float)
      grafo_vazio (0, 0)%float (1, 1)%float "dijkstra" 20 3 mundo_inicial
    = (Ok m, w') ∧
    sucesso m = false ∧ erro m = Some "Sem caminho" ∧ tempos_ms m = [].
Proof.
  destruct (proj1 (medicao_sem_caminho_e_par_invalido (λ _, 0%float)
              (λ _ _ _, Ok 1%Z) (λ _ _ _, Ok true) calcular_rota_sem_caminho
              (Raise (erro_chave "h"))
              (λ _, Ok 0%float) (λ _, Ok 0%float) (λ _, Ok 0%float)
              (λ _ _, Ok ("a", "b")) (λ x, x) (λ x _, x)
              grafo_vazio (0, 0)%float (1, 1)%float "dijkstra")
            20%nat 3%nat 1%Z 1%Z mundo_inicial mundo_inicial)
    as (m & w' & H1 & H2 & H3 & H4 & _).
  - reflexivity.
  - reflexivity.
  - reflexivity.
  - eapply sem_caminho_agora. reflexivity.
  - exists m, w'. split_and!; assumption.
Defined.

(** ** The benchmark and the route calculator it imports

    Claim C2: the benchmark calls [calcular_rota] with an algorithm
    selector and imports [heuristica_astar] from the route calculator.
    Against [route_calculator.py] both fail: the import raises
    [ImportError], the call raises [TypeError], and so [contar_nos_astar]
    counts 0 whatever the graph and every measurement with a warm-up ends
    in the failure record that carries the [TypeError]. *)
Theorem benchmark_contra_route_calculator :
  from_import "route_calculator" route_calculator_nomes "heuristica_astar"
  = Raise (Excecao ImportError
             "cannot import name 'heuristica_astar' from 'route_calculator'") ∧
  from_import "route_calculator" route_calculator_nomes "calcular_rota" = Ok tt ∧
  (∀ nearest_nodes shortest_path shortest_path_length G origem destino alg w,
     calcular_rota_com_algoritmo nearest_nodes shortest_path
       shortest_path_length G origem destino alg w
     = (Raise (erro_tipo
                 "calcular_rota() got an unexpected keyword argument 'algoritmo'"),
        w)) ∧
  (∀ (h : heuristica) G origem_id destino_id,
     contar_nos_astar (importar_heuristica h) G origem_id destino_id = 0%nat) ∧
  (∀ relogio nearest_nodes shortest_path shortest_path_length h
     mean median stdev G origem destino alg repeticoes warmup a b w,
     nearest_nodes G (snd origem) (fst origem) = Ok a →
     nearest_nodes G (snd destino) (fst destino) = Ok b →
     medir_algoritmo_completo relogio nearest_nodes
       (calcular_rota_com_algoritmo nearest_nodes shortest_path
          shortest_path_length)
       h mean median stdev G origem destino alg repeticoes (S warmup) w
     = (Ok (medicao_falha alg
              "calcular_rota() got an unexpected keyword argument 'algoritmo'"),
        w)).
Proof.
  split_and!; try reflexivity.
  intros relogio nearest_nodes shortest_path shortest_path_length h
    mean median stdev G origem destino alg repeticoes warmup a b w Ha Hb.
  unfold medir_algoritmo_completo, try_except_Exception, bind, lift.
  rewrite Ha, Hb. reflexivity.
Qed.

(** ** Counting the explored nodes *)

Lemma heappop_None (h : list entrada) : heappop h = None → h = [].
Proof.
  destruct h as [|a h]; [done|]. simpl.
  destruct (heappop h) as [[m resto]|]; [destruct (tupla_lt m a)|]; done.
Qed.

Lemma heappop_Some (h r : list entrada) (x : entrada) :
  heappop h = Some (x, r) →
  x ∈ h ∧ (∀ y, y ∈ r → y ∈ h) ∧ length h = S (length r).
Proof.
  revert x r. induction h as [|a h IH]; intros x r; simpl; [done|].
  destruct (heappop h) as [[m resto]|] eqn:E.
  - destruct (IH m resto eq_refl) as (Hm & Hsub & Hlen).
    destruct (tupla_lt m a); intros [= <- <-].
    + split_and!.
      * by right.
      * intros y [->|Hy]%elem_of_cons; [by left|]. right. by apply Hsub.
      * simpl. by rewrite Hlen.
    + split_and!; [by left| |done]. intros y Hy. by right.
  - intros [= <- <-]. apply heappop_None in E as ->.
    split_and!; [by left| |done]. intros y Hy. by apply elem_of_nil in Hy.
Qed.

Lemma elem_of_sem_repetidos (l : list Z) (x : Z) : x ∈ sem_repetidos l → x ∈ l.
Proof.
  induction l as [|a l IH]; simpl; [done|].
  case_bool_decide.
  - intros Hx. right. by apply IH.
  - intros [->|Hx]%elem_of_cons; [by left|]. right. by apply IH.
Qed.

(** A neighbour is the head of an edge of the graph. *)
Lemma G_neighbors_aresta (G : grafo) (u v : Z) (vs : list Z) :
  G_neighbors G u = Ok vs → v ∈ vs →
  is_Some (nos G !! u) ∧ ∃ key d, arestas G !! (u, v, key) = Some d.
Proof.
  unfold G_neighbors. case_bool_decide as Hu; [|done]. intros [= <-] Hv.
  split; [done|]. apply elem_of_sem_repetidos in Hv.
  apply list_elem_of_omap in Hv as ([[[a b] key] d] & Hin & Hf).
  case_bool_decide as Ha; [|done]. injection Hf as ->. subst a.
  apply elem_of_map_to_list in Hin. eauto.
Qed.

Lemma G_get_edge_data_aresta (G : grafo) (u v key : Z) (d : attrs) :
  (key, d) ∈ G_get_edge_data G u v → arestas G !! (u, v, key) = Some d.
Proof.
  unfold G_get_edge_data. intros Hin.
  apply list_elem_of_omap in Hin as ([[[a b] k] d'] & Hin & Hf).
  case_bool_decide as Hab; [|done]. injection Hf as -> ->.
  destruct Hab as [-> ->]. by apply elem_of_map_to_list.
Qed.

Lemma peso_minimo_paralelas_ok (G : grafo) (u v : Z) :
  grafo_bem_formado G → ∃ m, peso_minimo_paralelas G u v = Ok m.
Proof.
  intros Hwf. unfold peso_minimo_paralelas.
  assert (H : ∀ kd, kd ∈ G_get_edge_data G u v →
                    ∃ x, custo_atual kd.2 = PyFloat x).
  { intros [key d] Hin. apply G_get_edge_data_aresta in Hin.
    by apply Hwf in Hin as (_ & _ & ?). }
  revert H. generalize (G_get_edge_data G u v) infinity.
  induction l as [|[key d] l IH]; intros acc H; simpl; [eauto|].
  destruct (H (key, d)) as [x Hx]; [by left|]. simpl in Hx.
  unfold custo_atual in Hx. rewrite Hx. simpl. apply IH.
  intros kd Hkd. apply H. by right.
Qed.

Lemma soma_filtrada_fora (g : Z → nat) (vis : gset Z) (u : Z) (l : list Z) :
  u ∉ l →
  sum_list (g <$> filter (λ x, x ∉ {[u]} ∪ vis) l)
  = sum_list (g <$> filter (λ x, x ∉ vis) l).
Proof.
  induction l as [|a l IH]; intros Hu; [done|].
  apply not_elem_of_cons in Hu as [Hne Hu].
  rewrite !filter_cons. specialize (IH Hu).
  destruct (decide (a ∉ {[u]} ∪ vis)) as [H1|H1],
           (decide (a ∉ vis)) as [H2|H2]; csimpl; try lia.
  - exfalso. apply H2. intros Hin. apply H1, elem_of_union. by right.
  - exfalso. apply H1. intros [Hs|Hv]%elem_of_union; [|done].
    apply elem_of_singleton in Hs. congruence.
Qed.

Lemma soma_filtrada_insere (g : Z → nat) (vis : gset Z) (u : Z) (l : list Z) :
  NoDup l → u ∈ l → u ∉ vis →
  sum_list (g <$> filter (λ x, x ∉ {[u]} ∪ vis) l) + g u
  = sum_list (g <$> filter (λ x, x ∉ vis) l).
Proof.
  induction 1 as [|a l Ha Hnd IH]; intros Hin Hu.
  - by apply elem_of_nil in Hin.
  - rewrite !filter_cons.
    destruct (decide (a = u)) as [->|Hne].
    + rewrite decide_False; [|intros Hn; apply Hn, elem_of_union; left;
                                 by apply elem_of_singleton].
      rewrite decide_True by done.
      csimpl. rewrite soma_filtrada_fora by done. lia.
    + apply elem_of_cons in Hin as [->|Hin]; [done|]. specialize (IH Hin Hu).
      destruct (decide (a ∉ {[u]} ∪ vis)) as [H1|H1],
               (decide (a ∉ vis)) as [H2|H2]; csimpl; try lia.
      * exfalso. apply H2. intros Hv. apply H1, elem_of_union. by right.
      * exfalso. apply H1. intros [Hs|Hv]%elem_of_union; [|done].
        apply elem_of_singleton in Hs. congruence.
Qed.

Lemma graus_pendentes_insere (G : grafo) (vis : gset Z) (u : Z) (vs : list Z) :
  G_neighbors G u = Ok vs → u ∉ vis →
  graus_pendentes G ({[u]} ∪ vis) + length vs = graus_pendentes G vis.
Proof.
  intros Hvs Hu. unfold graus_pendentes.
  replace (length vs) with (grau G u) by (unfold grau; by rewrite Hvs).
  apply soma_filtrada_insere; [apply NoDup_fst_map_to_list| |done].
  unfold G_neighbors in Hvs. case_bool_decide as Hn; [|done].
  destruct Hn as [d Hd]. unfold lista_nos. apply list_elem_of_fmap.
  exists (u, d). split; [done|]. by apply elem_of_map_to_list.
Qed.

Lemma graus_pendentes_vazio (G : grafo) :
  graus_pendentes G ∅ = sum_list (map (grau G) (map fst (map_to_list (nos G)))).
Proof.
  unfold graus_pendentes, lista_nos.
  replace (filter (λ x, x ∉ (∅ : gset Z)) (map_to_list (nos G)).*1)
    with ((map_to_list (nos G)).*1); [done|].
  generalize ((map_to_list (nos G)).*1). induction l as [|a l IH]; [done|].
  rewrite filter_cons, decide_True by apply not_elem_of_empty. by f_equal.
Qed.

Section LacoBusca.

Variable G : grafo.
Variable origem_id destino_id : Z.
Variable distancia_base : float → Z → gmap Z float → result float.
Variable prioridade : float → Z → result float.

Abbreviation explorar := (explorar_vizinho G distancia_base prioridade).
Abbreviation laco := (laco_busca G destino_id distancia_base prioridade).

(** What one neighbour can change: at most one entry pushed for it. *)
Lemma explorar_vizinho_efeito (d : float) (u v : Z) (st st' : estado_busca) :
  explorar d u st v = Ok st' →
  visitados st' = visitados st ∧ explorados st' = explorados st ∧
  (∀ k, is_Some (dist st !! k) → is_Some (dist st' !! k)) ∧
  (heap st' = heap st ∨
   ∃ f, heap st' = heap st ++ [(f, v)] ∧ is_Some (dist st' !! v)).
Proof.
  unfold explorar_vizinho. case_bool_decide.
  { intros [= <-]. split_and!; eauto. }
  destruct (peso_minimo_paralelas G u v) as [pm|]; [|done]. simpl.
  destruct (distancia_base d u (dist st)) as [b|]; [|done]. simpl.
  destruct (match dist st !! v with Some dv => _ | None => true end).
  2: { intros [= <-]. split_and!; eauto. }
  destruct (prioridade _ v) as [f|]; [|done]. simpl.
  intros [= <-]. simpl. split_and!; [done..| |].
  - intros k Hk. destruct (decide (k = v)) as [->|Hne].
    + rewrite lookup_insert_eq. eauto.
    + by rewrite lookup_insert_ne.
  - right. exists f. split; [done|]. rewrite lookup_insert_eq. eauto.
Qed.

Lemma explorar_vizinhos_efeito (d : float) (u : Z) (vs : list Z)
    (st st' : estado_busca) :
  rfor_acc vs st (explorar d u) = Ok st' →
  visitados st' = visitados st ∧ explorados st' = explorados st ∧
  (∀ k, is_Some (dist st !! k) → is_Some (dist st' !! k)) ∧
  (∀ x, x ∈ heap st' →
     x ∈ heap st ∨ (x.2 ∈ vs ∧ is_Some (dist st' !! x.2))) ∧
  length (heap st') ≤ length (heap st) + length vs.
Proof.
  revert st. induction vs as [|v vs IH]; intros st; simpl.
  { intros [= <-]. split_and!; eauto. lia. }
  destruct (explorar d u st v) as [st1|] eqn:E1; [|done]. simpl.
  intros H. apply IH in H as (Hv & He & Hd & Hh & Hl).
  apply explorar_vizinho_efeito in E1 as (Hv1 & He1 & Hd1 & Hh1).
  split_and!.
  - congruence.
  - congruence.
  - eauto.
  - intros x Hx. destruct (Hh x Hx) as [Hx1|[Hx1 Hx2]].
    + destruct Hh1 as [Heq|(f & Heq & Hf)]; rewrite Heq in Hx1; [by left|].
      apply elem_of_app in Hx1 as [?|Hs%list_elem_of_singleton]; [by left|].
      subst x.
      right. split; [by left|]. simpl. by apply Hd.
    + right. split; [by right|done].
  - destruct Hh1 as [Heq|(f & Heq & _)]; rewrite Heq in Hl;
      rewrite ?length_app in Hl; simpl in *; lia.
Qed.

(** *** Termination *)

Lemma laco_busca_termina (fuel : nat) (st : estado_busca) :
  medida G st < fuel → is_Some (laco fuel st).
Proof.
  revert st. induction fuel as [|fuel IH]; intros st Hm; [lia|]. simpl.
  destruct (heappop (heap st)) as [[[d u] h']|] eqn:Ep; [|eauto].
  apply heappop_Some in Ep as (_ & _ & Hlen). unfold medida in Hm.
  case_bool_decide as Hu.
  { apply IH. unfold medida. simpl. lia. }
  case_bool_decide; [eauto|].
  destruct (G_neighbors G u) as [vs|] eqn:Ev; simpl; [|eauto].
  destruct (rfor_acc vs _ _) as [st2|] eqn:E2; [|eauto].
  apply IH. apply explorar_vizinhos_efeito in E2 as (Hv & _ & _ & _ & Hl).
  simpl in *. unfold medida. rewrite Hv.
  pose proof (graus_pendentes_insere G (visitados st) u vs Ev Hu). lia.
Qed.

(** *** What a search that ends has settled *)

Lemma alcancado_mono (S S' : gset Z) (v : Z) :
  S ⊆ S' → alcancado G origem_id S v → alcancado G origem_id S' v.
Proof. intros Hs (q & Hc & Hn & Hq). exists q. split_and!; eauto. Qed.

Lemma alcancado_vizinho (S : gset Z) (u v : Z) :
  alcancado G origem_id S u → u ∉ S → adjacente G u v →
  alcancado G origem_id ({[u]} ∪ S) v.
Proof.
  intros (q & Hc & Hn & Hq) Hu Hadj. exists (q ++ [u]). split_and!.
  - by apply caminho_passo with u.
  - apply NoDup_app. split_and!; [done| |apply NoDup_singleton].
    intros x Hx Hs%list_elem_of_singleton. subst x. by apply Hu, Hq.
  - intros x [Hx|Hs%list_elem_of_singleton]%elem_of_app.
    + apply elem_of_union. right. by apply Hq.
    + apply elem_of_union. left. by apply elem_of_singleton.
Qed.

Lemma alcancado_caminho (S : gset Z) (v : Z) :
  alcancado G origem_id S v → v ∉ S →
  ∃ p, caminho G origem_id v p ∧ NoDup p ∧ ∀ x, x ∈ p → x ∈ {[v]} ∪ S.
Proof.
  intros (q & Hc & Hn & Hq) Hv. exists (q ++ [v]). split_and!; [done| |].
  - apply NoDup_app. split_and!; [done| |apply NoDup_singleton].
    intros x Hx Hs%list_elem_of_singleton. subst x. by apply Hv, Hq.
  - intros x [Hx|Hs%list_elem_of_singleton]%elem_of_app.
    + apply elem_of_union. right. by apply Hq.
    + apply elem_of_union. left. by apply elem_of_singleton.
Qed.

Lemma laco_busca_final (fuel : nat) (st st' : estado_busca) :
  laco fuel st = Some (Ok st') → invariante G origem_id st →
  destino_id ∉ visitados st → final_da_busca G origem_id destino_id st st'.
Proof.
  revert st. induction fuel as [|fuel IH]; intros st; [done|]. simpl.
  destruct (heappop (heap st)) as [[[d u] h']|] eqn:Ep.
  2: { intros [= <-] (He & _ & _) Hd. apply heappop_None in Ep.
       split_and!; [done..| | |done]; by intros. }
  apply heappop_Some in Ep as (Hin & Hsub & Hlen).
  assert (Hne : heap st ≠ []) by (intros Hnil; rewrite Hnil in Hlen; done).
  intros H (He & Hh & Ho) Hd.
  case_bool_decide as Hu.
  - apply IH in H; [| |done].
    + destruct H as (H1 & H2 & H3 & H4 & H5). split_and!; [done..| |done|done].
      intros _. apply H2. simpl. destruct Ho as [Ho|Ho]; [done|].
      by rewrite <- (Ho _ Hin).
    + split_and!; simpl; [done|eauto|]. destruct Ho; eauto.
  - assert (Ho1 : origem_id ∈ {[u]} ∪ visitados st).
    { apply elem_of_union. destruct Ho as [Ho|Ho]; [by right|]. left.
      apply elem_of_singleton. symmetry. apply (Ho _ Hin). }
    case_bool_decide as Hdest.
    + injection H as <-. subst u. split_and!; simpl.
      * by rewrite He.
      * apply union_subseteq_r.
      * done.
      * intros _. apply (alcancado_caminho _ _ (Hh _ Hin) Hu).
      * intros Hn. exfalso. apply Hn, elem_of_union. left.
        by apply elem_of_singleton.
    + destruct (G_neighbors G u) as [vs|] eqn:Ev; simpl in H; [|done].
      destruct (rfor_acc vs _ _) as [st2|] eqn:E2; [|done].
      apply explorar_vizinhos_efeito in E2 as (Hv & Hex & _ & Hh2 & _).
      simpl in *. apply IH in H.
      * destruct H as (H1 & H2 & H3 & H4 & H5).
        split_and!; [done| |by (intros _; apply H2; rewrite Hv)|done|done].
        intros x Hx. apply H2. rewrite Hv. apply elem_of_union. by right.
      * split_and!.
        -- by rewrite Hv, Hex, He.
        -- intros x Hx. rewrite Hv. destruct (Hh2 x Hx) as [Hx1|[Hx1 _]].
           ++ apply alcancado_mono with (visitados st);
                [apply union_subseteq_r|]. by apply Hh, Hsub.
           ++ apply alcancado_vizinho; [by apply (Hh _ Hin)|done|].
              exists vs. done.
        -- left. by rewrite Hv.
      * rewrite Hv. intros [Hs|Hs]%elem_of_union; [|done].
        apply elem_of_singleton in Hs. congruence.
Qed.

(** *** A well-formed graph raises nothing *)

Hypothesis bem_formado : grafo_bem_formado G.
Hypothesis distancia_base_ok : ∀ d u m,
  is_Some (m !! u) → ∃ x, distancia_base d u m = Ok x.
Hypothesis prioridade_ok : ∀ nd v,
  is_Some (nos G !! v) → ∃ f, prioridade nd v = Ok f.

Lemma explorar_vizinhos_total (d : float) (u : Z) (vs : list Z)
    (st : estado_busca) :
  (∀ v, v ∈ vs → is_Some (nos G !! v)) → is_Some (dist st !! u) →
  ∃ st', rfor_acc vs st (explorar d u) = Ok st'.
Proof.
  revert st. induction vs as [|v vs IH]; intros st Hvs Hu; simpl; [eauto|].
  assert (∃ st1, explorar d u st v = Ok st1) as [st1 E1].
  { unfold explorar_vizinho. case_bool_decide; [eauto|].
    destruct (peso_minimo_paralelas_ok G u v bem_formado) as [pm ->]. simpl.
    destruct (distancia_base_ok d u (dist st) Hu) as [b ->]. simpl.
    destruct (match dist st !! v with Some dv => _ | None => true end);
      [|eauto].
    destruct (prioridade_ok (b + pm)%float v) as [f ->]; [|simpl; eauto].
    apply Hvs. by left. }
  rewrite E1. simpl. apply IH.
  - intros v' Hv'. apply Hvs. by right.
  - by apply explorar_vizinho_efeito in E1 as (_ & _ & Hd & _); apply Hd.
Qed.

Lemma laco_busca_sem_excecao (fuel : nat) (st : estado_busca)
    (r : result estado_busca) :
  laco fuel st = Some r → nos_conhecidos G st → ∃ st', r = Ok st'.
Proof.
  revert st. induction fuel as [|fuel IH]; intros st; [done|]. simpl.
  destruct (heappop (heap st)) as [[[d u] h']|] eqn:Ep.
  2: { intros [= <-]. eauto. }
  apply heappop_Some in Ep as (Hin & Hsub & _). intros H Hk.
  destruct (Hk _ Hin) as [Hnu Hdu]. simpl in *.
  case_bool_decide.
  { apply IH in H; [done|]. intros x Hx. apply Hk. by apply Hsub. }
  case_bool_decide; [injection H as <-; eauto|].
  unfold G_neighbors in H. rewrite bool_decide_eq_true_2 in H by done.
  simpl in H. set (vs := sem_repetidos _) in H.
  assert (Hvs : ∀ v, v ∈ vs → is_Some (nos G !! v)).
  { intros v Hv.
    destruct (G_neighbors_aresta G u v vs) as (_ & key & dd & Hed); [|done|].
    { unfold G_neighbors. by rewrite bool_decide_eq_true_2. }
    by apply bem_formado in Hed as (_ & ? & _). }
  destruct (explorar_vizinhos_total d u vs
              {| dist := dist st; visitados := {[u]} ∪ visitados st;
                 explorados := {[u]} ∪ explorados st; heap := h' |} Hvs Hdu)
    as [st2 E2].
  rewrite E2 in H. apply IH in H; [done|].
  apply explorar_vizinhos_efeito in E2 as (_ & _ & Hd & Hh & _). simpl in *.
  intros x Hx. destruct (Hh x Hx) as [Hx1|[Hx1 Hx2]].
  - destruct (Hk x (Hsub _ Hx1)). split; [done|]. by apply Hd.
  - split; [by apply Hvs|done].
Qed.

End LacoBusca.

Lemma length_le_size (p : list Z) (S : gset Z) :
  NoDup p → (∀ x, x ∈ p → x ∈ S) → length p ≤ size S.
Proof.
  intros Hn Hs. rewrite <- (size_list_to_set (C := gset Z) p Hn).
  apply subseteq_size. intros x Hx. apply elem_of_list_to_set in Hx. eauto.
Qed.

Lemma medida_inicial (G : grafo) (o : Z) :
  medida G (estado_inicial o) < combustivel G.
Proof.
  unfold medida, combustivel. simpl. rewrite graus_pendentes_vazio. lia.
Qed.

Lemma invariante_inicial (G : grafo) (o : Z) : invariante G o (estado_inicial o).
Proof.
  split_and!; simpl.
  - done.
  - intros x Hx%list_elem_of_singleton. subst x. simpl. exists [].
    split_and!; [apply caminho_origem|apply NoDup_nil_2|].
    intros y Hy. by apply elem_of_nil in Hy.
  - right. intros x Hx%list_elem_of_singleton. by subst x.
Qed.

Lemma busca_generica (G : grafo) (o d : Z)
    (base : float → Z → gmap Z float → result float)
    (prio : float → Z → result float) :
  ∃ r, laco_busca G d base prio (combustivel G) (estado_inicial o) = Some r ∧
       resultado_da_contagem G o d r (contagem (Some r)).
Proof.
  destruct (laco_busca_termina G d base prio (combustivel G) (estado_inicial o)
              (medida_inicial G o)) as [r Hr].
  exists r. split; [done|]. destruct r as [st|e]; simpl; [|done].
  apply (laco_busca_final G o) in Hr as (He & _ & Ho & Hp & Hh);
    [|apply invariante_inicial|apply not_elem_of_empty].
  assert (Ho' : o ∈ visitados st) by (by apply Ho).
  unfold contagem_correta. rewrite He. split_and!; [done..| | |done].
  - apply (length_le_size [o]); [apply NoDup_singleton|].
    intros x Hx%list_elem_of_singleton. by subst x.
  - intros Hd. destruct (Hp Hd) as (p & Hc & Hn & Hs).
    exists p. split_and!; [done..|]. by apply length_le_size.
Qed.

Lemma busca_generica_sem_excecao (G : grafo) (o d : Z)
    (base : float → Z → gmap Z float → result float)
    (prio : float → Z → result float) :
  grafo_bem_formado G → is_Some (nos G !! o) →
  (∀ x u m, is_Some (m !! u) → ∃ y, base x u m = Ok y) →
  (∀ nd v, is_Some (nos G !! v) → ∃ f, prio nd v = Ok f) →
  ∃ st, laco_busca G d base prio (combustivel G) (estado_inicial o)
        = Some (Ok st).
Proof.
  intros Hwf Ho Hb Hp.
  destruct (laco_busca_termina G d base prio (combustivel G) (estado_inicial o)
              (medida_inicial G o)) as [r Hr].
  destruct (laco_busca_sem_excecao G d base prio Hwf Hb Hp _ _ _ Hr)
    as [st ->]; [|eauto].
  intros x Hx%list_elem_of_singleton. subst x. simpl. split; [done|].
  rewrite lookup_singleton_eq. eauto.
Qed.

Lemma grafo_bem_formado_b_correto (G : grafo) :
  grafo_bem_formado_b G = true → grafo_bem_formado G.
Proof.
  unfold grafo_bem_formado_b. rewrite forallb_forall.
  intros H u v key d Hd.
  specialize (H ((u, v, key), d)). simpl in H.
  rewrite !andb_true_iff, !bool_decide_eq_true in H.
  destruct H as [[Hu Hv] Hc].
  { apply list_elem_of_In. by apply elem_of_map_to_list. }
  split_and!; [done..|]. destruct (custo_atual d); try done. eauto.
Qed.



(** * Further properties

    Properties of the same three modules beyond the claims above: error
    and edge behaviour, invariants, and how the operations compose. *)

(** ** graph_weighting.py *)

(** *** Marked crossings *)

Lemma py_in_lista_str (s : string) (l : list string) :
  py_in_lista (PyStr s) l = true ↔ s ∈ l.
Proof.
  unfold py_in_lista. induction l as [|t l IH]; simpl.
  - split; [done|]. by intros ?%elem_of_nil.
  - rewrite orb_true_iff, String.eqb_eq, IH, elem_of_cons. done.
Qed.

Lemma py_in_lista_nao_str (x : pyval) (l : list string) :
  (∀ s, x ≠ PyStr s) → py_in_lista x l = false.
Proof.
  intros Hx. unfold py_in_lista. induction l as [|t l IH]; simpl; [done|].
  rewrite IH. destruct x; try done. by destruct (Hx s).
Qed.

Lemma opt_in_lista_Some (x : option pyval) (l : list string) :
  opt_in_lista x l = true ↔ ∃ s, x = Some (PyStr s) ∧ s ∈ l.
Proof.
  destruct x as [v|]; simpl.
  2: { split; [done|]. by intros (? & [=] & _). }
  destruct v as [s| | |];
    [|rewrite py_in_lista_nao_str by done; split; [done|];
      by intros (? & [=] & _)..].
  rewrite py_in_lista_str. split; [eauto|]. by intros (? & [= <-] & ?).
Qed.

Lemma py_eq_str_Some (x : option pyval) (s : string) :
  py_eq_str x s = true ↔ x = Some (PyStr s).
Proof.
  destruct x as [[t| | |]|]; simpl; try (split; [done|intros [=]]).
  rewrite String.eqb_eq. split; [by intros ->|by intros [= ->]].
Qed.

(** Property X1: a node is reported as a pedestrian crossing exactly when
    it is a node of the graph whose ['crossing'] tag is one of the strings
    yes, marked, zebra and traffic_signals, or whose ['highway'] tag is the
    string crossing. *)
Theorem identificar_faixas_pedestres_caracterizacao (G : grafo) (n : Z) :
  n ∈ identificar_faixas_pedestres G ↔
  ∃ data, nos G !! n = Some data ∧
    ((∃ s, data !! "crossing" = Some (PyStr s) ∧
           s ∈ ["yes"; "marked"; "zebra"; "traffic_signals"]) ∨
     data !! "highway" = Some (PyStr "crossing")).
Proof.
  rewrite elem_of_identificar_faixas_pedestres. unfold no_e_faixa.
  setoid_rewrite orb_true_iff. setoid_rewrite opt_in_lista_Some.
  setoid_rewrite py_eq_str_Some. reflexivity.
Qed.

Lemma identificar_faixas_pedestres_caracterizacao_witness :
  1%Z ∈ identificar_faixas_pedestres grafo_com_faixa.
Proof.
  apply (proj2 (identificar_faixas_pedestres_caracterizacao grafo_com_faixa 1)).
  exists no_com_faixa. split; [reflexivity|]. left. exists "zebra".
  split; [reflexivity|]. rewrite !elem_of_cons. tauto.
Defined.

(** *** Restoring twice *)

Lemma grafo_eq (G G' : grafo) :
  nos G' = nos G → (∀ e, arestas G' !! e = arestas G !! e) → G' = G.
Proof.
  destruct G, G'. simpl. intros -> H. f_equal. by apply map_eq.
Qed.

Lemma dados_restaurados_idemp (d : attrs) :
  dados_restaurados (dados_restaurados d) = dados_restaurados d.
Proof.
  unfold dados_restaurados. destruct (d !! "length_original") as [x|] eqn:E.
  - rewrite lookup_insert_ne, E by done. apply insert_insert_eq.
  - by rewrite E.
Qed.

(** Property X2: [restaurar_pesos_originais] returns on every graph, and
    restoring the graph it leaves changes nothing more; in that graph every
    edge that carries a ['length_original'] has a ['length'] equal to it. *)
Theorem restaurar_pesos_originais_idempotente (G : grafo) :
  ∃ G1, restaurar_pesos_originais G = (Ok tt, G1) ∧
        restaurar_pesos_originais G1 = (Ok tt, G1) ∧
        ∀ e d1, arestas G1 !! e = Some d1 →
          ∀ x, d1 !! "length_original" = Some x → d1 !! "length" = Some x.
Proof.
  destruct (restaurar_pesos_originais_ok G) as (G1 & H1 & Hn1 & Hl1).
  destruct (restaurar_pesos_originais_ok G1) as (G2 & H2 & Hn2 & Hl2).
  exists G1. split; [done|]. split.
  - rewrite H2. f_equal. apply grafo_eq; [done|]. intros e.
    rewrite Hl2, Hl1. destruct (arestas G !! e) as [d|]; simpl; [|done].
    by rewrite dados_restaurados_idemp.
  - intros e d1. rewrite Hl1.
    destruct (arestas G !! e) as [d|]; simpl; [|done]. intros [= <-] x.
    unfold dados_restaurados.
    destruct (d !! "length_original") as [y|] eqn:E.
    + rewrite lookup_insert_ne, E by done. intros [= <-].
      apply lookup_insert_eq.
    + by rewrite E.
Qed.

(** *** Which edges can be weighted *)

Lemma py_in_Ok_textual (s : string) (x : pyval) :
  (∃ b, py_in s x = Ok b) ↔ etiqueta_textual x.
Proof.
  destruct x; simpl; split; try done; eauto; by intros [? ?].
Qed.

Lemma ponderar_dados_is_Some (float_de_str : string → option float)
    (perfil : MobilityProfile) (faixas : gset Z) (e : Z * Z * Z) (d : attrs) :
  is_Some (ponderar_dados float_de_str perfil faixas e d) ↔ aresta_ponderavel d.
Proof.
  unfold aresta_ponderavel. split.
  - intros [d' (w & lim & Hw & Hl & _)%ponderar_dados_Some].
    apply peso_esperado_Ok in Hw as [Hb (base & Hbase & _)].
    split; [exact (proj1 (py_in_Ok_textual "ramp" _) Hb)|]. split; [eauto|].
    intros y Hy. unfold limite_penalizada in Hl. rewrite Hy in Hl. simpl in Hl.
    destruct y; try done. eauto.
  - intros (Hh & [base Hbase] & Ho).
    apply (proj2 (py_in_Ok_textual "ramp" _)) in Hh.
    eexists. apply ponderar_dados_Some.
    assert (∃ lim, limite_penalizada d = Ok lim) as [lim Hlim].
    { unfold limite_penalizada.
      destruct (d !! "length_original") as [y|] eqn:E; simpl.
      - destruct (Ho y eq_refl) as [x ->]. simpl. eauto.
      - rewrite Hbase. simpl. eauto. }
    eexists _, lim. split_and!; [|done|done].
    apply peso_esperado_Ok. eauto.
Qed.

Lemma peso_esperado_classe (float_de_str : string → option float)
    (perfil : MobilityProfile) (faixas : gset Z) (d : attrs) (u v : Z)
    (ex : excecao) :
  peso_esperado float_de_str perfil faixas d u v = Raise ex →
  classe ex = TypeError.
Proof.
  unfold peso_esperado.
  destruct (dict_get d "highway" (PyStr "")); simpl;
    try (intros [= <-]; reflexivity);
    destruct (custo_atual d); simpl; try done; intros [= <-]; reflexivity.
Qed.

Lemma ponderar_aresta_classe (float_de_str : string → option float)
    (perfil : MobilityProfile) (faixas : gset Z) (acc : nat) (e : Z * Z * Z)
    (G G' : grafo) (ex : excecao) :
  is_Some (arestas G !! e) →
  ponderar_aresta float_de_str perfil faixas acc e G = (Raise ex, G') →
  classe ex = TypeError.
Proof.
  destruct e as [[u v] key]. intros [d Hd].
  unfold ponderar_aresta, bind. rewrite calcular_peso_aresta_eq, Hd.
  destruct (peso_esperado _ _ _ d u v) as [w|ex'] eqn:Hw.
  2: { intros [= <- <-]. by apply peso_esperado_classe in Hw. }
  unfold G_getitem. rewrite Hd.
  case_bool_decide as Hs.
  - unfold ret, G_setattr, G_getattr, lift. rewrite Hd. simpl.
    rewrite lookup_insert_eq, lookup_insert_ne by done.
    destruct Hs as [x Hx]. rewrite Hx.
    destruct x; simpl; try done; intros [= <- <-]; reflexivity.
  - unfold ret, G_setattr, G_getattr, lift. rewrite Hd. simpl.
    rewrite lookup_insert_eq. simpl. rewrite lookup_insert_eq.
    rewrite lookup_insert_ne, lookup_insert_eq by done.
    destruct (dict_get d "length" (PyFloat 1)); simpl; try done;
      intros [= <- <-]; reflexivity.
Qed.

Lemma mesmo_quadro_is_Some (G G' : grafo) (e : Z * Z * Z) :
  mesmo_quadro G G' → is_Some (arestas G !! e) → is_Some (arestas G' !! e).
Proof.
  intros [_ H]. specialize (H e).
  destruct (arestas G !! e), (arestas G' !! e); try done; by intros [? ?].
Qed.

Lemma for_acc_ponderar_classe (float_de_str : string → option float)
    (perfil : MobilityProfile) (faixas : gset Z) (l : list (Z * Z * Z))
    (acc : nat) (G G' : grafo) (ex : excecao) :
  (∀ e, e ∈ l → is_Some (arestas G !! e)) →
  for_acc l acc (ponderar_aresta float_de_str perfil faixas) G = (Raise ex, G') →
  classe ex = TypeError.
Proof.
  revert acc G. induction l as [|e l IH]; intros acc G Hl; simpl; [done|].
  unfold bind.
  destruct (ponderar_aresta _ _ _ acc e G) as [[acc1|ex1] G1] eqn:E1.
  - apply IH. intros e' He'.
    apply (mesmo_quadro_is_Some G).
    + pose proof (preserva_ponderar_aresta float_de_str perfil faixas acc e G) as H.
      by rewrite E1 in H.
    + apply Hl. by right.
  - intros [= <- <-]. eapply ponderar_aresta_classe; [|done]. apply Hl. by left.
Qed.

(** Property X3: [ponderar_grafo] returns exactly when every edge has a
    float for ['length'] (or none), a float for ['length_original'] (or
    none) and text for ['highway'] (or none); when it raises, the exception
    is a [TypeError]. *)
Theorem ponderar_grafo_retorna_sse_ponderavel
    (float_de_str : string → option float) (perfil : MobilityProfile)
    (G : grafo) :
  ((∃ n G', ponderar_grafo float_de_str perfil G = (Ok n, G')) ↔
   ∀ e d, arestas G !! e = Some d → aresta_ponderavel d) ∧
  (∀ ex G', ponderar_grafo float_de_str perfil G = (Raise ex, G') →
            classe ex = TypeError).
Proof.
  split; [split|].
  - intros (n & G' & H) e d Hd.
    apply ponderar_grafo_ok in H as (_ & Hin & _).
    destruct (Hin e d Hd) as (d' & Hd' & _).
    eapply ponderar_dados_is_Some. eauto.
  - intros H. apply ponderar_grafo_total. intros e d Hd.
    apply ponderar_dados_is_Some. eauto.
  - intros ex G'. unfold ponderar_grafo, bind, ler.
    apply for_acc_ponderar_classe.
    intros e He. by apply elem_of_G_edges_keys.
Qed.

Lemma ponderar_grafo_retorna_sse_ponderavel_witness :
  aresta_ponderavel aresta_cascalho.
Proof.
  apply (proj1 (proj1 (ponderar_grafo_retorna_sse_ponderavel
                         float_de_str_exemplo perfil_cadeirante grafo_cascalho))
           (ex_intro _ 1 (ex_intro _ _ eq_refl)) (1, 2, 0)%Z aresta_cascalho).
  reflexivity.
Defined.

(** *** Changing profile *)

Lemma fator_penalizacao_ext (float_de_str : string → option float)
    (perfil : MobilityProfile) (faixas : gset Z) (d d' : attrs) (u v : Z) :
  (∀ k, k ∈ etiquetas_lidas → d' !! k = d !! k) →
  fator_penalizacao float_de_str perfil faixas d' u v
  = fator_penalizacao float_de_str perfil faixas d u v.
Proof.
  intros H.
  assert (H1 := H "wheelchair"). assert (H2 := H "highway").
  assert (H3 := H "incline"). assert (H4 := H "ramp").
  assert (H5 := H "surface"). assert (H6 := H "width").
  unfold etiquetas_lidas in *. rewrite !elem_of_cons in *.
  unfold fator_penalizacao, passo_cadeira_de_rodas, passo_escadas,
    passo_inclinacao, passo_rampa, marcada_como_rampa, passo_superficie,
    passo_largura, dict_get.
  rewrite H1, H2, H3, H4, H5, H6 by tauto. reflexivity.
Qed.

Lemma identificar_faixas_pedestres_nos (G G' : grafo) :
  nos G' = nos G →
  identificar_faixas_pedestres G' = identificar_faixas_pedestres G.
Proof.
  unfold identificar_faixas_pedestres, G_nodes_data. by intros ->.
Qed.

Lemma nunca_ponderado_b_correto (G : grafo) :
  nunca_ponderado_b G = true → nunca_ponderado G.
Proof.
  unfold nunca_ponderado_b. rewrite forallb_forall. intros H e d Hd.
  specialize (H (e, d)). simpl in H.
  rewrite negb_true_iff, bool_decide_eq_false in H.
  destruct (d !! "length_original") eqn:E; [|done].
  exfalso. apply H; [|eauto].
  apply list_elem_of_In. by apply elem_of_map_to_list.
Qed.

(** The attributes of a never weighted edge after weighting and restoring:
    the cost it had, now written down twice. *)
Lemma restaurados_apos_ponderar (d : attrs) (w : float) :
  d !! "length_original" = None →
  dados_restaurados (dados_ponderados d w)
  = <["length" := custo_atual d]> (<["length_original" := custo_atual d]> d).
Proof.
  intros Hn. unfold dados_restaurados. rewrite dados_ponderados_original, Hn.
  simpl. unfold dados_ponderados, com_snapshot.
  rewrite bool_decide_eq_false_2 by (rewrite Hn; by intros [? ?]).
  apply insert_insert_eq.
Qed.

(** Property X4: on a graph no edge of which carries ['length_original'],
    weighting with one profile, restoring, and weighting with a second
    profile leaves exactly the graph that weighting with the second profile
    alone leaves. *)
Theorem trocar_de_perfil
    (float_de_str : string → option float) (perfil1 perfil2 : MobilityProfile)
    (G G1 G2 : grafo) (n1 : nat) :
  nunca_ponderado G →
  ponderar_grafo float_de_str perfil1 G = (Ok n1, G1) →
  restaurar_pesos_originais G1 = (Ok tt, G2) →
  ∃ n n' G', ponderar_grafo float_de_str perfil2 G = (Ok n, G') ∧
             ponderar_grafo float_de_str perfil2 G2 = (Ok n', G').
Proof.
  intros Hnovo Hp1 Hr.
  pose proof Hp1 as (Hn1 & Hin1 & Hout1)%ponderar_grafo_ok.
  destruct (restaurar_pesos_originais_ok G1) as (G2' & Hr' & Hn2 & Hl2).
  rewrite Hr in Hr'. injection Hr' as <-.
  assert (Hfx : identificar_faixas_pedestres G2 = identificar_faixas_pedestres G).
  { apply identificar_faixas_pedestres_nos. congruence. }
  (* every edge of G2, from the edge of G it comes from *)
  assert (HG2 : ∀ e, arestas G2 !! e
            = (λ d, <["length" := custo_atual d]>
                      (<["length_original" := custo_atual d]> d))
              <$> arestas G !! e).
  { intros e. rewrite Hl2. destruct (arestas G !! e) as [d|] eqn:Hd.
    - destruct (Hin1 e d Hd) as (d1 & (w & lim & _ & _ & ->)%ponderar_dados_Some
                                 & ->).
      simpl. f_equal. apply restaurados_apos_ponderar. eauto.
    - by rewrite (Hout1 e Hd). }
  assert (Hpond : ∀ e d, arestas G !! e = Some d → aresta_ponderavel d).
  { intros e d Hd. destruct (Hin1 e d Hd) as (d1 & Hd1 & _).
    eapply ponderar_dados_is_Some. eauto. }
  destruct (ponderar_grafo_total float_de_str perfil2 G) as (n & G' & Hp2).
  { intros e d Hd. apply ponderar_dados_is_Some. eauto. }
  assert (Hsame : ∀ e d, arestas G !! e = Some d →
            ponderar_dados float_de_str perfil2 (identificar_faixas_pedestres G2) e
              (<["length" := custo_atual d]>
                 (<["length_original" := custo_atual d]> d))
            = ponderar_dados float_de_str perfil2
                (identificar_faixas_pedestres G) e d).
  { intros e d Hd. rewrite Hfx.
    destruct (Hpond e d Hd) as (Hh & [base Hbase] & _).
    pose proof (Hnovo e d Hd) as Hnone.
    set (d2 := <["length" := custo_atual d]> _).
    assert (Hc2 : custo_atual d2 = custo_atual d).
    { unfold custo_atual at 1, dict_get, d2. by rewrite lookup_insert_eq. }
    assert (Hf : fator_penalizacao float_de_str perfil2
                   (identificar_faixas_pedestres G) d2 e.1.1 e.1.2
                 = fator_penalizacao float_de_str perfil2
                     (identificar_faixas_pedestres G) d e.1.1 e.1.2).
    { apply fator_penalizacao_ext. intros k Hk. unfold d2.
      unfold etiquetas_lidas in Hk. rewrite !elem_of_cons, elem_of_nil in Hk.
      rewrite !lookup_insert_ne; [done|..];
        intros <-; repeat (destruct Hk as [Hk|Hk]; [discriminate Hk|]); done. }
    assert (Hhw : dict_get d2 "highway" (PyStr "")
                  = dict_get d "highway" (PyStr "")).
    { unfold dict_get, d2. by rewrite !lookup_insert_ne. }
    unfold ponderar_dados, peso_esperado, limite_penalizada.
    rewrite Hhw, Hc2, Hf.
    replace (d2 !! "length_original") with (Some (custo_atual d))
      by (unfold d2; by rewrite lookup_insert_ne, lookup_insert_eq).
    rewrite Hnone. simpl.
    destruct (py_in _ _); [|done].
    destruct (py_mul_float (custo_atual d) (fator_penalizacao _ _ _ _ _ _))
      as [w|]; [|done].
    destruct (py_mul_float (custo_atual d) 1.5); [|done].
    f_equal. unfold dados_ponderados.
    assert (Hs : com_snapshot d = <["length_original" := custo_atual d]> d).
    { unfold com_snapshot.
      rewrite bool_decide_eq_false_2; [done|]. rewrite Hnone. by intros [? ?]. }
    assert (Hs2 : com_snapshot d2 = d2).
    { unfold com_snapshot. rewrite bool_decide_eq_true_2; [done|].
      unfold d2. rewrite lookup_insert_ne, lookup_insert_eq by done. eauto. }
    rewrite Hs, Hs2. unfold d2. apply insert_insert_eq. }
  destruct (ponderar_grafo_total float_de_str perfil2 G2) as (n' & G'' & Hp2').
  { intros e d2. rewrite HG2. destruct (arestas G !! e) as [d|] eqn:Hd; [|done].
    simpl. intros [= <-]. rewrite (Hsame e d Hd).
    apply ponderar_dados_is_Some. eauto. }
  exists n, n', G'. split; [done|]. rewrite Hp2'. f_equal.
  apply ponderar_grafo_ok in Hp2 as (Hn' & Hin' & Hout').
  apply ponderar_grafo_ok in Hp2' as (Hn'' & Hin'' & Hout'').
  apply grafo_eq; [congruence|]. intros e.
  destruct (arestas G !! e) as [d|] eqn:Hd.
  - destruct (Hin' e d Hd) as (d' & Hd' & ->).
    destruct (Hin'' e (<["length" := custo_atual d]>
                         (<["length_original" := custo_atual d]> d)))
      as (d'' & Hd'' & ->).
    { by rewrite HG2, Hd. }
    rewrite (Hsame e d Hd) in Hd''. congruence.
  - rewrite (Hout' e Hd). apply Hout''. by rewrite HG2, Hd.
Qed.

Lemma trocar_de_perfil_witness :
  ∃ n n' G',
    ponderar_grafo float_de_str_exemplo perfil_cadeirante grafo_cascalho
      = (Ok n, G') ∧
    ponderar_grafo float_de_str_exemplo perfil_cadeirante
      (restaurar_pesos_originais
         (ponderar_grafo float_de_str_exemplo perfil_cadeirante
            grafo_cascalho).2).2
      = (Ok n', G').
Proof.
  apply (trocar_de_perfil float_de_str_exemplo perfil_cadeirante
           perfil_cadeirante grafo_cascalho
           (ponderar_grafo float_de_str_exemplo perfil_cadeirante
              grafo_cascalho).2 _ 1).
  - apply nunca_ponderado_b_correto. vm_compute. reflexivity.
  - vm_compute. reflexivity.
  - vm_compute. reflexivity.
Defined.

(** *** Tags that do not parse *)

Lemma numero_da_etiqueta_ilegivel (float_de_str : string → option float)
    (unidade : ascii) (x : pyval) (ex : excecao) :
  valor_numerico float_de_str unidade x = Raise ex →
  numero_da_etiqueta float_de_str unidade (Some x) = None.
Proof.
  intros H. unfold numero_da_etiqueta. simpl default. rewrite H.
  by destruct (truthy (Some x)).
Qed.

(** Property X5: an ['incline'] or ['width'] tag from which no number can
    be read never makes [calcular_peso_aresta] fail and has no effect: the
    result is the one computed for the same edge without the tag. *)
Theorem etiqueta_ilegivel_e_ignorada
    (float_de_str : string → option float) (perfil : MobilityProfile)
    (faixas : gset Z) (G : grafo) (u v key : Z) (d : attrs)
    (k : string) (unidade : ascii) (x : pyval) (ex : excecao) :
  arestas G !! (u, v, key) = Some d →
  (k = "incline" ∧ unidade = "%"%char) ∨ (k = "width" ∧ unidade = "m"%char) →
  d !! k = Some x →
  valor_numerico float_de_str unidade x = Raise ex →
  (calcular_peso_aresta float_de_str u v key perfil faixas G).1
  = (calcular_peso_aresta float_de_str u v key perfil faixas
       (atualizar_aresta G (u, v, key) (delete k d))).1.
Proof.
  intros Hd Hk Hx Hv. rewrite !calcular_peso_aresta_eq. simpl.
  rewrite Hd, lookup_insert_eq.
  apply numero_da_etiqueta_ilegivel in Hv.
  unfold peso_esperado, custo_atual, fator_penalizacao,
    passo_cadeira_de_rodas, passo_escadas,
    passo_inclinacao, passo_rampa, marcada_como_rampa, passo_superficie,
    passo_largura, dict_get.
  destruct Hk as [[-> ->]|[-> ->]].
  - rewrite lookup_delete_eq, Hx, Hv, !lookup_delete_ne by done.
    reflexivity.
  - rewrite lookup_delete_eq, Hx, Hv, !lookup_delete_ne by done.
    by destruct (requer_acessibilidade perfil).
Qed.

Lemma etiqueta_ilegivel_e_ignorada_witness :
  (calcular_peso_aresta float_de_str_exemplo 1 2 0 perfil_cadeirante ∅
     grafo_inclinacao_ilegivel).1
  = (calcular_peso_aresta float_de_str_exemplo 1 2 0 perfil_cadeirante ∅
       (atualizar_aresta grafo_inclinacao_ilegivel (1, 2, 0)%Z
          (delete "incline" aresta_inclinacao_ilegivel))).1.
Proof.
  apply (etiqueta_ilegivel_e_ignorada float_de_str_exemplo perfil_cadeirante ∅
           grafo_inclinacao_ilegivel 1 2 0 aresta_inclinacao_ilegivel
           "incline" "%"%char (PyStr "up")
           (erro_valor "could not convert string to float")).
  - reflexivity.
  - left. split; reflexivity.
  - reflexivity.
  - reflexivity.
Defined.

(** ** route_calculator.py *)

(** *** A route in two parts *)

Lemma pares_consecutivos_app {A} (p q : list A) (a : A) :
  pares_consecutivos (p ++ a :: q)
  = pares_consecutivos (p ++ [a]) ++ pares_consecutivos (a :: q).
Proof.
  induction p as [|x p IH]; [done|].
  destruct p as [|y p]; simpl in *; [done|]. by rewrite IH.
Qed.

Lemma rfor_acc_app {A B} (l1 l2 : list A) (acc : B) (f : B → A → result B) :
  rfor_acc (l1 ++ l2) acc f
  = rbind (rfor_acc l1 acc f) (λ acc1, rfor_acc l2 acc1 f).
Proof.
  revert acc. induction l1 as [|x l1 IH]; intros acc; simpl; [done|].
  destruct (f acc x) as [acc1|e]; simpl; [apply IH|done].
Qed.

Lemma extrair_geometria_rota_eq (G : grafo) (rota_nodes : list Z) :
  extrair_geometria_rota G rota_nodes
  = rfor_acc (pares_consecutivos rota_nodes) []
      (λ pontos_rota '(u, v),
         rbind (pontos_do_trecho G u v) (λ pts, Ok (pontos_rota ++ pts))).
Proof.
  unfold extrair_geometria_rota.
  generalize (pares_consecutivos rota_nodes). intros l.
  set (f := λ (pontos_rota : list (pyval * pyval)) '(u, v), _).
  set (g := λ (pontos_rota : list (pyval * pyval)) '(u, v), _).
  enough (H : ∀ acc, rfor_acc l acc f = rfor_acc l acc g) by apply H.
  subst f g.
  induction l as [|[u v] l IH]; intros acc; simpl; [done|].
  unfold pontos_do_trecho.
  destruct (G_get_edge_data G u v) as [|[key d] resto]; simpl.
  { rewrite app_nil_r. apply IH. }
  destruct (truthy (d !! "geometry")).
  - destruct (py_coords _) as [cs|e]; simpl; [apply IH|done].
  - destruct (G_node_attr G u "y") as [yu|e]; simpl; [|done].
    destruct (G_node_attr G u "x") as [xu|e]; simpl; [|done].
    destruct (G_node_attr G v "y") as [yv|e]; simpl; [|done].
    destruct (G_node_attr G v "x") as [xv|e]; simpl; [|done].
    apply IH.
Qed.

Lemma rfor_acc_pontos (G : grafo) (l : list (Z * Z)) (acc : list (pyval * pyval)) :
  rfor_acc l acc
    (λ pontos_rota '(u, v),
       rbind (pontos_do_trecho G u v) (λ pts, Ok (pontos_rota ++ pts)))
  = rbind (rfor_acc l []
             (λ pontos_rota '(u, v),
                rbind (pontos_do_trecho G u v) (λ pts, Ok (pontos_rota ++ pts))))
          (λ r, Ok (acc ++ r)).
Proof.
  revert acc. induction l as [|[u v] l IH]; intros acc; simpl.
  { by rewrite app_nil_r. }
  destruct (pontos_do_trecho G u v) as [pts|e]; simpl; [|done].
  rewrite (IH (acc ++ pts)), (IH pts).
  destruct (rfor_acc l [] _) as [r|e]; simpl; [|done].
  by rewrite app_assoc.
Qed.

(** Property X6: the points of a route through a node [a] are the points
    of the part that ends at [a] followed by the points of the part that
    starts at [a]; the whole raises exactly when one of the parts does, the
    first part first. *)
Theorem extrair_geometria_rota_compoe (G : grafo) (p q : list Z) (a : Z) :
  extrair_geometria_rota G (p ++ a :: q)
  = rbind (extrair_geometria_rota G (p ++ [a])) (λ xs,
    rbind (extrair_geometria_rota G (a :: q)) (λ ys, Ok (xs ++ ys))).
Proof.
  rewrite !extrair_geometria_rota_eq, pares_consecutivos_app, rfor_acc_app.
  destruct (rfor_acc (pares_consecutivos (p ++ [a])) [] _) as [xs|e]; simpl;
    [|done].
  apply rfor_acc_pontos.
Qed.

(** *** Routes on graphs as OSMnx builds them *)

Lemma G_node_attr_posicionado (G : grafo) (n : Z) :
  no_posicionado G n →
  ∃ y x, G_node_attr G n "y" = Ok y ∧ G_node_attr G n "x" = Ok x ∧
         posicao G n = Some (y, x).
Proof.
  intros (dn & Hn & [x Hx] & [y Hy]). exists y, x.
  unfold G_node_attr, posicao. by rewrite Hn, Hx, Hy.
Qed.

Lemma G_get_edge_data_primeira (G : grafo) (u v key : Z) (d : attrs)
    (resto : list (Z * attrs)) :
  G_get_edge_data G u v = (key, d) :: resto →
  arestas G !! (u, v, key) = Some d.
Proof.
  intros H. apply G_get_edge_data_aresta. rewrite H. by left.
Qed.

Lemma pontos_do_trecho_desenhavel (G : grafo) (u v : Z) :
  grafo_desenhavel G → ∃ pts, pontos_do_trecho G u v = Ok pts.
Proof.
  intros Hg. unfold pontos_do_trecho.
  destruct (G_get_edge_data G u v) as [|[key d] resto] eqn:E; [eauto|].
  apply G_get_edge_data_primeira in E.
  destruct (Hg _ _ _ _ E) as (Hu & Hv & Hgeo).
  destruct (d !! "geometry") as [g|] eqn:Eg.
  - destruct (Hgeo g eq_refl) as [c ->]. simpl.
    destruct c; simpl; [|eauto].
    destruct (G_node_attr_posicionado G u Hu) as (yu & xu & -> & -> & _).
    destruct (G_node_attr_posicionado G v Hv) as (yv & xv & -> & -> & _).
    simpl. eauto.
  - simpl.
    destruct (G_node_attr_posicionado G u Hu) as (yu & xu & -> & -> & _).
    destruct (G_node_attr_posicionado G v Hv) as (yv & xv & -> & -> & _).
    simpl. eauto.
Qed.

Lemma pontos_do_trecho_reto (G : grafo) (u v : Z) :
  grafo_desenhavel G → sem_geometria G → G_get_edge_data G u v ≠ [] →
  ∃ pu pv, posicao G u = Some pu ∧ posicao G v = Some pv ∧
           pontos_do_trecho G u v = Ok [pu; pv].
Proof.
  intros Hg Hs Hne. unfold pontos_do_trecho.
  destruct (G_get_edge_data G u v) as [|[key d] resto] eqn:E; [done|].
  apply G_get_edge_data_primeira in E.
  destruct (Hg _ _ _ _ E) as (Hu & Hv & _). rewrite (Hs _ _ E). simpl.
  destruct (G_node_attr_posicionado G u Hu) as (yu & xu & -> & -> & ->).
  destruct (G_node_attr_posicionado G v Hv) as (yv & xv & -> & -> & ->).
  simpl. eauto.
Qed.

Lemma grafo_desenhavel_b_correto (G : grafo) :
  grafo_desenhavel_b G = true → grafo_desenhavel G.
Proof.
  unfold grafo_desenhavel_b. rewrite forallb_forall.
  intros H u v key d Hd. specialize (H ((u, v, key), d)). simpl in H.
  rewrite !andb_true_iff in H.
  destruct H as [[Hu Hv] Hg].
  { apply list_elem_of_In. by apply elem_of_map_to_list. }
  assert (Hpos : ∀ n,
            match nos G !! n with
            | Some dn => bool_decide (is_Some (dn !! "x"))
                         && bool_decide (is_Some (dn !! "y"))
            | None => false
            end = true → no_posicionado G n).
  { intros n Hn. unfold no_posicionado.
    destruct (nos G !! n) as [dn|]; [|done].
    rewrite andb_true_iff, !bool_decide_eq_true in Hn. exists dn. tauto. }
  split_and!; [by apply Hpos..|].
  intros g Hgeo. rewrite Hgeo in Hg. destruct g; try done. eauto.
Qed.

(** Property X7: on a graph whose edges join nodes that have ['x'] and
    ['y'] and whose edge geometries are lines, [extrair_geometria_rota]
    returns for every list of nodes, route or not; if moreover no edge has
    a geometry, the result lists, for each consecutive pair joined by an
    edge and in order, the position of the first node and then of the
    second, and pairs that no edge joins add nothing. *)
Theorem extrair_geometria_rota_desenhavel (G : grafo) (rota_nodes : list Z) :
  grafo_desenhavel G →
  ∃ pontos_rota,
    extrair_geometria_rota G rota_nodes = Ok pontos_rota ∧
    (sem_geometria G →
       Some <$> pontos_rota
         = flat_map (λ '(u, v), [posicao G u; posicao G v])
             (trechos_ligados G rota_nodes) ∧
       length pontos_rota = 2 * length (trechos_ligados G rota_nodes)).
Proof.
  intros Hg. rewrite extrair_geometria_rota_eq. unfold trechos_ligados.
  induction (pares_consecutivos rota_nodes) as [|[u v] l IH]; simpl.
  { exists []. split; [done|]. intros _. done. }
  destruct IH as (pts & Hpts & Hreto).
  destruct (pontos_do_trecho_desenhavel G u v Hg) as [ptsuv Huv].
  rewrite Huv. simpl. rewrite rfor_acc_pontos, Hpts. simpl.
  eexists. split; [done|]. intros Hs. destruct (Hreto Hs) as [Hr Hl].
  rewrite filter_cons.
  destruct (decide (G_get_edge_data G u v ≠ [])) as [Hne|He].
  - destruct (pontos_do_trecho_reto G u v Hg Hs Hne)
      as (pu & pv & Hpu & Hpv & Huv').
    rewrite Huv in Huv'. injection Huv' as ->.
    simpl. rewrite Hpu, Hpv, <- Hr, Hl. split; [done|lia].
  - assert (G_get_edge_data G u v = []) as Hnil
      by (destruct (G_get_edge_data G u v); [done|by destruct He]).
    unfold pontos_do_trecho in Huv. rewrite Hnil in Huv. injection Huv as <-.
    done.
Qed.

Lemma extrair_geometria_rota_desenhavel_witness :
  ∃ pontos_rota, extrair_geometria_rota grafo_tres_nos [1; 2; 3]%Z = Ok pontos_rota.
Proof.
  destruct (extrair_geometria_rota_desenhavel grafo_tres_nos [1; 2; 3]%Z)
    as (pts & H & _).
  - apply grafo_desenhavel_b_correto. vm_compute. reflexivity.
  - exists pts. exact H.
Defined.

Example extrair_geometria_rota_tres_nos :
  extrair_geometria_rota grafo_tres_nos [1; 2; 3]%Z
  = Ok [(PyFloat 0, PyFloat 0); (PyFloat 0, PyFloat 1);
        (PyFloat 0, PyFloat 1); (PyFloat 0.5, PyFloat 1.5);
        (PyFloat 1, PyFloat 1)]%float ∧
  extrair_geometria_rota grafo_tres_nos [3; 2; 1]%Z = Ok [].
Proof. split; vm_compute; reflexivity. Qed.

(** *** The route with its messages *)

Section CalcularRotaCompleta.

Variable nearest_nodes : grafo → float → float → result Z.
Variable shortest_path : grafo → Z → Z → result (list Z).
Variable shortest_path_length : grafo → Z → Z → result float.

(** Property X8: [calcular_rota_completa] never raises.  It shows the
    spinner text and, when the route is found, nothing else; when there is
    no path it adds the no-route error and the hint; on any other failure
    these two follow the error message of [calcular_rota], and the result
    is [(None, None)] in both cases. *)
Theorem calcular_rota_completa_mensagens
    (G : grafo) (origem destino : coord) (w : mundo) :
  calcular_rota_completa nearest_nodes shortest_path shortest_path_length
    G origem destino w
  = match rota_tentada nearest_nodes shortest_path shortest_path_length
            G origem destino with
    | Ok r => (Ok (Some r), mostrar_todas w [mensagem_spinner])
    | Raise e =>
        (Ok None,
         mostrar_todas w
           ([mensagem_spinner]
            ++ (if classe_eqb (classe e) NetworkXNoPath then []
                else [aviso_de_erro e])
            ++ [mensagem_sem_rota; mensagem_dica]))
    end.
Proof.
  unfold calcular_rota_completa, st_spinner, bind. rewrite calcular_rota_eq.
  destruct (rota_tentada _ _ _ _ _ _) as [[pts dist]|e]; [reflexivity|].
  destruct (classe_eqb (classe e) NetworkXNoPath);
    unfold st_error, st_info, ret, mostrar, mostrar_todas; simpl;
    rewrite <- ?app_assoc; reflexivity.
Qed.

End CalcularRotaCompleta.

(** *** A route between two positions that resolve to the same node *)

Section RotaCurta.

Variable nearest_nodes : grafo → float → float → result Z.
Variable shortest_path : grafo → Z → Z → result (list Z).
Variable shortest_path_length : grafo → Z → Z → result float.

(** Property X9: when the shortest path found has at most one node, as
    between two positions that resolve to the same node, [calcular_rota]
    returns an empty list of points with the distance, not [(None, None)],
    and [calcular_rota_completa] shows no error. *)
Theorem calcular_rota_sem_trechos (G : grafo) (origem destino : coord)
    (a b : Z) (rota_nodes : list Z) (distancia : float) (w : mundo) :
  nearest_nodes G (snd origem) (fst origem) = Ok a →
  nearest_nodes G (snd destino) (fst destino) = Ok b →
  shortest_path G a b = Ok rota_nodes →
  shortest_path_length G a b = Ok distancia →
  length rota_nodes ≤ 1 →
  calcular_rota nearest_nodes shortest_path shortest_path_length
    G origem destino w = (Ok (Some ([], distancia)), w) ∧
  calcular_rota_completa nearest_nodes shortest_path shortest_path_length
    G origem destino w
  = (Ok (Some ([], distancia)), mostrar_todas w [mensagem_spinner]).
Proof.
  intros Ha Hb Hp Hl Hlen.
  assert (Hr : rota_tentada nearest_nodes shortest_path shortest_path_length
                 G origem destino = Ok ([], distancia)).
  { unfold rota_tentada. rewrite Ha, Hb. simpl. rewrite Hp, Hl. simpl.
    destruct rota_nodes as [|x [|y l]]; simpl in Hlen; [done|done|lia]. }
  split.
  - by rewrite calcular_rota_eq, Hr.
  - unfold calcular_rota_completa, st_spinner, bind.
    by rewrite calcular_rota_eq, Hr.
Qed.

End RotaCurta.

Lemma calcular_rota_sem_trechos_witness :
  calcular_rota (λ _ _ _, Ok 1%Z) (λ _ _ _, Ok [1%Z]) (λ _ _ _, Ok 0%float)
    grafo_linha (0, 0)%float (0, 0)%float mundo_inicial
  = (Ok (Some ([], 0%float)), mundo_inicial).
Proof.
  apply (proj1 (calcular_rota_sem_trechos (λ _ _ _, Ok 1%Z)
           (λ _ _ _, Ok [1%Z]) (λ _ _ _, Ok 0%float)
           grafo_linha (0, 0)%float (0, 0)%float 1 1 [1%Z] 0%float
           mundo_inicial eq_refl eq_refl eq_refl eq_refl (le_n 1))).
Defined.

(** *** The GPX document and its points *)

Lemma string_app_cons (x : ascii) (a b : string) :
  String x a +:+ b = String x (a +:+ b).
Proof. reflexivity. Qed.

Lemma string_app_nil (b : string) : "" +:+ b = b.
Proof. reflexivity. Qed.

Lemma string_app_assoc (a b c : string) : (a +:+ b) +:+ c = a +:+ (b +:+ c).
Proof.
  induction a as [|x a IH]; [done|]. rewrite !string_app_cons. by f_equal.
Qed.

Lemma string_app_nil_r (a : string) : a +:+ "" = a.
Proof.
  induction a as [|x a IH]; [done|]. rewrite string_app_cons. by f_equal.
Qed.

Lemma contem_app (c : ascii) (a b : string) :
  contem c (a +:+ b) = contem c a || contem c b.
Proof.
  induction a as [|x a IH]; [done|]. rewrite string_app_cons. simpl.
  by rewrite IH, orb_assoc.
Qed.

Lemma linhas_app_nl (a b : string) :
  contem "010" a = false → linhas (a +:+ nl +:+ b) = a :: linhas b.
Proof.
  induction a as [|x a IH]; [done|]. rewrite string_app_cons. simpl.
  intros [Hx Ha]%orb_false_elim. rewrite Hx, (IH Ha). done.
Qed.

Lemma linhas_sem_nl (a : string) : contem "010" a = false → linhas a = [a].
Proof.
  induction a as [|x a IH]; simpl; [done|].
  intros [Hx Ha]%orb_false_elim. rewrite Hx, (IH Ha). done.
Qed.

Lemma tirar_prefixo_app (p s : string) : tirar_prefixo p (p +:+ s) = Some s.
Proof.
  induction p as [|a p IH]; [done|]. rewrite string_app_cons. simpl.
  by rewrite Ascii.eqb_refl.
Qed.

Lemma ler_ate_app (c : ascii) (a r : string) :
  contem c a = false → ler_ate c (a +:+ String c r) = Some (a, r).
Proof.
  induction a as [|x a IH].
  - intros _. rewrite string_app_nil. simpl. by rewrite Ascii.eqb_refl.
  - rewrite string_app_cons. simpl.
    intros [Hx Ha]%orb_false_elim. rewrite Hx, (IH Ha). done.
Qed.

Lemma ler_ate_aspas (a r : string) :
  contem "034" a = false → ler_ate "034" (a +:+ aspas +:+ r) = Some (a, r).
Proof. intros H. by apply ler_ate_app. Qed.

Section GerarGpxIdaEVolta.

Variable py_format : pyval → string.

Lemma gerar_gpx_laco (rota : list (pyval * pyval)) (acc : string) :
  foldl (λ gpx_track '(lat, lon),
           gpx_track +:+
           ("      <trkpt lat=" +:+ aspas +:+ py_format lat +:+ aspas
              +:+ " lon=" +:+ aspas +:+ py_format lon +:+ aspas
              +:+ "></trkpt>" +:+ nl))
        acc rota
  = acc +:+ foldr (λ p resto, linha_do_ponto py_format p +:+ nl +:+ resto) "" rota.
Proof.
  revert acc. induction rota as [|[lat lon] rota IH]; intros acc; simpl.
  - by rewrite string_app_nil_r.
  - rewrite IH, string_app_assoc. f_equal. unfold linha_do_ponto. simpl.
    rewrite !string_app_assoc. reflexivity.
Qed.

Lemma ler_ponto_linha (p : pyval * pyval) :
  contem "034" (py_format p.1) = false →
  contem "034" (py_format p.2) = false →
  ler_ponto (linha_do_ponto py_format p) = Some (py_format p.1, py_format p.2).
Proof.
  intros H1 H2. unfold ler_ponto, linha_do_ponto.
  rewrite <- string_app_assoc, tirar_prefixo_app.
  rewrite (ler_ate_aspas _ _ H1).
  rewrite <- string_app_assoc, tirar_prefixo_app.
  rewrite (ler_ate_aspas _ _ H2). reflexivity.
Qed.

Lemma linha_do_ponto_sem_nl (p : pyval * pyval) :
  contem "010" (py_format p.1) = false →
  contem "010" (py_format p.2) = false →
  contem "010" (linha_do_ponto py_format p) = false.
Proof.
  intros H1 H2. unfold linha_do_ponto.
  rewrite !contem_app, H1, H2. reflexivity.
Qed.

Lemma juntar_linhas_app (ls1 ls2 : list string) :
  juntar_linhas (ls1 ++ ls2) = juntar_linhas ls1 +:+ juntar_linhas ls2.
Proof.
  induction ls1 as [|l ls1 IH]; simpl; [done|].
  by rewrite IH, !string_app_assoc.
Qed.

Lemma linhas_juntar (ls : list string) (b : string) :
  Forall (λ l, contem "010" l = false) ls →
  linhas (juntar_linhas ls +:+ b) = ls ++ linhas b.
Proof.
  induction 1 as [|l ls Hl _ IH]; simpl; [done|].
  by rewrite !string_app_assoc, (linhas_app_nl _ _ Hl), IH.
Qed.

Lemma gerar_gpx_linhas (rota : list (pyval * pyval)) (nome_rota : string) :
  gerar_gpx py_format rota nome_rota
  = juntar_linhas
      (linhas_do_cabecalho
       ++ ["  <trk>"; "    <name>" +:+ nome_rota +:+ "</name>"; "    <trkseg>"]
       ++ map (linha_do_ponto py_format) rota
       ++ ["    </trkseg>"; "  </trk>"])
    +:+ "</gpx>".
Proof.
  unfold gerar_gpx. rewrite gerar_gpx_laco.
  replace (foldr (λ p resto, linha_do_ponto py_format p +:+ nl +:+ resto) "" rota)
    with (juntar_linhas (map (linha_do_ponto py_format) rota))
    by (induction rota as [|p rota IH]; simpl; [done|]; by rewrite IH).
  rewrite !juntar_linhas_app.
  generalize (juntar_linhas (map (linha_do_ponto py_format) rota)). intros corpo.
  replace gpx_header with (juntar_linhas linhas_do_cabecalho)
    by (vm_compute; reflexivity).
  generalize (juntar_linhas linhas_do_cabecalho). intros cabecalho.
  unfold juntar_linhas. simpl foldr.
  rewrite !string_app_assoc, !string_app_nil. reflexivity.
Qed.

(** Property X10: when the route name holds no line feed and the numbers,
    as formatted, hold neither a line feed nor a double quote, reading the
    track points of the document that [gerar_gpx] writes, line by line,
    gives back the route: as many points, in the same order, each with its
    latitude under [lat] and its longitude under [lon]. *)
Theorem gerar_gpx_ida_e_volta (rota : list (pyval * pyval))
    (nome_rota : string) :
  contem "010" nome_rota = false →
  (∀ p, p ∈ rota →
     contem "010" (py_format p.1) = false ∧
     contem "034" (py_format p.1) = false ∧
     contem "010" (py_format p.2) = false ∧
     contem "034" (py_format p.2) = false) →
  pontos_do_gpx (gerar_gpx py_format rota nome_rota)
  = map (λ p, (py_format p.1, py_format p.2)) rota.
Proof.
  intros Hnome Hrota. unfold pontos_do_gpx.
  rewrite gerar_gpx_linhas, linhas_juntar.
  2: { rewrite !Forall_app. split_and!.
       - repeat constructor.
       - repeat constructor. by rewrite !contem_app, Hnome.
       - apply Forall_forall. intros l (p & -> & Hp)%list_elem_of_fmap.
         destruct (Hrota p Hp) as (H1 & _ & H2 & _).
         by apply linha_do_ponto_sem_nl.
       - repeat constructor. }
  rewrite !omap_app.
  assert (H1 : omap ler_ponto linhas_do_cabecalho = [])
    by (vm_compute; reflexivity).
  assert (H2 : omap ler_ponto
                 ["  <trk>"; "    <name>" +:+ nome_rota +:+ "</name>";
                  "    <trkseg>"] = [])
    by (vm_compute; reflexivity).
  assert (H3 : omap ler_ponto ["    </trkseg>"; "  </trk>"] = [])
    by (vm_compute; reflexivity).
  assert (H4 : omap ler_ponto (linhas "</gpx>") = [])
    by (vm_compute; reflexivity).
  rewrite H1, H2, H3, H4, !app_nil_r. simpl. clear H1 H2 H3 H4.
  induction rota as [|p rota IH]; [done|]. csimpl.
  destruct (Hrota p) as (_ & H1 & _ & H2); [by left|].
  rewrite (ler_ponto_linha p H1 H2). f_equal. apply IH.
  intros q Hq. apply Hrota. by right.
Qed.

End GerarGpxIdaEVolta.

Lemma gerar_gpx_ida_e_volta_witness :
  pontos_do_gpx
    (gerar_gpx py_format_exemplo [(PyFloat 1.5, PyFloat 2.5)]%float "Rota")
  = [("1.5", "2.5")].
Proof.
  apply (gerar_gpx_ida_e_volta py_format_exemplo
           [(PyFloat 1.5, PyFloat 2.5)]%float "Rota").
  - reflexivity.
  - intros p Hp%list_elem_of_singleton. subst p.
    split_and!; vm_compute; reflexivity.
Defined.

(** ** benchmark_algoritmos.py *)

(** *** What the counting searches explore *)

Lemma heappop_resto (h r : list entrada) (x : entrada) :
  heappop h = Some (x, r) → ∀ y, y ∈ h → y = x ∨ y ∈ r.
Proof.
  revert x r. induction h as [|a h IH]; intros x r; simpl; [done|].
  destruct (heappop h) as [[m resto]|] eqn:E.
  - destruct (tupla_lt m a); intros [= <- <-] y [->|Hy]%elem_of_cons.
    + right. by left.
    + destruct (IH m resto eq_refl y Hy) as [->|?]; [by left|].
      right. by right.
    + by left.
    + by right.
  - intros [= <- <-] y [->|Hy]%elem_of_cons; [by left|].
    apply heappop_None in E as ->. by apply elem_of_nil in Hy.
Qed.

Section LacoBuscaAlcance.

Variable G : grafo.
Variable origem_id destino_id : Z.
Variable distancia_base : float → Z → gmap Z float → result float.
Variable prioridade : float → Z → result float.

Lemma explorar_vizinho_alcance (d : float) (u v : Z) (st st' : estado_busca) :
  explorar_vizinho G distancia_base prioridade d u st v = Ok st' →
  visitados st' = visitados st ∧
  (∀ x, x ∈ heap st → x ∈ heap st') ∧
  (∀ x, x ∈ heap st' → x ∈ heap st ∨ x.2 = v) ∧
  (∀ k, is_Some (dist st' !! k) →
        is_Some (dist st !! k) ∨ ∃ f, (f, k) ∈ heap st') ∧
  (∀ k, is_Some (dist st !! k) → is_Some (dist st' !! k)) ∧
  (v ∈ visitados st ∨ is_Some (dist st' !! v)).
Proof.
  unfold explorar_vizinho. case_bool_decide as Hv.
  { intros [= <-]. split_and!; eauto. }
  destruct (peso_minimo_paralelas G u v) as [pm|]; [|done]. simpl.
  destruct (distancia_base d u (dist st)) as [b|]; [|done]. simpl.
  destruct (dist st !! v) as [dv|] eqn:Edv.
  - destruct (b + pm <? dv)%float.
    + destruct (prioridade _ v) as [f|]; [|done]. simpl.
      intros [= <-]. simpl. split_and!; [done| | | | |].
      * intros x Hx. apply elem_of_app. by left.
      * intros x [Hx|Hx%list_elem_of_singleton]%elem_of_app; [by left|].
        subst x. by right.
      * intros k Hk. destruct (decide (k = v)) as [->|Hne].
        -- left. rewrite Edv. eauto.
        -- left. by rewrite lookup_insert_ne in Hk.
      * intros k Hk. destruct (decide (k = v)) as [->|Hne].
        -- rewrite lookup_insert_eq. eauto.
        -- by rewrite lookup_insert_ne.
      * right. rewrite lookup_insert_eq. eauto.
    + intros [= <-]. split_and!; eauto.
  - destruct (prioridade _ v) as [f|]; [|done]. simpl.
    intros [= <-]. simpl. split_and!; [done| | | | |].
    * intros x Hx. apply elem_of_app. by left.
    * intros x [Hx|Hx%list_elem_of_singleton]%elem_of_app; [by left|].
      subst x. by right.
    * intros k Hk. destruct (decide (k = v)) as [->|Hne].
      -- right. exists f. apply elem_of_app. right. by left.
      -- left. by rewrite lookup_insert_ne in Hk.
    * intros k Hk. destruct (decide (k = v)) as [->|Hne].
      -- rewrite lookup_insert_eq. eauto.
      -- by rewrite lookup_insert_ne.
    * right. rewrite lookup_insert_eq. eauto.
Qed.

Lemma explorar_vizinhos_alcance (d : float) (u : Z) (vs : list Z)
    (st st' : estado_busca) :
  rfor_acc vs st (explorar_vizinho G distancia_base prioridade d u) = Ok st' →
  visitados st' = visitados st ∧
  (∀ x, x ∈ heap st → x ∈ heap st') ∧
  (∀ x, x ∈ heap st' → x ∈ heap st ∨ x.2 ∈ vs) ∧
  (∀ k, is_Some (dist st' !! k) →
        is_Some (dist st !! k) ∨ ∃ f, (f, k) ∈ heap st') ∧
  (∀ k, is_Some (dist st !! k) → is_Some (dist st' !! k)) ∧
  (∀ v, v ∈ vs → v ∈ visitados st ∨ is_Some (dist st' !! v)).
Proof.
  revert st. induction vs as [|v vs IH]; intros st; simpl.
  { intros [= <-]. split_and!; eauto. intros v Hv. by apply elem_of_nil in Hv. }
  destruct (explorar_vizinho _ _ _ d u st v) as [st1|] eqn:E1; [|done]. simpl.
  intros H. apply IH in H as (Hvis & Hsub & Hnew & Hd & Hmono & Hvs).
  apply explorar_vizinho_alcance in E1
    as (Hvis1 & Hsub1 & Hnew1 & Hd1 & Hmono1 & Hv1).
  split_and!.
  - congruence.
  - eauto.
  - intros x Hx. destruct (Hnew x Hx) as [Hx1|Hx1]; [|right; by right].
    destruct (Hnew1 x Hx1) as [?|<-]; [by left|]. right. by left.
  - intros k Hk. destruct (Hd k Hk) as [Hk1|?]; [|by right].
    destruct (Hd1 k Hk1) as [?|[f Hf]]; [by left|]. right. eauto.
  - eauto.
  - intros v' [->|Hv']%elem_of_cons.
    + destruct Hv1 as [?|?]; [by left|]. right. eauto.
    + rewrite <- Hvis1. eauto.
Qed.

Lemma alcancavel_passo (u v : Z) :
  alcancavel G origem_id u → adjacente G u v → alcancavel G origem_id v.
Proof. intros [p Hp] Hadj. exists (p ++ [v]). by apply caminho_passo with u. Qed.

Lemma laco_busca_alcance (fuel : nat) (st st' : estado_busca) :
  laco_busca G destino_id distancia_base prioridade fuel st = Some (Ok st') →
  invariante_de_alcance G origem_id st →
  destino_id ∉ visitados st →
  (∀ u, u ∈ visitados st' → alcancavel G origem_id u) ∧
  (∀ u, u ∈ visitados st' → u ≠ destino_id → is_Some (nos G !! u)) ∧
  (destino_id ∉ visitados st' →
     ∀ u v, u ∈ visitados st' → adjacente G u v → v ∈ visitados st').
Proof.
  revert st. induction fuel as [|fuel IH]; intros st; [done|]. simpl.
  destruct (heappop (heap st)) as [[[d u] h']|] eqn:Ep.
  2: { intros [= <-] (J1 & J2 & J3 & J4) Hd. apply heappop_None in Ep.
       split_and!.
       - intros u Hu. by apply J2.
       - intros u Hu _. by apply J2.
       - intros _ u v Hu Hadj. destruct (J3 u v Hu Hadj) as [?|[f Hf]]; [done|].
         rewrite Ep in Hf. by apply elem_of_nil in Hf. }
  pose proof (heappop_resto _ _ _ Ep) as Hresto.
  apply heappop_Some in Ep as (Hin & Hsub & _).
  intros H (J1 & J2 & J3 & J4) Hd.
  assert (Hmove : ∀ v, (v ∈ visitados st ∨ ∃ f, (f, v) ∈ heap st) →
            v ∈ {[u]} ∪ visitados st ∨ ∃ f, (f, v) ∈ h').
  { intros v [Hv|[f Hf]]; [left; apply elem_of_union; by right|].
    destruct (Hresto _ Hf) as [[= -> ->]|Hf']; [|eauto].
    left. apply elem_of_union. left. by apply elem_of_singleton. }
  case_bool_decide as Hu.
  - apply IH in H; [done| |done]. split_and!; simpl.
    + intros x Hx. by apply J1, Hsub.
    + done.
    + intros u' v Hu' Hadj.
      destruct (Hmove v (J3 u' v Hu' Hadj)) as [[Hs|Hv]%elem_of_union|?];
        [|by left|by right].
      apply elem_of_singleton in Hs. subst v. by left.
    + intros v Hv.
      destruct (Hmove v (J4 v Hv)) as [[Hs|Hv']%elem_of_union|?];
        [|by left|by right].
      apply elem_of_singleton in Hs. subst v. by left.
  - pose proof (J1 _ Hin) as Hru. simpl in Hru.
    case_bool_decide as Hdest.
    + injection H as <-. simpl. split_and!.
      * intros u' [Hs|Hv]%elem_of_union; [|by apply J2].
        apply elem_of_singleton in Hs. by subst u'.
      * intros u' [Hs|Hv]%elem_of_union Hne; [|by apply J2].
        apply elem_of_singleton in Hs. congruence.
      * intros Hn. exfalso. apply Hn, elem_of_union. left.
        by apply elem_of_singleton.
    + destruct (G_neighbors G u) as [vs|] eqn:Ev; simpl in H; [|done].
      destruct (rfor_acc vs _ _) as [st2|] eqn:E2; [|done].
      apply explorar_vizinhos_alcance in E2
        as (Hvis & Hsub2 & Hnew & Hd2 & Hmono & Hvs).
      simpl in *.
      assert (Hnu : is_Some (nos G !! u)).
      { unfold G_neighbors in Ev. by case_bool_decide. }
      assert (J4' : ∀ v, is_Some (dist st2 !! v) →
                 v ∈ visitados st2 ∨ ∃ f, (f, v) ∈ heap st2).
      { intros v Hv. rewrite Hvis.
        destruct (Hd2 v Hv) as [Hv1|?]; [|by right].
        destruct (Hmove v (J4 v Hv1)) as [?|[f Hf]]; [by left|].
        right. exists f. by apply Hsub2. }
      apply IH in H; [done| |].
      * split_and!.
        -- intros x Hx. destruct (Hnew x Hx) as [Hx1|Hx1].
           ++ by apply J1, Hsub.
           ++ apply alcancavel_passo with u; [done|]. by exists vs.
        -- intros u'. rewrite Hvis. intros [Hs|Hv]%elem_of_union;
             [|by apply J2].
           apply elem_of_singleton in Hs. by subst u'.
        -- intros u' v. rewrite Hvis.
           intros [Hs|Hu']%elem_of_union Hadj.
           ++ apply elem_of_singleton in Hs. subst u'.
              destruct Hadj as (vs' & Hvs' & Hv). rewrite Ev in Hvs'.
              injection Hvs' as <-.
              destruct (Hvs v Hv) as [?|Hdv]; [by left|].
              rewrite <- Hvis. by apply J4'.
           ++ destruct (Hmove v (J3 u' v Hu' Hadj)) as [?|[f Hf]]; [by left|].
              right. exists f. by apply Hsub2.
        -- done.
      * rewrite Hvis. intros [Hs|Hv]%elem_of_union; [|done].
        apply elem_of_singleton in Hs. congruence.
Qed.

End LacoBuscaAlcance.

Lemma invariante_de_alcance_inicial (G : grafo) (o : Z) :
  invariante_de_alcance G o (estado_inicial o).
Proof.
  split_and!; simpl.
  - intros x Hx%list_elem_of_singleton. subst x. exists [o]. apply caminho_origem.
  - intros u Hu. by apply not_elem_of_empty in Hu.
  - intros u v Hu. by apply not_elem_of_empty in Hu.
  - intros v [x Hv]. right. exists 0%float.
    apply lookup_singleton_Some in Hv as [<- _]. by left.
Qed.

Lemma alcancavel_fechado (G : grafo) (o v : Z) (S : gset Z) :
  o ∈ S → (∀ u w, u ∈ S → adjacente G u w → w ∈ S) →
  alcancavel G o v → v ∈ S.
Proof.
  intros Ho Hf [p Hp]. induction Hp as [|u v p _ IH Hadj]; [done|].
  by apply (Hf u).
Qed.

(** Every search that returns has explored what the origin reaches. *)
Lemma busca_alcance (G : grafo) (o d : Z)
    (base : float → Z → gmap Z float → result float)
    (prio : float → Z → result float) (st : estado_busca) :
  laco_busca G d base prio (combustivel G) (estado_inicial o) = Some (Ok st) →
  explorou_o_alcancavel G o d st ∧
  (∀ u, u ∈ explorados st → u ≠ d → is_Some (nos G !! u)).
Proof.
  intros H.
  destruct (busca_generica G o d base prio) as (r & Hr & Hc).
  rewrite H in Hr. injection Hr as <-. simpl in Hc.
  destruct Hc as (_ & He & Ho & _).
  apply (laco_busca_alcance G o) in H as (Hreach & Hnos & Hclosed);
    [|apply invariante_de_alcance_inicial|apply not_elem_of_empty].
  unfold explorou_o_alcancavel. rewrite He. split; [|done]. split_and!.
  - done.
  - split; [apply Hreach|]. intros Hd.
    destruct (decide (d ∈ visitados st)) as [?|Hn]; [done|].
    apply (alcancavel_fechado G o); [done| |done]. by apply Hclosed.
  - intros Hd u. split; [apply Hreach|].
    assert (Hn : d ∉ visitados st) by (intros ?; by apply Hd, Hreach).
    apply alcancavel_fechado; [done|]. by apply Hclosed.
Qed.

(** Property X11: when a counting search returns, every node it explored
    can be reached from the origin, and the destination is among them
    exactly when it can be reached; when it cannot, the explored nodes are
    all the nodes the origin reaches, so Dijkstra and A* return the same
    count. *)
Theorem buscas_exploram_o_alcancavel (G : grafo) (origem_id destino_id : Z)
    (h : heuristica) (sd sa : estado_busca) :
  (busca_dijkstra G origem_id destino_id = Some (Ok sd) →
   contar_nos_dijkstra G origem_id destino_id = size (explorados sd) ∧
   explorou_o_alcancavel G origem_id destino_id sd) ∧
  (busca_astar h G origem_id destino_id = Some (Ok sa) →
   contar_nos_astar (Ok h) G origem_id destino_id = size (explorados sa) ∧
   explorou_o_alcancavel G origem_id destino_id sa) ∧
  (busca_dijkstra G origem_id destino_id = Some (Ok sd) →
   busca_astar h G origem_id destino_id = Some (Ok sa) →
   ¬ alcancavel G origem_id destino_id →
   contar_nos_dijkstra G origem_id destino_id
   = contar_nos_astar (Ok h) G origem_id destino_id).
Proof.
  split_and!.
  - intros H. split.
    + unfold contar_nos_dijkstra. by rewrite H.
    + by apply busca_alcance in H as [? _].
  - intros H. split.
    + unfold contar_nos_astar. by rewrite H.
    + by apply busca_alcance in H as [? _].
  - intros Hd Ha Hn. unfold contar_nos_dijkstra, contar_nos_astar.
    rewrite Hd, Ha. simpl.
    apply busca_alcance in Hd as [(_ & _ & Hd) _].
    apply busca_alcance in Ha as [(_ & _ & Ha) _].
    f_equal. apply set_eq. intros u. rewrite (Hd Hn), (Ha Hn). done.
Qed.

Lemma nao_alcancavel_ilha : ¬ alcancavel grafo_com_ilha 1 3.
Proof.
  intros H.
  apply (alcancavel_fechado grafo_com_ilha 1 3 {[1%Z; 2%Z]}) in H.
  - apply elem_of_union in H as [H|H]; apply elem_of_singleton in H; done.
  - apply elem_of_union. left. by apply elem_of_singleton.
  - intros u w Hu (vs & Hvs & Hw).
    apply elem_of_union in Hu as [Hu|Hu]; apply elem_of_singleton in Hu;
      subst u; vm_compute in Hvs; injection Hvs as <-;
      apply list_elem_of_singleton in Hw; subst w.
    + apply elem_of_union. right. by apply elem_of_singleton.
    + apply elem_of_union. left. by apply elem_of_singleton.
Qed.

Lemma buscas_exploram_o_alcancavel_witness :
  contar_nos_dijkstra grafo_com_ilha 1 3
  = contar_nos_astar (Ok (λ _ _ _, Ok 0%float)) grafo_com_ilha 1 3.
Proof.
  apply (proj2 (proj2 (buscas_exploram_o_alcancavel grafo_com_ilha 1 3
           (λ _ _ _, Ok 0%float)
           (match busca_dijkstra grafo_com_ilha 1 3 with
            | Some (Ok s) => s
            | _ => estado_inicial 1
            end)
           (match busca_astar (λ _ _ _, Ok 0%float) grafo_com_ilha 1 3 with
            | Some (Ok s) => s
            | _ => estado_inicial 1
            end)))).
  - vm_compute. reflexivity.
  - vm_compute. reflexivity.
  - exact nao_alcancavel_ilha.
Defined.

(** *** The count is bounded by the graph *)

Lemma alcancavel_e_no (G : grafo) (o v : Z) :
  grafo_bem_formado G → is_Some (nos G !! o) → alcancavel G o v →
  is_Some (nos G !! v).
Proof.
  intros Hwf Ho [p Hp]. induction Hp as [|u v p _ IH (vs & Hvs & Hv)]; [done|].
  destruct (G_neighbors_aresta G u v vs Hvs Hv) as (_ & key & d & Hd).
  by apply Hwf in Hd as (_ & ? & _).
Qed.

Lemma contagem_limitada (G : grafo) (o d : Z)
    (base : float → Z → gmap Z float → result float)
    (prio : float → Z → result float) :
  grafo_bem_formado G → is_Some (nos G !! o) →
  contagem (laco_busca G d base prio (combustivel G) (estado_inicial o))
  ≤ size (nos G).
Proof.
  intros Hwf Ho.
  destruct (laco_busca _ _ _ _ _ _) as [[st|e]|] eqn:E; simpl; [|lia..].
  apply busca_alcance in E as [(Hr & _ & _) _].
  rewrite <- size_dom. apply subseteq_size. intros u Hu.
  apply elem_of_dom. eapply alcancavel_e_no; eauto.
Qed.

(** Property X12: on a well-formed graph, from an origin that is a node,
    neither search counts more nodes than the graph has. *)
Theorem contagem_limitada_pelos_nos (G : grafo) (origem_id destino_id : Z)
    (heuristica_astar : result heuristica) :
  grafo_bem_formado G → is_Some (nos G !! origem_id) →
  contar_nos_dijkstra G origem_id destino_id ≤ size (nos G) ∧
  contar_nos_astar heuristica_astar G origem_id destino_id ≤ size (nos G).
Proof.
  intros Hwf Ho. split.
  - by apply contagem_limitada.
  - destruct heuristica_astar as [h|e]; simpl; [|lia].
    by apply contagem_limitada.
Qed.

Lemma contagem_limitada_pelos_nos_witness :
  contar_nos_dijkstra grafo_linha 1 4 ≤ size (nos grafo_linha) ∧
  contar_nos_astar (Ok (λ _ _ _, Ok 0%float)) grafo_linha 1 4
  ≤ size (nos grafo_linha).
Proof.
  apply (contagem_limitada_pelos_nos grafo_linha 1 4).
  - apply grafo_bem_formado_b_correto. vm_compute. reflexivity.
  - vm_compute. eauto.
Defined.

(** *** Degenerate searches *)

(** Property X13: [contar_nos_dijkstra] returns 1 for a search from a
    node to itself, whatever the graph, even one that does not hold the
    node; [contar_nos_astar] returns 1 there when its import of the
    heuristic succeeds and 0 when it fails, as it does against
    [route_calculator.py]; a search that starts outside the graph towards
    another node counts 0 in both. *)
Theorem contagem_em_casos_limite (G : grafo) (origem_id destino_id : Z)
    (heuristica_astar : result heuristica) (h : heuristica) :
  contar_nos_dijkstra G origem_id origem_id = 1 ∧
  contar_nos_astar heuristica_astar G origem_id origem_id
  = match heuristica_astar with Ok _ => 1 | Raise _ => 0 end ∧
  contar_nos_astar (importar_heuristica h) G origem_id origem_id = 0 ∧
  (nos G !! origem_id = None → origem_id ≠ destino_id →
   contar_nos_dijkstra G origem_id destino_id = 0 ∧
   contar_nos_astar heuristica_astar G origem_id destino_id = 0).
Proof.
  assert (H1 : ∀ base prio,
            contagem (laco_busca G origem_id base prio (combustivel G)
                        (estado_inicial origem_id)) = 1).
  { intros base prio. unfold combustivel.
    cbn [laco_busca heappop heap estado_inicial visitados explorados dist].
    rewrite bool_decide_eq_false_2 by apply not_elem_of_empty.
    rewrite bool_decide_eq_true_2 by done.
    cbn [contagem explorados]. rewrite union_empty_r_L. apply size_singleton. }
  assert (H0 : ∀ base prio, nos G !! origem_id = None →
            origem_id ≠ destino_id →
            contagem (laco_busca G destino_id base prio (combustivel G)
                        (estado_inicial origem_id)) = 0).
  { intros base prio Hn Hne. unfold combustivel.
    cbn [laco_busca heappop heap estado_inicial visitados explorados dist].
    rewrite bool_decide_eq_false_2 by apply not_elem_of_empty.
    rewrite bool_decide_eq_false_2 by done.
    unfold G_neighbors. rewrite Hn.
    rewrite bool_decide_eq_false_2 by (by intros [? ?]). reflexivity. }
  split_and!.
  - apply H1.
  - destruct heuristica_astar as [h'|e]; [apply H1|reflexivity].
  - reflexivity.
  - intros Hn Hne. split; [by apply H0|].
    destruct heuristica_astar as [h'|e]; [by apply H0|reflexivity].
Qed.

Lemma contagem_em_casos_limite_witness :
  contar_nos_dijkstra grafo_vazio 1 2 = 0 ∧
  contar_nos_astar (Ok heuristica_nula) grafo_vazio 1 2 = 0.
Proof.
  apply (proj2 (proj2 (proj2 (contagem_em_casos_limite grafo_vazio 1 2
                                (Ok heuristica_nula) heuristica_nula)))).
  - reflexivity.
  - discriminate.
Defined.

(** *** Searching a weighted graph *)

Lemma sem_repetidos_elem (l : list Z) (x : Z) : x ∈ l → x ∈ sem_repetidos l.
Proof.
  induction l as [|a l IH]; simpl; [done|].
  intros [->|Hx]%elem_of_cons.
  - case_bool_decide; [by apply IH|by left].
  - case_bool_decide; [by apply IH|]. right. by apply IH.
Qed.

Lemma G_neighbors_elem (G : grafo) (u v key : Z) (d : attrs) :
  is_Some (nos G !! u) → arestas G !! (u, v, key) = Some d →
  ∃ vs, G_neighbors G u = Ok vs ∧ v ∈ vs.
Proof.
  intros Hu Hd. unfold G_neighbors. rewrite bool_decide_eq_true_2 by done.
  eexists. split; [done|]. apply sem_repetidos_elem.
  apply list_elem_of_omap. exists ((u, v, key), d). split.
  - by apply elem_of_map_to_list.
  - by rewrite bool_decide_eq_true_2.
Qed.

Lemma adjacente_arestas (G : grafo) (u v : Z) :
  adjacente G u v ↔
  is_Some (nos G !! u) ∧ ∃ key, is_Some (arestas G !! (u, v, key)).
Proof.
  split.
  - intros (vs & Hvs & Hv).
    destruct (G_neighbors_aresta G u v vs Hvs Hv) as (Hu & key & d & Hd).
    eauto.
  - intros (Hu & key & d & Hd). by apply (G_neighbors_elem G u v key d).
Qed.

Lemma mesmo_quadro_adjacente (G G' : grafo) (u v : Z) :
  mesmo_quadro G G' → adjacente G' u v ↔ adjacente G u v.
Proof.
  intros [Hn He]. rewrite !adjacente_arestas, Hn.
  split; intros (Hu & key & Hk); (split; [done|]); exists key;
    specialize (He (u, v, key));
    destruct (arestas G !! (u, v, key)), (arestas G' !! (u, v, key));
    try done; by destruct Hk.
Qed.

Lemma mesmo_quadro_alcancavel (G G' : grafo) (o v : Z) :
  mesmo_quadro G G' → alcancavel G' o v ↔ alcancavel G o v.
Proof.
  intros Hq. split; intros [p Hp].
  - induction Hp as [|u v p _ IH Hadj]; [exists [o]; apply caminho_origem|].
    destruct IH as [q Hq']. exists (q ++ [v]).
    apply caminho_passo with u; [done|]. by apply (mesmo_quadro_adjacente G G').
  - induction Hp as [|u v p _ IH Hadj]; [exists [o]; apply caminho_origem|].
    destruct IH as [q Hq']. exists (q ++ [v]).
    apply caminho_passo with u; [done|]. by apply (mesmo_quadro_adjacente G G').
Qed.

Lemma mesmo_quadro_ponderar_grafo (float_de_str : string → option float)
    (perfil : MobilityProfile) (G : grafo) :
  mesmo_quadro G (ponderar_grafo float_de_str perfil G).2.
Proof.
  unfold ponderar_grafo.
  apply (preserva_bind ler); [apply preserva_ler|]. intros G0.
  apply preserva_for_acc. intros acc e. apply preserva_ponderar_aresta.
Qed.

Lemma arestas_entre_nos_b_correto (G : grafo) :
  arestas_entre_nos_b G = true → arestas_entre_nos G.
Proof.
  unfold arestas_entre_nos_b. rewrite forallb_forall.
  intros H u v key d Hd. specialize (H ((u, v, key), d)). simpl in H.
  rewrite andb_true_iff, !bool_decide_eq_true in H. apply H.
  apply list_elem_of_In. by apply elem_of_map_to_list.
Qed.

(** Property X14: on a graph whose edges join nodes of the graph, once
    [ponderar_grafo] has returned the weighted graph is well-formed, so the
    Dijkstra count from any node raises nothing and lies between 1 and the
    number of nodes; and the nodes that can be reached from the origin are
    those that could be reached before the weighting. *)
Theorem busca_apos_ponderar
    (float_de_str : string → option float) (perfil : MobilityProfile)
    (G G' : grafo) (n : nat) (origem_id destino_id : Z) :
  arestas_entre_nos G →
  ponderar_grafo float_de_str perfil G = (Ok n, G') →
  is_Some (nos G !! origem_id) →
  grafo_bem_formado G' ∧
  (∃ st, busca_dijkstra G' origem_id destino_id = Some (Ok st)) ∧
  1 ≤ contar_nos_dijkstra G' origem_id destino_id ≤ size (nos G) ∧
  (∀ v, alcancavel G' origem_id v ↔ alcancavel G origem_id v).
Proof.
  intros Hnos Hp Ho.
  pose proof (mesmo_quadro_ponderar_grafo float_de_str perfil G) as Hq.
  rewrite Hp in Hq. simpl in Hq.
  pose proof Hp as (Hn & Hin & Hout)%ponderar_grafo_ok.
  assert (Hwf : grafo_bem_formado G').
  { intros u v key d' Hd'.
    destruct (arestas G !! (u, v, key)) as [d|] eqn:Hd.
    2: { rewrite (Hout _ Hd) in Hd'. discriminate. }
    destruct (Hnos _ _ _ _ Hd) as [Hu Hv]. rewrite Hn. split_and!; [done..|].
    destruct (Hin _ _ Hd) as (d1 & (w & lim & _ & _ & ->)%ponderar_dados_Some
                              & Hd1).
    rewrite Hd' in Hd1. injection Hd1 as ->. exists w.
    unfold custo_atual, dict_get. by rewrite dados_ponderados_length. }
  assert (Ho' : is_Some (nos G' !! origem_id)) by (by rewrite Hn).
  split_and!.
  - done.
  - apply busca_generica_sem_excecao; eauto.
  - destruct (busca_generica G' origem_id destino_id
                (λ d _ _, Ok d) (λ nova_dist _, Ok nova_dist))
      as (r & Hr & Hc).
    destruct (busca_generica_sem_excecao G' origem_id destino_id
                (λ d _ _, Ok d) (λ nova_dist _, Ok nova_dist))
      as [st Hst]; eauto.
    rewrite Hst in Hr. injection Hr as <-. simpl in Hc.
    unfold contar_nos_dijkstra, busca_dijkstra. rewrite Hst. simpl.
    by destruct Hc as (_ & _ & _ & ? & _).
  - rewrite <- Hn. by apply contagem_limitada.
  - intros v. by apply mesmo_quadro_alcancavel.
Qed.

Lemma busca_apos_ponderar_witness :
  ∃ st, busca_dijkstra
          (ponderar_grafo float_de_str_exemplo perfil_cadeirante grafo_linha).2
          1 4 = Some (Ok st).
Proof.
  apply (busca_apos_ponderar float_de_str_exemplo perfil_cadeirante grafo_linha
           (ponderar_grafo float_de_str_exemplo perfil_cadeirante grafo_linha).2
           0 1 4).
  - apply arestas_entre_nos_b_correto. vm_compute. reflexivity.
  - vm_compute. reflexivity.
  - vm_compute. eauto.
Defined.

(** *** Measurements *)

Lemma py_min_foldl_elem (x : float) (l : list float) :
  foldl (λ m y, if (y <? m)%float then y else m) x l ∈ x :: l.
Proof.
  revert x. induction l as [|y l IH]; intros x; simpl; [by left|].
  destruct (y <? x)%float.
  - rewrite elem_of_cons. right. apply IH.
  - pose proof (IH x) as Hx. rewrite !elem_of_cons in *. tauto.
Qed.

Lemma py_min_observado (l : list float) (m : float) :
  py_min l = Ok m → m ∈ l.
Proof.
  destruct l as [|x l]; [done|]. intros [= <-]. apply py_min_foldl_elem.
Qed.

Lemma py_max_Ok (l : list float) (m : float) : py_max l = Ok m → m ∈ l.
Proof.
  destruct l as [|x l]; [done|]. intros [= <-]. apply py_max_foldl_elem.
Qed.

Section MedicaoBemSucedida.

Variable relogio : nat → float.
Variable nearest_nodes : grafo → float → float → result Z.
Variable has_path : grafo → Z → Z → result bool.
Variable calcular_rota_alg :
  grafo → coord → coord → string → M mundo (option rota).
Variable heuristica_astar : result heuristica.
Variable statistics_mean : list float → result float.
Variable statistics_median : list float → result float.
Variable statistics_stdev : list float → result float.
Variable random_sample : nat → list string → result (string * string).
Variable math_cos : float → float.
Variable math_pow : float → float → float.

Variable G : grafo.

Lemma medicoes_Some (origem_p destino_p : coord) (alg : string) (n : nat)
    (tempos ts : list float) (final fin : option rota) (w w' : mundo) :
  medicoes relogio calcular_rota_alg G origem_p destino_p alg n tempos final w
    = (Ok (Some (ts, fin)), w') →
  length ts = length tempos + n ∧
  (0 < n → ∃ r, fin = Some r) ∧ (n = 0 → fin = final).
Proof.
  revert tempos final w. induction n as [|n IH]; intros tempos final w; simpl.
  - unfold ret. intros [= <- <- <-]. split_and!; [lia|lia|done].
  - unfold bind.
    destruct (invocacao_cronometrada _ _ _ _ _ _ w) as [[[r t]|e] w1]; [|done].
    simpl. destruct r as [[pontos distancia]|]; [|done].
    intros H. apply IH in H as (Hl & Hpos & Hzero).
    rewrite length_app in Hl. simpl in Hl. split_and!; [lia| |lia].
    intros _. destruct n as [|n]; [|apply Hpos; lia].
    rewrite Hzero by done. eauto.
Qed.

Lemma medir_algoritmo_completo_algoritmo (origem_p destino_p : coord)
    (alg : string) (repeticoes warmup : nat) (w w' : mundo)
    (m : MedicaoAlgoritmo) :
  medir_algoritmo_completo relogio nearest_nodes calcular_rota_alg
    heuristica_astar statistics_mean statistics_median statistics_stdev
    G origem_p destino_p alg repeticoes warmup w = (Ok m, w') →
  algoritmo m = alg.
Proof.
  unfold medir_algoritmo_completo, try_except_Exception, bind, lift, ret.
  destruct (nearest_nodes G origem_p.2 origem_p.1) as [a|];
    [|by intros [= <- <-]].
  destruct (nearest_nodes G destino_p.2 destino_p.1) as [b|];
    [|by intros [= <- <-]].
  destruct (for_acc _ _ _ w) as [[[]|] w1]; [|by intros [= <- <-]].
  destruct (medicoes _ _ _ _ _ _ _ _ _ w1) as [[[[ts fin]|]|] w2];
    [|by intros [= <- <-]..].
  unfold medicao_sucesso.
  destruct (statistics_mean ts); simpl; [|by intros [= <- <-]].
  destruct (statistics_median ts); simpl; [|by intros [= <- <-]].
  destruct (py_min ts); simpl; [|by intros [= <- <-]].
  destruct (py_max ts); simpl; [|by intros [= <- <-]].
  destruct (if (1 <? length ts)%nat then _ else _); simpl;
    [|by intros [= <- <-]].
  destruct (percentil_95 ts); simpl; [|by intros [= <- <-]].
  destruct (percentil_99 ts); simpl; [|by intros [= <- <-]].
  destruct fin as [[pf df]|]; by intros [= <- <-].
Qed.

(** Property X15: a successful measurement carries no error text and
    exactly [repeticoes] timings, of which there is at least one; its
    minimum and maximum are among the timings; with one repetition the
    deviation is 0; with fewer than 20 (100) repetitions the 95th (99th)
    percentile is the maximum; and its node count is that of the search
    named by [algoritmo] between the resolved nodes. *)
Theorem medicao_bem_sucedida (origem_p destino_p : coord) (alg : string)
    (repeticoes warmup : nat) (w w' : mundo) (m : MedicaoAlgoritmo) :
  medir_algoritmo_completo relogio nearest_nodes calcular_rota_alg
    heuristica_astar statistics_mean statistics_median statistics_stdev
    G origem_p destino_p alg repeticoes warmup w = (Ok m, w') →
  sucesso m = true →
  erro m = None ∧
  0 < repeticoes ∧ length (tempos_ms m) = repeticoes ∧
  tempo_min_ms m ∈ tempos_ms m ∧ tempo_max_ms m ∈ tempos_ms m ∧
  (repeticoes = 1 → desvio_padrao_ms m = 0%float) ∧
  (repeticoes < 20 → percentil_95_ms m = tempo_max_ms m) ∧
  (repeticoes < 100 → percentil_99_ms m = tempo_max_ms m) ∧
  ∃ a b, nearest_nodes G (snd origem_p) (fst origem_p) = Ok a ∧
         nearest_nodes G (snd destino_p) (fst destino_p) = Ok b ∧
         nos_explorados m
         = if String.eqb alg "dijkstra" then contar_nos_dijkstra G a b
           else contar_nos_astar heuristica_astar G a b.
Proof.
  unfold medir_algoritmo_completo, try_except_Exception, bind, lift, ret.
  destruct (nearest_nodes G origem_p.2 origem_p.1) as [a|];
    [|by intros [= <- <-]].
  destruct (nearest_nodes G destino_p.2 destino_p.1) as [b|];
    [|by intros [= <- <-]].
  destruct (for_acc _ _ _ w) as [[[]|] w1]; [|by intros [= <- <-]].
  destruct (medicoes _ _ _ _ _ _ _ _ _ w1) as [[[[ts fin]|]|] w2] eqn:Em;
    [|by intros [= <- <-]..].
  apply medicoes_Some in Em as (Hlen & _ & _). simpl in Hlen.
  unfold medicao_sucesso.
  destruct (statistics_mean ts); simpl; [|by intros [= <- <-]].
  destruct (statistics_median ts); simpl; [|by intros [= <- <-]].
  destruct (py_min ts) as [minimo|] eqn:Emin; simpl; [|by intros [= <- <-]].
  destruct (py_max ts) as [maximo|] eqn:Emax; simpl; [|by intros [= <- <-]].
  destruct (if (1 <? length ts)%nat then _ else _) as [desvio|] eqn:Edesv;
    simpl; [|by intros [= <- <-]].
  destruct (percentil_95 ts) as [p95|] eqn:E95; simpl; [|by intros [= <- <-]].
  destruct (percentil_99 ts) as [p99|] eqn:E99; simpl; [|by intros [= <- <-]].
  destruct fin as [[pf df]|]; [|by intros [= <- <-]].
  intros [= <- <-] _. simpl.
  pose proof (py_min_observado _ _ Emin) as Hmin.
  pose proof (py_max_Ok _ _ Emax) as Hmax.
  assert (0 < repeticoes).
  { destruct ts; [by apply elem_of_nil in Hmin|]. simpl in Hlen. lia. }
  split_and!; [done|done|done|done|done| | | |eauto].
  - intros ->. rewrite Hlen in Edesv. simpl in Edesv. congruence.
  - intros Hlt. unfold percentil_95 in E95.
    destruct (20 <=? length ts)%nat eqn:E; [apply Nat.leb_le in E; lia|].
    congruence.
  - intros Hlt. unfold percentil_99 in E99.
    destruct (100 <=? length ts)%nat eqn:E; [apply Nat.leb_le in E; lia|].
    congruence.
Qed.

(** *** The records that [executar] keeps *)

Lemma executar_passo_registro (pois : gmap string coord) (repeticoes : nat)
    (st st' : estado_benchmark) (w w' : mundo) :
  executar_passo relogio nearest_nodes has_path calcular_rota_alg
    heuristica_astar statistics_mean statistics_median statistics_stdev
    random_sample math_cos math_pow G pois repeticoes st w = (Ok st', w') →
  (resultados st' = resultados st ∧
   pares_testados st' = pares_testados st ∧
   pares_invalidos st' = S (pares_invalidos st)) ∨
  (∃ r o d w1 w2,
     resultados st' = resultados st ++ [r] ∧
     pares_testados st' = S (pares_testados st) ∧
     pares_invalidos st' = pares_invalidos st ∧
     registro_coerente pois r ∧
     registro_de_par_conexo nearest_nodes has_path math_cos math_pow G pois r ∧
     pois !! origem r = Some o ∧ pois !! destino r = Some d ∧
     medir_algoritmo_completo relogio nearest_nodes calcular_rota_alg
       heuristica_astar statistics_mean statistics_median statistics_stdev
       G o d "dijkstra" repeticoes 3 w1 = (Ok (dijkstra r), w2) ∧
     medir_algoritmo_completo relogio nearest_nodes calcular_rota_alg
       heuristica_astar statistics_mean statistics_median statistics_stdev
       G o d "astar" repeticoes 3 w2 = (Ok (astar r), w')).
Proof.
  unfold executar_passo, bind, lift, sortear_par.
  destruct (random_sample _ _) as [[on dn]|]; [|done]. simpl.
  destruct (pois !! on) as [o|] eqn:Eo; [|done].
  destruct (pois !! dn) as [d|] eqn:Ed; [|done].
  destruct (verificar_conectividade _ _ _ _ _) eqn:Ec; simpl.
  2: { unfold ret. intros [= <- <-]. left. done. }
  destruct (medir_algoritmo_completo _ _ _ _ _ _ _ _ o d "dijkstra" _ _ _)
    as [[md|] w1] eqn:Emd; [|done].
  destruct (medir_algoritmo_completo _ _ _ _ _ _ _ _ o d "astar" _ _ _)
    as [[ma|] w2] eqn:Ema; [|done].
  destruct (sucesso md) eqn:E1, (sucesso ma) eqn:E2; simpl; unfold ret;
    intros [= <- <-]; simpl; try (left; done).
  right. eexists _, o, d, _, w1. simpl.
  split_and!; [reflexivity|done|done| | |done|done|exact Emd|exact Ema].
  - unfold registro_coerente. simpl.
    apply medir_algoritmo_completo_algoritmo in Emd.
    apply medir_algoritmo_completo_algoritmo in Ema.
    rewrite Eo, Ed. split_and!; eauto.
  - exists o, d. simpl. done.
Qed.

Lemma executar_registros (fuel : nat) (pois : gmap string coord)
    (num_testes repeticoes : nat) (st st' : estado_benchmark) (w w' : mundo) :
  executar relogio nearest_nodes has_path calcular_rota_alg
    heuristica_astar statistics_mean statistics_median statistics_stdev
    random_sample math_cos math_pow fuel G pois num_testes repeticoes st w
    = (Ok (Some st'), w') →
  pares_testados st ≤ num_testes →
  pares_testados st' = num_testes ∧
  pares_invalidos st ≤ pares_invalidos st' ∧
  ∃ novos, resultados st' = resultados st ++ novos ∧
           length novos = num_testes - pares_testados st ∧
           Forall (λ r, registro_coerente pois r ∧
                        registro_de_par_conexo nearest_nodes has_path
                          math_cos math_pow G pois r) novos.
Proof.
  revert st w. induction fuel as [|fuel IH]; intros st w; simpl.
  - destruct (pares_testados st <? num_testes)%nat eqn:E; [done|].
    apply Nat.ltb_ge in E. unfold ret. intros [= <- <-] Hle.
    split_and!; [lia|lia|]. exists []. rewrite app_nil_r.
    split_and!; [done|simpl; lia|constructor].
  - destruct (pares_testados st <? num_testes)%nat eqn:E.
    2: { apply Nat.ltb_ge in E. unfold ret. intros [= <- <-] Hle.
         split_and!; [lia|lia|]. exists []. rewrite app_nil_r.
         split_and!; [done|simpl; lia|constructor]. }
    apply Nat.ltb_lt in E. unfold bind.
    destruct (executar_passo _ _ _ _ _ _ _ _ _ _ _ _ _ _ _ w)
      as [[st1|] w1] eqn:E1; [|done].
    intros H Hle.
    apply executar_passo_registro in E1
      as [(Hr & Ht & Hi)|(r & o & d & wa & wb & Hr & Ht & Hi & Hc & Hx & _)].
    + apply IH in H as (Ht' & Hi' & novos & Hn & Hl & Hf); [|lia].
      split_and!; [done|lia|]. exists novos. rewrite <- Hr, <- Ht. done.
    + apply IH in H as (Ht' & Hi' & novos & Hn & Hl & Hf); [|lia].
      split_and!; [done|lia|]. exists (r :: novos).
      rewrite Hn, Hr, <- app_assoc. split_and!; [done|simpl; lia|].
      by constructor.
Qed.

(** Property X16: when the loop of [executar] ends, it has accepted
    exactly [num_testes] pairs and appended one record for each to the
    results it started with; every new record holds two successful
    measurements, one per algorithm, names two points of interest that
    passed the connectivity check, and has the distance between them, the
    category of that distance, the speed-ups of its mean and median times
    and the node saving of its two counts. *)
Theorem executar_registra_num_testes (fuel : nat) (pois : gmap string coord)
    (num_testes repeticoes : nat) (anteriores : list ResultadoComparacao)
    (st' : estado_benchmark) (w w' : mundo) :
  executar relogio nearest_nodes has_path calcular_rota_alg
    heuristica_astar statistics_mean statistics_median statistics_stdev
    random_sample math_cos math_pow fuel G pois num_testes repeticoes
    (estado_de_partida anteriores) w
    = (Ok (Some st'), w') →
  pares_testados st' = num_testes ∧
  ∃ novos, resultados st' = anteriores ++ novos ∧
           length novos = num_testes ∧
           Forall (λ r, registro_coerente pois r ∧
                        registro_de_par_conexo nearest_nodes has_path
                          math_cos math_pow G pois r) novos.
Proof.
  intros H. apply executar_registros in H as (Ht & _ & novos & Hn & Hl & Hf);
    [|simpl; lia].
  split; [done|]. exists novos. simpl in *. split_and!; [done|lia|done].
Qed.

End MedicaoBemSucedida.

Section MedicaoOuFalha.

Variable relogio : nat → float.
Variable nearest_nodes : grafo → float → float → result Z.
Variable calcular_rota_alg :
  grafo → coord → coord → string → M mundo (option rota).
Variable heuristica_astar : result heuristica.
Variable statistics_mean : list float → result float.
Variable statistics_median : list float → result float.
Variable statistics_stdev : list float → result float.
Variable G : grafo.

(** Property X17: [medir_algoritmo_completo] never raises.  What it
    returns is either successful with no error text or the failure record,
    all figures zero; when the origin or the destination does not resolve
    to a node, it is the failure record with the text of the exception, and
    no route is computed. *)
Theorem medicao_ou_falha (origem_p destino_p : coord) (alg : string)
    (repeticoes warmup : nat) (w : mundo) :
  (∃ m w',
     medir_algoritmo_completo relogio nearest_nodes calcular_rota_alg
       heuristica_astar statistics_mean statistics_median statistics_stdev
       G origem_p destino_p alg repeticoes warmup w = (Ok m, w') ∧
     ((sucesso m = true ∧ erro m = None) ∨
      ∃ motivo, m = medicao_falha alg motivo)) ∧
  (∀ e, nearest_nodes G (snd origem_p) (fst origem_p) = Raise e →
     medir_algoritmo_completo relogio nearest_nodes calcular_rota_alg
       heuristica_astar statistics_mean statistics_median statistics_stdev
       G origem_p destino_p alg repeticoes warmup w
     = (Ok (medicao_falha alg (mensagem e)), w)) ∧
  (∀ a e, nearest_nodes G (snd origem_p) (fst origem_p) = Ok a →
     nearest_nodes G (snd destino_p) (fst destino_p) = Raise e →
     medir_algoritmo_completo relogio nearest_nodes calcular_rota_alg
       heuristica_astar statistics_mean statistics_median statistics_stdev
       G origem_p destino_p alg repeticoes warmup w
     = (Ok (medicao_falha alg (mensagem e)), w)).
Proof.
  split_and!.
  - unfold medir_algoritmo_completo, try_except_Exception, bind, lift, ret.
    destruct (nearest_nodes G origem_p.2 origem_p.1) as [a|]; [|eauto 6].
    destruct (nearest_nodes G destino_p.2 destino_p.1) as [b|]; [|eauto 6].
    destruct (for_acc _ _ _ w) as [[[]|] w1]; [|eauto 6].
    destruct (medicoes _ _ _ _ _ _ _ _ _ w1) as [[[[ts fin]|]|] w2];
      [|eauto 6..].
    unfold medicao_sucesso.
    destruct (statistics_mean ts); simpl; [|eauto 6].
    destruct (statistics_median ts); simpl; [|eauto 6].
    destruct (py_min ts); simpl; [|eauto 6].
    destruct (py_max ts); simpl; [|eauto 6].
    destruct (if (1 <? length ts)%nat then _ else _); simpl; [|eauto 6].
    destruct (percentil_95 ts); simpl; [|eauto 6].
    destruct (percentil_99 ts); simpl; [|eauto 6].
    destruct fin as [[pf df]|]; [|eauto 6].
    eexists _, _. split; [reflexivity|]. left. done.
  - intros e He.
    unfold medir_algoritmo_completo, try_except_Exception, bind, lift, ret.
    by rewrite He.
  - intros a e Ha He.
    unfold medir_algoritmo_completo, try_except_Exception, bind, lift, ret.
    by rewrite Ha, He.
Qed.

End MedicaoOuFalha.

Lemma medicao_ou_falha_witness :
  medir_algoritmo_completo (λ _, 0%float) nearest_nodes_vazio
    calcular_rota_fixa (Raise (erro_chave "h"))
    (λ _, Ok 0%float) (λ _, Ok 0%float) (λ _, Ok 0%float)
    grafo_vazio (0, 0)%float (1, 1)%float "astar" 20 3 mundo_inicial
  = (Ok (medicao_falha "astar" "Found array with 0 sample(s)"), mundo_inicial).
Proof.
  apply (proj1 (proj2 (medicao_ou_falha (λ _, 0%float) nearest_nodes_vazio
           calcular_rota_fixa (Raise (erro_chave "h"))
           (λ _, Ok 0%float) (λ _, Ok 0%float) (λ _, Ok 0%float)
           grafo_vazio (0, 0)%float (1, 1)%float "astar" 20 3 mundo_inicial))
         (erro_valor "Found array with 0 sample(s)")).
  reflexivity.
Defined.

Lemma medicao_bem_sucedida_witness :
  ∃ m w', medicao_exemplo = (Ok m, w') ∧ length (tempos_ms m) = 2.
Proof.
  destruct medicao_exemplo as [[m|e] w'] eqn:E;
    [|vm_compute in E; discriminate E].
  exists m, w'. split; [done|].
  refine (proj1 (proj2 (proj2
    (medicao_bem_sucedida (λ _, 0%float) (λ _ _ _, Ok 1%Z)
       calcular_rota_fixa (Raise (erro_chave "h"))
       (λ _, Ok 0%float) (λ _, Ok 0%float) (λ _, Ok 0%float)
       grafo_linha (0, 0)%float (1, 1)%float "dijkstra" 2 3 mundo_inicial
       w' m E _)))).
  vm_compute in E. injection E as <- _. reflexivity.
Defined.

Lemma executar_registra_num_testes_witness :
  ∃ st' w', execucao_exemplo = (Ok (Some st'), w') ∧ pares_testados st' = 1.
Proof.
  destruct execucao_exemplo as [[[st'|]|e] w'] eqn:E;
    [|vm_compute in E; discriminate E..].
  exists st', w'. split; [done|].
  exact (proj1
    (executar_registra_num_testes (λ _, 0%float) (λ _ _ _, Ok 1%Z)
       (λ _ _ _, Ok true) calcular_rota_fixa (Ok (λ _ _ _, Ok 0%float))
       (λ _, Ok 0%float) (λ _, Ok 0%float) (λ _, Ok 0%float)
       (λ _ _, Ok ("a", "b")) (λ x, x) (λ x _, x)
       grafo_linha 5 dois_pois 1 2 [] st' mundo_inicial w' E)).
Defined.

(** *** The benchmark on the route calculator of the repository *)

Section BenchmarkDoRepositorio.

Variable relogio : nat → float.
Variable nearest_nodes : grafo → float → float → result Z.
Variable has_path : grafo → Z → Z → result bool.
Variable shortest_path : grafo → Z → Z → result (list Z).
Variable shortest_path_length : grafo → Z → Z → result float.
Variable heuristica_astar : result heuristica.
Variable statistics_mean : list float → result float.
Variable statistics_median : list float → result float.
Variable statistics_stdev : list float → result float.
Variable random_sample : nat → list string → result (string * string).
Variable math_cos : float → float.
Variable math_pow : float → float → float.
Variable G : grafo.

Lemma medir_contra_route_calculator (o d : coord) (alg : string)
    (repeticoes warmup : nat) (w w' : mundo) (m : MedicaoAlgoritmo) :
  medir_algoritmo_completo relogio nearest_nodes
    (calcular_rota_com_algoritmo nearest_nodes shortest_path
       shortest_path_length)
    heuristica_astar statistics_mean statistics_median statistics_stdev
    G o d alg repeticoes (S warmup) w = (Ok m, w') →
  sucesso m = false.
Proof.
  unfold medir_algoritmo_completo, try_except_Exception, bind, lift, ret.
  destruct (nearest_nodes G o.2 o.1) as [a|]; [|by intros [= <- <-]].
  destruct (nearest_nodes G d.2 d.1) as [b|]; [|by intros [= <- <-]].
  simpl. by intros [= <- <-].
Qed.

(** Property X18: with the [calcular_rota] of [route_calculator.py], the
    loop of [executar] never accepts a pair: started with tests still to
    run it does not end, whatever the number of iterations, unless an
    exception stops it. *)
Theorem executar_nunca_conclui (fuel : nat) (pois : gmap string coord)
    (num_testes repeticoes : nat) (st : estado_benchmark) (w : mundo) :
  pares_testados st < num_testes →
  ∃ w', executar relogio nearest_nodes has_path
          (calcular_rota_com_algoritmo nearest_nodes shortest_path
             shortest_path_length)
          heuristica_astar statistics_mean statistics_median statistics_stdev
          random_sample math_cos math_pow fuel G pois num_testes repeticoes
          st w
        = (Ok None, w') ∨
        ∃ e, executar relogio nearest_nodes has_path
               (calcular_rota_com_algoritmo nearest_nodes shortest_path
                  shortest_path_length)
               heuristica_astar statistics_mean statistics_median
               statistics_stdev random_sample math_cos math_pow fuel G pois
               num_testes repeticoes st w
             = (Raise e, w').
Proof.
  revert st w. induction fuel as [|fuel IH]; intros st w Hlt; simpl;
    rewrite (proj2 (Nat.ltb_lt _ _) Hlt).
  - exists w. by left.
  - unfold bind.
    destruct (executar_passo _ _ _ _ _ _ _ _ _ _ _ _ _ _ _ w)
      as [[st1|e] w1] eqn:E1; [|exists w1; right; eauto].
    apply executar_passo_registro in E1
      as [(_ & Ht & _)|(r & o & d & wa & wb & _ & _ & _ & Hc & _ & _ & _ & Hmd & _)].
    + apply IH. lia.
    + apply medir_contra_route_calculator in Hmd.
      destruct Hc as (Hs & _). congruence.
Qed.

End BenchmarkDoRepositorio.

Lemma executar_nunca_conclui_witness :
  ∃ w', executar (λ _, 0%float) (λ _ _ _, Ok 1%Z) (λ _ _ _, Ok true)
          (calcular_rota_com_algoritmo (λ _ _ _, Ok 1%Z)
             (λ _ _ _, Ok [1%Z]) (λ _ _ _, Ok 0%float))
          (Ok (λ _ _ _, Ok 0%float))
          (λ _, Ok 0%float) (λ _, Ok 0%float) (λ _, Ok 0%float)
          (λ _ _, Ok ("a", "b")) (λ x, x) (λ x _, x)
          5 grafo_linha dois_pois 1 2 (estado_de_partida []) mundo_inicial
        = (Ok None, w') ∨
        ∃ e, executar (λ _, 0%float) (λ _ _ _, Ok 1%Z) (λ _ _ _, Ok true)
               (calcular_rota_com_algoritmo (λ _ _ _, Ok 1%Z)
                  (λ _ _ _, Ok [1%Z]) (λ _ _ _, Ok 0%float))
               (Ok (λ _ _ _, Ok 0%float))
               (λ _, Ok 0%float) (λ _, Ok 0%float) (λ _, Ok 0%float)
               (λ _ _, Ok ("a", "b")) (λ x, x) (λ x _, x)
               5 grafo_linha dois_pois 1 2 (estado_de_partida []) mundo_inicial
             = (Raise e, w').
Proof.
  apply (executar_nunca_conclui (λ _, 0%float) (λ _ _ _, Ok 1%Z)
           (λ _ _ _, Ok true) (λ _ _ _, Ok [1%Z]) (λ _ _ _, Ok 0%float)
           (Ok (λ _ _ _, Ok 0%float))
           (λ _, Ok 0%float) (λ _, Ok 0%float) (λ _, Ok 0%float)
           (λ _ _, Ok ("a", "b")) (λ x, x) (λ x _, x)
           grafo_linha 5 dois_pois 1 2 (estado_de_partida []) mundo_inicial).
  simpl. lia.
Defined.
